(** * canadalocalproduceapi: the product catalogue service of [server.js]

    A shallow embedding of the Express handlers of [src/server.js] and of
    the relational store they talk to, followed by the properties of the
    listing query builder and of the product-request moderation workflow.

    Layout:
    - [Js]: the fragment of JavaScript the handlers rely on (numbers as
      IEEE binary64, string-to-number conversion, [parseFloat], values);
    - [validatePrice] and the listing query builder;
    - the store: tables, the statements the handlers send, their execution;
    - the handlers, in a state-and-error monad over the store;
    - a sample store, and the notions the properties are stated with;
    - the properties, then worked examples on the sample store. *)

From Stdlib Require Import ZArith List String Ascii Bool Lia QArith QArith.Qpower.
From Stdlib Require Import Floats.SpecFloat Numbers.DecimalString.
From Stdlib Require Import Sorting.Permutation.
Import ListNotations.
Open Scope string_scope.
Open Scope Z_scope.
Set Warnings "-register-all".

(** ** JavaScript values and numbers *)

Module Js.

(** A JavaScript Number is an IEEE 754 binary64 value. *)
Definition number := spec_float.
Definition prec := 53.
Definition emax := 1024.

Definition NaN : number := S754_nan.
Definition of_Z (z : Z) : number := binary_normalize prec emax z 0 false.
Definition sub : number -> number -> number := SFsub prec emax.
Definition mul : number -> number -> number := SFmul prec emax.
(** [x >= y] on Numbers; false as soon as one side is NaN. *)
Definition ge (x y : number) : bool := SFleb y x.
Definition lt (x y : number) : bool := SFltb x y.
Definition is_nan (x : number) : bool :=
  match x with S754_nan => true | _ => false end.

(** Strings are sequences of 8-bit code units.  White space and line
    terminators in that range: TAB, LF, VT, FF, CR, SP and NBSP. *)
Definition is_white (c : ascii) : bool :=
  let n := nat_of_ascii c in
  ((9 <=? n) && (n <=? 13))%nat || (n =? 32)%nat || (n =? 160)%nat.

Fixpoint trim_start (s : string) : string :=
  match s with
  | String c s' => if is_white c then trim_start s' else s
  | EmptyString => EmptyString
  end.

Fixpoint trim_end (s : string) : string :=
  match s with
  | EmptyString => EmptyString
  | String c s' =>
      match trim_end s' with
      | EmptyString => if is_white c then EmptyString else String c EmptyString
      | t => String c t
      end
  end.

Fixpoint strip_prefix (p s : string) : option string :=
  match p with
  | EmptyString => Some s
  | String a p' =>
      match s with
      | String b s' => if Ascii.eqb a b then strip_prefix p' s' else None
      | EmptyString => None
      end
  end.

Definition digit_of (base : Z) (c : ascii) : option Z :=
  let n := Z.of_nat (nat_of_ascii c) in
  let v := if (48 <=? n) && (n <=? 57) then Some (n - 48)
           else if (97 <=? n) && (n <=? 122) then Some (n - 87)
           else if (65 <=? n) && (n <=? 90) then Some (n - 55)
           else None in
  match v with
  | Some d => if d <? base then Some d else None
  | None => None
  end.

(** The longest run of digits at the head of [s]: its value on top of
    [acc], the number of digits read on top of [n], and what follows. *)
Fixpoint digits (base : Z) (s : string) (acc n : Z) : Z * Z * string :=
  match s with
  | String c s' =>
      match digit_of base c with
      | Some d => digits base s' (acc * base + d) (n + 1)
      | None => (acc, n, s)
      end
  | EmptyString => (acc, n, s)
  end.

Definition sign_of (s : string) : bool * string :=
  match s with
  | String "-" s' => (true, s')
  | String "+" s' => (false, s')
  | _ => (false, s)
  end.

(** ExponentPart, taken only when it is complete. *)
Definition exponent_part (s : string) : Z * string :=
  match s with
  | String c s' =>
      if (Ascii.eqb c "e" || Ascii.eqb c "E")%bool then
        let '(neg, s'') := sign_of s' in
        let '(v, n, rest) := digits 10 s'' 0 0 in
        if n =? 0 then (0, s) else ((if neg then - v else v), rest)
      else (0, s)
  | EmptyString => (0, s)
  end.

(** The Number nearest to [m * 10^e] (ties to even), signed by [neg]. *)
Definition decimal (neg : bool) (m e : Z) : number :=
  match m with
  | Zpos p =>
      match e with
      | Zneg k =>
          SFdiv prec emax (S754_finite neg p 0)
                (S754_finite false (Pos.pow 10 k) 0)
      | _ => binary_normalize prec emax ((if neg then - m else m) * 10 ^ e) 0 false
      end
  | _ => S754_zero neg
  end.

(** The longest prefix of [s] that is a StrDecimalLiteral, with its value
    and the rest of the string. *)
Definition scan_decimal (s : string) : option (number * string) :=
  let '(neg, s1) := sign_of s in
  match strip_prefix "Infinity" s1 with
  | Some rest => Some (S754_infinity neg, rest)
  | None =>
      let '(i, ni, s2) := digits 10 s1 0 0 in
      let '(m, nf, s3) :=
        match s2 with
        | String "." t =>
            let '(m, nf, s3) := digits 10 t i 0 in
            if (ni =? 0) && (nf =? 0) then (i, 0, s2) else (m, nf, s3)
        | _ => (i, 0, s2)
        end in
      if (ni =? 0) && (nf =? 0) then None
      else let '(e, s4) := exponent_part s3 in
           Some (decimal neg m (e - nf), s4)
  end.

(** [0x], [0o] and [0b] integer literals (no sign allowed). *)
Definition radix_literal (s : string) : option number :=
  match s with
  | String "0" (String c t) =>
      let base := if (Ascii.eqb c "x" || Ascii.eqb c "X")%bool then 16
                  else if (Ascii.eqb c "o" || Ascii.eqb c "O")%bool then 8
                  else if (Ascii.eqb c "b" || Ascii.eqb c "B")%bool then 2
                  else 0 in
      if base =? 0 then None
      else match digits base t 0 0 with
           | (v, n, EmptyString) => if n =? 0 then Some NaN else Some (of_Z v)
           | _ => Some NaN
           end
  | _ => None
  end.

(** ToNumber applied to a String. *)
Definition StringToNumber (s : string) : number :=
  let t := trim_end (trim_start s) in
  match t with
  | EmptyString => S754_zero false
  | _ => match radix_literal t with
         | Some v => v
         | None => match scan_decimal t with
                   | Some (v, EmptyString) => v
                   | _ => NaN
                   end
         end
  end.

(** The global [parseFloat], on a String. *)
Definition parseFloat (s : string) : number :=
  match scan_decimal (trim_start s) with
  | Some (v, _) => v
  | None => NaN
  end.

(** The global [isNaN], on a String: it converts with ToNumber first. *)
Definition isNaN (s : string) : bool := is_nan (StringToNumber s).

(** Values, as they come out of [JSON.parse] and go into [res.json]. *)
Inductive value : Type :=
| Undefined
| Null
| Bool (b : bool)
| Num (n : number)
| Str (s : string)
| Arr (items : list value)
| Obj (props : list (string * value)).

(** ToNumber.  An array converts through its string form, the
    comma-joined strings of its items, and a plain object through
    ["[object Object]"]. *)
Fixpoint ToNumber (v : value) : number :=
  match v with
  | Undefined => NaN
  | Null => S754_zero false
  | Bool b => of_Z (if b then 1 else 0)
  | Num n => n
  | Str s => StringToNumber s
  | Obj _ => NaN
  | Arr [] => S754_zero false
  | Arr [x] =>
      match x with
      | Undefined | Null => S754_zero false
      | Num (S754_zero _) => S754_zero false
      | Num n => n
      | Str s => StringToNumber s
      | Arr _ => ToNumber x
      | Bool _ | Obj _ => NaN
      end
  | Arr _ => NaN
  end.

(** [v === s] for a string literal [s]. *)
Definition strict_eq_str (v : value) (s : string) : bool :=
  match v with
  | Str t => String.eqb t s
  | _ => false
  end.

(** Property access [o.k] on a value that has properties; a missing
    property reads as [undefined].  On [undefined] and [null] the access
    throws: the handlers test [nullish] before they destructure. *)
Fixpoint lookup (k : string) (props : list (string * value)) : value :=
  match props with
  | [] => Undefined
  | (k', v) :: rest => if String.eqb k k' then v else lookup k rest
  end.

Definition get (k : string) (o : value) : value :=
  match o with
  | Obj props => lookup k props
  | _ => Undefined
  end.

(** [undefined] and [null], the two values that have no properties:
    destructuring one of them, as in [const { status } = req.body], throws
    a TypeError. *)
Definition nullish (v : value) : bool :=
  match v with
  | Undefined | Null => true
  | _ => false
  end.

(** The message of that TypeError. *)
Definition cannot_destructure (k : string) (v : value) : string :=
  "Cannot destructure property '" ++ k ++ "' of 'req.body' as it is "
  ++ (match v with Null => "null" | _ => "undefined" end) ++ ".".

(** A small non-negative integer printed by string concatenation, as in
    ['$' + (params.length + 1)]. *)
Definition nat_to_string (n : nat) : string :=
  NilZero.string_of_uint (Nat.to_uint n).

End Js.

Definition JsVal : Type := Js.value.

(** ** [validatePrice] (server.js, line 24) *)

(** [!isNaN(price) && parseFloat(price) >= 0].  The handler calls it on
    query-string values only, which are strings. *)
Definition validatePrice (price : string) : bool :=
  negb (Js.isNaN price) && Js.ge (Js.parseFloat price) (Js.of_Z 0).

(** ** The listing query builder (server.js, lines 31-66) *)

(** [req.query] of [GET /api/products].  A key given once, as in
    [?page=2], is a string, and a key that is not given is [undefined];
    keys repeated or written with brackets, which the query parser turns
    into arrays and objects, are not covered. *)
Module Listing.
Record query : Type := {
  page : option string;
  limit : option string;
  category_id : option string;
  min_price : option string;
  max_price : option string;
  sort_by : option string;
  order : option string
}.
End Listing.

(** Truthiness of a [string | undefined]: given and not empty. *)
Definition present (v : option string) : bool :=
  match v with
  | Some s => negb (String.eqb s EmptyString)
  | None => false
  end.

Definition as_value (v : option string) : JsVal :=
  match v with
  | Some s => Js.Str s
  | None => Js.Undefined
  end.

(** Destructuring with a default: [{ page = 1 } = req.query]. *)
Definition with_default (v : option string) (d : JsVal) : JsVal :=
  match v with
  | Some s => Js.Str s
  | None => d
  end.

Definition text_default (v : option string) (d : string) : string :=
  match v with
  | Some s => s
  | None => d
  end.

(** [min_price && !validatePrice(min_price)] *)
Definition rejected_price (v : option string) : bool :=
  match v with
  | Some s => negb (String.eqb s EmptyString) && negb (validatePrice s)
  | None => false
  end.

(** [l.push(x)] *)
Definition push {A : Type} (l : list A) (x : A) : list A := (l ++ [x])%list.

(** [const offset = (page - 1) * limit] *)
Definition offset_of (q : Listing.query) : Js.number :=
  let page := with_default (Listing.page q) (Js.Num (Js.of_Z 1)) in
  let limit := with_default (Listing.limit q) (Js.Num (Js.of_Z 10)) in
  Js.mul (Js.sub (Js.ToNumber page) (Js.of_Z 1)) (Js.ToNumber limit).

(** Lines 34-66, after the two price checks: the command text and the
    bound parameters handed to [pool.query]. *)
Definition build_listing (q : Listing.query) : string * list JsVal :=
  let limit := with_default (Listing.limit q) (Js.Num (Js.of_Z 10)) in
  let category_id := Listing.category_id q in
  let min_price := Listing.min_price q in
  let max_price := Listing.max_price q in
  let sort_by := text_default (Listing.sort_by q) "id" in
  let order := text_default (Listing.order q) "ASC" in
  let offset := offset_of q in
  let query := "SELECT * FROM products" in
  let params : list JsVal := [] in
  let conditions : list string := [] in
  let '(conditions, params) :=
    if present category_id
    then (push conditions "category_id = $1", push params (as_value category_id))
    else (conditions, params) in
  let '(conditions, params) :=
    if present min_price
    then (push conditions ("price >= $" ++ Js.nat_to_string (List.length params + 1)%nat),
          push params (as_value min_price))
    else (conditions, params) in
  let '(conditions, params) :=
    if present max_price
    then (push conditions ("price <= $" ++ Js.nat_to_string (List.length params + 1)%nat),
          push params (as_value max_price))
    else (conditions, params) in
  let query :=
    if (0 <? List.length conditions)%nat
    then query ++ " WHERE " ++ String.concat " AND " conditions
    else query in
  let query :=
    query ++ " ORDER BY " ++ sort_by ++ " " ++ order
          ++ " LIMIT $" ++ Js.nat_to_string (List.length params + 1)%nat
          ++ " OFFSET $" ++ Js.nat_to_string (List.length params + 2)%nat in
  let params := push (push params limit) (Js.Num offset) in
  (query, params).

(** ** The store *)

(** Rows keep, for every column a handler writes, the value that was
    bound for it.  The column lists are those of the INSERT statements of
    server.js. *)
Module Product.
Record t : Type := {
  id : Z;
  name : JsVal;
  description : JsVal;
  price : JsVal;
  category_id : JsVal;
  image_url : JsVal;
  affiliate_url : JsVal;
  address : JsVal
}.

(** The row object that [SELECT *] and [RETURNING *] deliver. *)
Definition to_json (p : t) : JsVal :=
  Js.Obj [("id", Js.Num (Js.of_Z (id p)));
          ("name", name p);
          ("description", description p);
          ("price", price p);
          ("category_id", category_id p);
          ("image_url", image_url p);
          ("affiliate_url", affiliate_url p);
          ("address", address p)].

Definition columns : list string :=
  ["id"; "name"; "description"; "price"; "category_id"; "image_url";
   "affiliate_url"; "address"].
End Product.

Module ProductRequest.
Record t : Type := {
  id : Z;
  user_id : JsVal;
  name : JsVal;
  description : JsVal;
  price : JsVal;
  category_id : JsVal;
  image_url : JsVal;
  affiliate_url : JsVal;
  address : JsVal;
  status : JsVal
}.

Definition to_json (r : t) : JsVal :=
  Js.Obj [("id", Js.Num (Js.of_Z (id r)));
          ("user_id", user_id r);
          ("name", name r);
          ("description", description r);
          ("price", price r);
          ("category_id", category_id r);
          ("image_url", image_url r);
          ("affiliate_url", affiliate_url r);
          ("address", address r);
          ("status", status r)].

Definition set_status (s : JsVal) (r : t) : t :=
  {| id := id r; user_id := user_id r; name := name r;
     description := description r; price := price r;
     category_id := category_id r; image_url := image_url r;
     affiliate_url := affiliate_url r; address := address r;
     status := s |}.
End ProductRequest.

(** Modelled from the spec: the table declarations are not in the
    repository.  Section 3 makes the identifier of a Product and of a
    ProductRequest an integer that the system assigns and that is unique;
    each table therefore carries the next identifier to hand out. *)
Record Db : Type := {
  products : list Product.t;
  product_requests : list ProductRequest.t;
  products_id_seq : Z;
  product_requests_id_seq : Z
}.

(** Modelled from the spec: the default of the [status] column, which the
    INSERT of server.js leaves out.  Section 3: a ProductRequest is
    "created in pending status by a user submission". *)
Definition default_status : JsVal := Js.Str "pending".

(** How PostgreSQL reads a bound or stored value at the type of a column,
    and how it orders rows by a column, depend on declarations that are
    not in the repository; the store is parameterised by them.  [None]
    is a value the store cannot read at that type. *)
Record Pg : Type := {
  int_in : JsVal -> option Z;
  numeric_in : JsVal -> option Q;
  text_in : JsVal -> option string;
  row_le : string -> Product.t -> Product.t -> bool
}.

(** [pg] sends [undefined] as NULL. *)
Definition prepareValue (v : JsVal) : JsVal :=
  match v with
  | Js.Undefined => Js.Null
  | _ => v
  end.

(** *** LIKE patterns *)

Definition lower_ascii (c : ascii) : ascii :=
  let n := nat_of_ascii c in
  if ((65 <=? n) && (n <=? 90))%nat then ascii_of_nat (n + 32) else c.

Fixpoint lower (s : string) : string :=
  match s with
  | EmptyString => EmptyString
  | String c s' => String (lower_ascii c) (lower s')
  end.

Definition backslash : ascii := ascii_of_nat 92.

(** [t LIKE p]: [%] stands for any run of characters, [_] for any one
    character, and a backslash makes the character after it literal. *)
Fixpoint like (p : string) : string -> bool :=
  match p with
  | EmptyString => fun t => match t with EmptyString => true | _ => false end
  | String c p' =>
      if Ascii.eqb c "%" then
        fix any (t : string) : bool :=
          like p' t || match t with
                       | EmptyString => false
                       | String _ t' => any t'
                       end
      else if Ascii.eqb c "_" then
        fun t => match t with
                 | String _ t' => like p' t'
                 | EmptyString => false
                 end
      else if Ascii.eqb c backslash then
        match p' with
        | String d p'' =>
            fun t => match t with
                     | String x t' => Ascii.eqb d x && like p'' t'
                     | EmptyString => false
                     end
        | EmptyString => fun _ => false
        end
      else
        fun t => match t with
                 | String x t' => Ascii.eqb c x && like p' t'
                 | EmptyString => false
                 end
  end.

(** [t ILIKE p] *)
Definition ilike (p t : string) : bool := like (lower p) (lower t).

(** *** The statements of server.js *)

Inductive cond : Type :=
| CategoryEq (k : nat)
| PriceGe (k : nat)
| PriceLe (k : nat).

Inductive statement : Type :=
| SelectListing (conds : list cond) (col : string) (desc : bool) (lim off : nat)
| SearchProducts
| InsertProduct (returning : bool)
| UpdateProduct
| InsertRequest
| SelectRequest
| UpdateRequestStatus.

Definition sql_search : string :=
  "SELECT * FROM products WHERE name ILIKE $1 OR description ILIKE $1".
Definition sql_insert_product_returning : string :=
  "INSERT INTO products (name, description, price, category_id, image_url, affiliate_url, address) VALUES ($1, $2, $3, $4, $5, $6, $7) RETURNING *".
Definition sql_insert_product : string :=
  "INSERT INTO products (name, description, price, category_id, image_url, affiliate_url, address) VALUES ($1, $2, $3, $4, $5, $6, $7)".
Definition sql_update_product : string :=
  "UPDATE products SET name = $1, description = $2, price = $3, category_id = $4, image_url = $5, address = $6 WHERE id = $7 RETURNING *".
Definition sql_insert_request : string :=
  "INSERT INTO product_requests (user_id, name, description, price, category_id, image_url, affiliate_url, address) VALUES ($1, $2, $3, $4, $5, $6, $7, $8) RETURNING *".
Definition sql_select_request : string :=
  "SELECT * FROM product_requests WHERE id = $1".
Definition sql_update_request : string :=
  "UPDATE product_requests SET status = $1 WHERE id = $2".

(** Words of a command text, cut at every single space. *)
Fixpoint split (s : string) : list string :=
  match s with
  | EmptyString => [EmptyString]
  | String c s' =>
      if Ascii.eqb c " " then EmptyString :: split s'
      else match split s' with
           | t :: ts => String c t :: ts
           | [] => [String c EmptyString]
           end
  end.

Fixpoint expect (ws toks : list string) : option (list string) :=
  match ws with
  | [] => Some toks
  | w :: ws' =>
      match toks with
      | t :: toks' => if String.eqb w t then expect ws' toks' else None
      | [] => None
      end
  end.

(** [$k] *)
Definition placeholder (t : string) : option nat :=
  match t with
  | String "$" ds =>
      match Js.digits 10 ds 0 0 with
      | (v, n, EmptyString) => if (0 <? n) && (0 <? v) then Some (Z.to_nat v) else None
      | _ => None
      end
  | _ => None
  end.

Definition parse_cond (col op ph : string) : option cond :=
  match placeholder ph with
  | Some k =>
      if String.eqb col "category_id" && String.eqb op "=" then Some (CategoryEq k)
      else if String.eqb col "price" && String.eqb op ">=" then Some (PriceGe k)
      else if String.eqb col "price" && String.eqb op "<=" then Some (PriceLe k)
      else None
  | None => None
  end.

(** [c1 AND c2 AND ...], and the words after the last condition. *)
Fixpoint parse_conds (toks : list string) : option (list cond * list string) :=
  match toks with
  | col :: op :: ph :: rest =>
      match parse_cond col op ph with
      | Some c =>
          match rest with
          | t :: rest' =>
              if String.eqb t "AND" then
                match parse_conds rest' with
                | Some (cs, r) => Some (c :: cs, r)
                | None => None
                end
              else Some ([c], rest)
          | [] => Some ([c], rest)
          end
      | None => None
      end
  | _ => None
  end.

(** [col dir LIMIT $a OFFSET $b], to the end of the text: one column of
    the products table and a direction.  This store reads no other
    ORDER BY clause and answers a syntax error to it, though PostgreSQL
    runs whatever expression list the text spells; what is proved of the
    order of a listing is proved of the listings that are answered. *)
Definition parse_order (toks : list string) : option (string * bool * nat * nat) :=
  match toks with
  | [col; dir; l; a; o; b] =>
      if existsb (String.eqb col) Product.columns
         && String.eqb l "LIMIT" && String.eqb o "OFFSET" then
        match placeholder a, placeholder b with
        | Some ka, Some kb =>
            if String.eqb (lower dir) "asc" then Some (col, false, ka, kb)
            else if String.eqb (lower dir) "desc" then Some (col, true, ka, kb)
            else None
        | _, _ => None
        end
      else None
  | _ => None
  end.

Definition parse_tail (toks : list string) : option (string * bool * nat * nat) :=
  match expect ["ORDER"; "BY"] toks with
  | Some rest => parse_order rest
  | None => None
  end.

Definition parse_listing (text : string) : option statement :=
  match expect ["SELECT"; "*"; "FROM"; "products"] (split text) with
  | Some (t :: rest) =>
      if String.eqb t "WHERE" then
        match parse_conds rest with
        | Some (cs, rest') =>
            match parse_tail rest' with
            | Some (col, desc, a, b) => Some (SelectListing cs col desc a b)
            | None => None
            end
        | None => None
        end
      else
        match parse_tail (t :: rest) with
        | Some (col, desc, a, b) => Some (SelectListing [] col desc a b)
        | None => None
        end
  | _ => None
  end.

(** The store understands the fixed statements of server.js and the
    listing statements with a sort column of the products table; any
    other command text is an error. *)
Definition parse (text : string) : option statement :=
  if String.eqb text sql_search then Some SearchProducts
  else if String.eqb text sql_insert_product_returning then Some (InsertProduct true)
  else if String.eqb text sql_insert_product then Some (InsertProduct false)
  else if String.eqb text sql_update_product then Some UpdateProduct
  else if String.eqb text sql_insert_request then Some InsertRequest
  else if String.eqb text sql_select_request then Some SelectRequest
  else if String.eqb text sql_update_request then Some UpdateRequestStatus
  else parse_listing text.

(** *** Execution *)

Definition Error : Type := string.

Definition param (k : nat) (params : list JsVal) : option JsVal :=
  match k with
  | O => None
  | S i => nth_error params i
  end.

(** A condition with its bound value read at the column's type. *)
Inductive bound : Type :=
| CategoryIs (n : Z)
| PriceAtLeast (lo : Q)
| PriceAtMost (hi : Q).

Fixpoint insert_row (le : Product.t -> Product.t -> bool)
         (x : Product.t) (l : list Product.t) : list Product.t :=
  match l with
  | [] => [x]
  | y :: l' => if le x y then x :: l else y :: insert_row le x l'
  end.

Fixpoint sort_rows (le : Product.t -> Product.t -> bool)
         (l : list Product.t) : list Product.t :=
  match l with
  | [] => []
  | x :: l' => insert_row le x (sort_rows le l')
  end.

(** The validators of express-validator that the POST routes name.  They
    belong to that library, not to the repository; the handlers are
    parameterised by them. *)
Record Validators : Type := {
  notEmpty : JsVal -> bool;
  isFloat_gt_0 : JsVal -> bool;
  isInt_gt_0 : JsVal -> bool;
  isURL : JsVal -> bool
}.

(** Its [isString] is [typeof value === 'string']. *)
Definition isString (v : JsVal) : bool :=
  match v with
  | Js.Str _ => true
  | _ => false
  end.

(** A string literal in double quotes. *)
Definition quoted (s : string) : string :=
  String (ascii_of_nat 34) s ++ String (ascii_of_nat 34) EmptyString.

Section Store.

Variable pg : Pg.
Variable ev : Validators.

Definition resolve (params : list JsVal) (c : cond) : option bound :=
  match c with
  | CategoryEq k =>
      match param k params with
      | Some v => option_map CategoryIs (int_in pg v)
      | None => None
      end
  | PriceGe k =>
      match param k params with
      | Some v => option_map PriceAtLeast (numeric_in pg v)
      | None => None
      end
  | PriceLe k =>
      match param k params with
      | Some v => option_map PriceAtMost (numeric_in pg v)
      | None => None
      end
  end.

Fixpoint resolve_all (params : list JsVal) (cs : list cond) : option (list bound) :=
  match cs with
  | [] => Some []
  | c :: cs' =>
      match resolve params c, resolve_all params cs' with
      | Some b, Some bs => Some (b :: bs)
      | _, _ => None
      end
  end.

(** A comparison with a NULL or unreadable cell is not true. *)
Definition holds (b : bound) (p : Product.t) : bool :=
  match b with
  | CategoryIs n =>
      match int_in pg (Product.category_id p) with
      | Some m => m =? n
      | None => false
      end
  | PriceAtLeast lo =>
      match numeric_in pg (Product.price p) with
      | Some x => Qle_bool lo x
      | None => false
      end
  | PriceAtMost hi =>
      match numeric_in pg (Product.price p) with
      | Some x => Qle_bool x hi
      | None => false
      end
  end.

(** The rows in the order of a column.  Rows that tie come in the order
    that this sort gives them; the store promises none among them. *)
Definition order_rows (col : string) (desc : bool) (l : list Product.t) : list Product.t :=
  sort_rows (fun a b => if desc then row_le pg col b a else row_le pg col a b) l.

Definition read_count (k : nat) (params : list JsVal) : option nat :=
  match param k params with
  | Some v =>
      match int_in pg v with
      | Some n => if 0 <=? n then Some (Z.to_nat n) else None
      | None => None
      end
  | None => None
  end.

Definition select_listing (cs : list cond) (col : string) (desc : bool)
           (lim off : nat) (params : list JsVal) (d : Db)
  : Error + list Product.t :=
  match resolve_all params cs, read_count lim params, read_count off params with
  | Some bs, Some l, Some o =>
      inr (firstn l (skipn o
             (order_rows col desc
                (filter (fun p => forallb (fun b => holds b p) bs) (products d)))))
  | _, _, _ => inl "invalid parameter value"
  end.

(** A string is its own text; NULL has none. *)
Definition as_text (v : JsVal) : option string :=
  match v with
  | Js.Str s => Some s
  | Js.Null => None
  | _ => text_in pg v
  end.

(** [cell ILIKE pat], not true on a NULL cell. *)
Definition matches (pat : string) (cell : JsVal) : bool :=
  match as_text cell with
  | Some t => ilike pat t
  | None => false
  end.

Definition search_products (params : list JsVal) (d : Db) : Error + list Product.t :=
  match params with
  | [Js.Null] => inr []
  | [v] =>
      match as_text v with
      | Some pat =>
          inr (filter (fun p => matches pat (Product.name p)
                                || matches pat (Product.description p))
                      (products d))
      | None => inl "invalid parameter value"
      end
  | _ => inl "wrong number of parameters"
  end.

(** A value that a numeric, or an integer, column takes: NULL, or what
    the store reads at that type.  Section 3 of the specification gives
    the price as a decimal and the category reference as an integer; a
    text column takes whatever is bound. *)
Definition numeric_cell (v : JsVal) : bool :=
  match v with
  | Js.Null => true
  | _ => match numeric_in pg v with Some _ => true | None => false end
  end.

Definition integer_cell (v : JsVal) : bool :=
  match v with
  | Js.Null => true
  | _ => match int_in pg v with Some _ => true | None => false end
  end.

(** An INSERT binds its values before it runs: a price or a category
    that the column cannot take fails the statement, nothing is stored
    and no identifier is handed out.  The declarations of the tables are
    not in the repository: keys to other tables and constraints on the
    text columns are left out.  A row keeps each value as it was bound;
    the store answers a number at the type of its column, a decimal in
    digits, so what is proved of a price or a category in an answer is
    proved of the number that [numeric_in] or [int_in] reads there. *)
Definition insert_product (params : list JsVal) (d : Db) : Error + (Product.t * Db) :=
  match params with
  | [name; description; price; category_id; image_url; affiliate_url; address] =>
      let row := {| Product.id := products_id_seq d;
                    Product.name := name;
                    Product.description := description;
                    Product.price := price;
                    Product.category_id := category_id;
                    Product.image_url := image_url;
                    Product.affiliate_url := affiliate_url;
                    Product.address := address |} in
      if numeric_cell price && integer_cell category_id then
        inr (row, {| products := (products d ++ [row])%list;
                     product_requests := product_requests d;
                     products_id_seq := products_id_seq d + 1;
                     product_requests_id_seq := product_requests_id_seq d |})
      else inl "invalid parameter value"
  | _ => inl "wrong number of parameters"
  end.

Definition update_product (params : list JsVal) (d : Db) : Error + (list Product.t * Db) :=
  match params with
  | [name; description; price; category_id; image_url; address; id] =>
      match (if numeric_cell price && integer_cell category_id
             then int_in pg id else None) with
      | Some n =>
          let set (p : Product.t) :=
            {| Product.id := Product.id p;
               Product.name := name;
               Product.description := description;
               Product.price := price;
               Product.category_id := category_id;
               Product.image_url := image_url;
               Product.affiliate_url := Product.affiliate_url p;
               Product.address := address |} in
          let hit (p : Product.t) := Product.id p =? n in
          inr (map set (filter hit (products d)),
               {| products := map (fun p => if hit p then set p else p) (products d);
                  product_requests := product_requests d;
                  products_id_seq := products_id_seq d;
                  product_requests_id_seq := product_requests_id_seq d |})
      | None => inl "invalid parameter value"
      end
  | _ => inl "wrong number of parameters"
  end.

Definition insert_request (params : list JsVal) (d : Db) : Error + (ProductRequest.t * Db) :=
  match params with
  | [user_id; name; description; price; category_id; image_url; affiliate_url; address] =>
      let row := {| ProductRequest.id := product_requests_id_seq d;
                    ProductRequest.user_id := user_id;
                    ProductRequest.name := name;
                    ProductRequest.description := description;
                    ProductRequest.price := price;
                    ProductRequest.category_id := category_id;
                    ProductRequest.image_url := image_url;
                    ProductRequest.affiliate_url := affiliate_url;
                    ProductRequest.address := address;
                    ProductRequest.status := default_status |} in
      if numeric_cell price && integer_cell category_id then
        inr (row, {| products := products d;
                     product_requests := (product_requests d ++ [row])%list;
                     products_id_seq := products_id_seq d;
                     product_requests_id_seq := product_requests_id_seq d + 1 |})
      else inl "invalid parameter value"
  | _ => inl "wrong number of parameters"
  end.

Definition select_request (params : list JsVal) (d : Db) : Error + list ProductRequest.t :=
  match params with
  | [id] =>
      match int_in pg id with
      | Some n => inr (filter (fun r => ProductRequest.id r =? n) (product_requests d))
      | None => inl "invalid parameter value"
      end
  | _ => inl "wrong number of parameters"
  end.

Definition update_request_status (params : list JsVal) (d : Db) : Error + Db :=
  match params with
  | [status; id] =>
      match int_in pg id with
      | Some n =>
          inr {| products := products d;
                 product_requests :=
                   map (fun r => if ProductRequest.id r =? n
                                 then ProductRequest.set_status status r else r)
                       (product_requests d);
                 products_id_seq := products_id_seq d;
                 product_requests_id_seq := product_requests_id_seq d |}
      | None => inl "invalid parameter value"
      end
  | _ => inl "wrong number of parameters"
  end.

(** One statement against the tables: the rows it returns and the tables
    after it, or the error the store raises. *)
Definition exec (st : statement) (params : list JsVal) (d : Db)
  : Error + (list JsVal * Db) :=
  match st with
  | SelectListing cs col desc lim off =>
      match select_listing cs col desc lim off params d with
      | inr rows => inr (map Product.to_json rows, d)
      | inl e => inl e
      end
  | SearchProducts =>
      match search_products params d with
      | inr rows => inr (map Product.to_json rows, d)
      | inl e => inl e
      end
  | InsertProduct returning =>
      match insert_product params d with
      | inr (row, d') => inr (if returning then [Product.to_json row] else [], d')
      | inl e => inl e
      end
  | UpdateProduct =>
      match update_product params d with
      | inr (rows, d') => inr (map Product.to_json rows, d')
      | inl e => inl e
      end
  | InsertRequest =>
      match insert_request params d with
      | inr (row, d') => inr ([ProductRequest.to_json row], d')
      | inl e => inl e
      end
  | SelectRequest =>
      match select_request params d with
      | inr rows => inr (map ProductRequest.to_json rows, d)
      | inl e => inl e
      end
  | UpdateRequestStatus =>
      match update_request_status params d with
      | inr d' => inr ([], d')
      | inl e => inl e
      end
  end.

(** ** The handlers *)

(** What a handler runs against: the tables, and every command text with
    its parameters that was handed to [pool.query], oldest first. *)
Record World : Type := {
  db : Db;
  sent : list (string * list JsVal)
}.

(** A computation that may throw.  The world it leaves behind is kept
    when it throws: nothing here is inside a transaction. *)
Definition M (A : Type) : Type := World -> (Error + A) * World.

Definition ret {A : Type} (x : A) : M A := fun w => (inr x, w).

Definition bind {A B : Type} (m : M A) (k : A -> M B) : M B :=
  fun w => match m w with
           | (inr x, w') => k x w'
           | (inl e, w') => (inl e, w')
           end.

Notation "x <- m ;; k" := (bind m (fun x => k))
  (at level 61, m at next level, right associativity).

Definition throw {A : Type} (e : Error) : M A := fun w => (inl e, w).

(** [await pool.query(text, params)]: the rows of the result. *)
Definition pool_query (text : string) (params : list JsVal) : M (list JsVal) :=
  fun w =>
    let w1 := {| db := db w; sent := (sent w ++ [(text, params)])%list |} in
    match parse text with
    | None => (inl "syntax error", w1)
    | Some st =>
        match exec st (map prepareValue params) (db w) with
        | inr (rows, d') => (inr rows, {| db := d'; sent := sent w1 |})
        | inl e => (inl e, w1)
        end
    end.

Record Response : Type := {
  code : Z;
  body : JsVal
}.

(** [res.json(v)] and [res.status(c).json(v)] *)
Definition json (v : JsVal) : Response := {| code := 200; body := v |}.
Definition status_json (c : Z) (v : JsVal) : Response := {| code := c; body := v |}.

(** [catch (err) { next(err) }], answered by the error-handling
    middleware (server.js, line 262). *)
Definition or_next (m : M Response) (w : World) : Response * World :=
  match m w with
  | (inr r, w') => (r, w')
  | (inl e, w') =>
      (status_json 500 (Js.Obj [("error", Js.Str "Internal server error");
                                ("details", Js.Str e)]), w')
  end.

(** The [catch] of the two POST handlers. *)
Definition or_server_error (m : M Response) (w : World) : Response * World :=
  match m w with
  | (inr r, w') => (r, w')
  | (inl e, w') =>
      (status_json 500 (Js.Obj [("error", Js.Str "Server error");
                                ("details", Js.Str e)]), w')
  end.

(** [GET /api/products] *)
Definition get_products (q : Listing.query) : World -> Response * World :=
  or_next
    (if rejected_price (Listing.min_price q) then
       ret (status_json 400 (Js.Obj [("error", Js.Str "Invalid min_price")]))
     else if rejected_price (Listing.max_price q) then
       ret (status_json 400 (Js.Obj [("error", Js.Str "Invalid max_price")]))
     else
       let '(query, params) := build_listing q in
       rows <- pool_query query params ;;
       ret (json (Js.Arr rows))).

(** [GET /api/products/search] *)
Definition get_products_search (query : option string) : World -> Response * World :=
  or_next
    (if negb (present query) then
       ret (status_json 400 (Js.Obj [("error", Js.Str "Search query is required")]))
     else
       let searchQuery := "%" ++ text_default query EmptyString ++ "%" in
       rows <- pool_query sql_search [Js.Str searchQuery] ;;
       ret (json (Js.Arr rows))).

(** [PUT /api/products/:id] *)
Definition put_product (id : string) (body : JsVal) : World -> Response * World :=
  or_next
    (if Js.nullish body then throw (Js.cannot_destructure "name" body)
     else
       let name := Js.get "name" body in
       let description := Js.get "description" body in
       let price := Js.get "price" body in
       let category_id := Js.get "category_id" body in
       let image_url := Js.get "image_url" body in
       let address := Js.get "address" body in
       rows <- pool_query sql_update_product
                 [name; description; price; category_id; image_url; address;
                  Js.Str id] ;;
       ret (json (nth 0 rows Js.Undefined))).

(** [PUT /api/product-requests/:id] *)
Definition put_product_request (id : string) (body : JsVal) : World -> Response * World :=
  or_next
    (if Js.nullish body then throw (Js.cannot_destructure "status" body)
     else
     let status := Js.get "status" body in
     if negb (Js.strict_eq_str status "approved")
        && negb (Js.strict_eq_str status "rejected") then
       ret (status_json 400
              (Js.Obj [("error",
                        Js.Str ("Invalid status. Status must be " ++ quoted "approved"
                                ++ " or " ++ quoted "rejected" ++ "."))]))
     else
       requestResult <- pool_query sql_select_request [Js.Str id] ;;
       if (List.length requestResult =? 0)%nat then
         ret (status_json 404 (Js.Obj [("error", Js.Str "Product request not found")]))
       else
         _ <- (if Js.strict_eq_str status "approved" then
                 let productRequest := nth 0 requestResult Js.Undefined in
                 _ <- pool_query sql_insert_product
                        [Js.get "name" productRequest;
                         Js.get "description" productRequest;
                         Js.get "price" productRequest;
                         Js.get "category_id" productRequest;
                         Js.get "image_url" productRequest;
                         Js.get "affiliate_url" productRequest;
                         Js.get "address" productRequest] ;;
                 ret tt
               else ret tt) ;;
         _ <- pool_query sql_update_request [status; Js.Str id] ;;
         ret (json (Js.Obj [("message",
                             Js.Str ("Product request "
                                     ++ (if Js.strict_eq_str status "approved"
                                         then "approved" else "rejected")))]))).

(** One entry of [validationResult(req).array()] for a field of the
    body: the offending value, the message given to [withMessage] and
    the field. *)
Definition field_error (field msg : string) (v : JsVal) : JsVal :=
  Js.Obj [("type", Js.Str "field"); ("value", v); ("msg", Js.Str msg);
          ("path", Js.Str field); ("location", Js.Str "body")].

(** [body(field).<validator>().withMessage(msg)] *)
Definition check (ok : JsVal -> bool) (field msg : string) (body : JsVal) : list JsVal :=
  let v := Js.get field body in
  if ok v then [] else [field_error field msg v].

(** [body(field).optional().<validator>().withMessage(msg)]: skipped when
    the field is [undefined]. *)
Definition check_optional (ok : JsVal -> bool) (field msg : string) (body : JsVal)
  : list JsVal :=
  match Js.get field body with
  | Js.Undefined => []
  | _ => check ok field msg body
  end.


(** The chain of [POST /api/product-requests] (lines 183-192). *)
Definition request_errors (body : JsVal) : list JsVal :=
  (check (notEmpty ev) "name" "Name is required" body
   ++ check (notEmpty ev) "description" "Description is required" body
   ++ check (isFloat_gt_0 ev) "price" "Price must be a positive number" body
   ++ check (isInt_gt_0 ev) "category_id" "Category ID must be a positive integer" body
   ++ check (isURL ev) "image_url" "Image URL must be a valid URL" body
   ++ check (isURL ev) "affiliate_url" "Affiliate URL must be a valid URL" body
   ++ check (isInt_gt_0 ev) "user_id" "User ID must be a positive integer" body
   ++ check_optional isString "address" "Address must be a string" body)%list.


(** [POST /api/product-requests] *)
Definition post_product_requests (body : JsVal) : World -> Response * World :=
  let errors := request_errors body in
  if negb (List.length errors =? 0)%nat then
    fun w => (status_json 400 (Js.Obj [("errors", Js.Arr errors)]), w)
  else
    or_server_error
      (if Js.nullish body then throw (Js.cannot_destructure "name" body)
       else
         let name := Js.get "name" body in
         let description := Js.get "description" body in
         let price := Js.get "price" body in
         let category_id := Js.get "category_id" body in
         let image_url := Js.get "image_url" body in
         let affiliate_url := Js.get "affiliate_url" body in
         let user_id := Js.get "user_id" body in
         let address := Js.get "address" body in
         rows <- pool_query sql_insert_request
                   [user_id; name; description; price; category_id; image_url;
                    affiliate_url; address] ;;
         ret (json (nth 0 rows Js.Undefined))).

End Store.

(** ** A sample store, for the worked examples

    One way of reading values that PostgreSQL accepts for integer and
    numeric columns, and sample validators.  The properties below hold
    for every [Pg] and [Validators]; these serve to run the handlers. *)
Module Example.

(** The integer a Number stands for, when it is one. *)
Definition Z_of_number (x : Js.number) : option Z :=
  match x with
  | S754_zero _ => Some 0
  | S754_finite s m e =>
      let z := if s then Zneg m else Zpos m in
      match e with
      | Zneg k => if z mod Zpos (Pos.pow 2 k) =? 0 then Some (z / Zpos (Pos.pow 2 k)) else None
      | _ => Some (z * 2 ^ e)
      end
  | _ => None
  end.

(** An [integer] column holds 32 bits. *)
Definition int4 (z : Z) : option Z :=
  if (-2147483648 <=? z) && (z <=? 2147483647) then Some z else None.

Definition int_in (v : JsVal) : option Z :=
  match v with
  | Js.Str s =>
      let '(neg, t) := Js.sign_of (Js.trim_end (Js.trim_start s)) in
      match Js.digits 10 t 0 0 with
      | (z, n, EmptyString) => if 0 <? n then int4 (if neg then - z else z) else None
      | _ => None
      end
  | Js.Num x =>
      match Z_of_number x with
      | Some z => int4 z
      | None => None
      end
  | _ => None
  end.

(** The rational a Number stands for, when it is finite. *)
Definition Q_of_number (x : Js.number) : option Q :=
  match x with
  | S754_zero _ => Some 0%Q
  | S754_finite s m e =>
      Some (inject_Z (if s then Zneg m else Zpos m) * (2 # 1) ^ e)%Q
  | _ => None
  end.

(** Digits, a point and more digits, an exponent; one digit at least
    before the exponent. *)
Definition numeric_in (v : JsVal) : option Q :=
  match v with
  | Js.Str s =>
      let '(neg, t) := Js.sign_of (Js.trim_end (Js.trim_start s)) in
      let '(i, ni, t1) := Js.digits 10 t 0 0 in
      let '(m, nf, t2) :=
        match t1 with
        | String "." t' => Js.digits 10 t' i 0
        | _ => (i, 0, t1)
        end in
      if ni + nf =? 0 then None
      else match Js.exponent_part t2 with
           | (e, EmptyString) =>
               Some (inject_Z (if neg then - m else m) * (10 # 1) ^ (e - nf))%Q
           | _ => None
           end
  | Js.Num x => Q_of_number x
  | _ => None
  end.

Definition text_in (v : JsVal) : option string :=
  match v with
  | Js.Str s => Some s
  | _ => None
  end.

(** Ascending order on a column, rows without a value last. *)
Definition cell_le {A : Type} (le : A -> A -> bool) (x y : option A) : bool :=
  match x, y with
  | Some a, Some b => le a b
  | _, None => true
  | None, Some _ => false
  end.

Definition row_le (col : string) (a b : Product.t) : bool :=
  if String.eqb col "price" then
    cell_le Qle_bool (numeric_in (Product.price a)) (numeric_in (Product.price b))
  else if String.eqb col "category_id" then
    cell_le Z.leb (int_in (Product.category_id a)) (int_in (Product.category_id b))
  else if String.eqb col "name" then
    cell_le String.leb (text_in (Product.name a)) (text_in (Product.name b))
  else if String.eqb col "description" then
    cell_le String.leb (text_in (Product.description a))
            (text_in (Product.description b))
  else if String.eqb col "image_url" then
    cell_le String.leb (text_in (Product.image_url a)) (text_in (Product.image_url b))
  else if String.eqb col "affiliate_url" then
    cell_le String.leb (text_in (Product.affiliate_url a))
            (text_in (Product.affiliate_url b))
  else if String.eqb col "address" then
    cell_le String.leb (text_in (Product.address a)) (text_in (Product.address b))
  else Product.id a <=? Product.id b.

Definition pg : Pg := Build_Pg int_in numeric_in text_in row_le.

Definition positive_number (v : JsVal) : bool :=
  match v with
  | Js.Str s => Js.lt (Js.of_Z 0) (Js.StringToNumber s)
  | Js.Num x => Js.lt (Js.of_Z 0) x
  | _ => false
  end.

(** An integer above zero, of any size: in digits, or a Number. *)
Definition positive_integer (v : JsVal) : bool :=
  match v with
  | Js.Str s =>
      match Js.digits 10 (match s with String "+" t => t | _ => s end) 0 0 with
      | (z, n, EmptyString) => (0 <? n) && (0 <? z)
      | _ => false
      end
  | Js.Num x =>
      match Z_of_number x with
      | Some z => 0 <? z
      | None => false
      end
  | _ => false
  end.

Definition not_empty (v : JsVal) : bool :=
  match v with
  | Js.Str s => negb (String.eqb s EmptyString)
  | Js.Num _ | Js.Bool _ => true
  | _ => false
  end.

(** Does [c] occur in [s]? *)
Fixpoint has (c : ascii) (s : string) : bool :=
  match s with
  | String d s' => Ascii.eqb c d || has c s'
  | EmptyString => false
  end.

(** What is left of [s] after one of the protocols, if it starts with
    one. *)
Definition after_protocol (s : string) : string :=
  match Js.strip_prefix "http://" s, Js.strip_prefix "https://" s,
        Js.strip_prefix "ftp://" s with
  | Some t, _, _ | None, Some t, _ | None, None, Some t => t
  | None, None, None => s
  end.

(** The host of an address: what comes before the first slash, question
    mark or hash. *)
Fixpoint host (s : string) : string :=
  match s with
  | String c s' =>
      if (Ascii.eqb c "/" || Ascii.eqb c "?" || Ascii.eqb c "#")%bool
      then EmptyString else String c (host s')
  | EmptyString => EmptyString
  end.

(** An address with or without a protocol, no space in it, and a dot
    inside its host. *)
Definition url (v : JsVal) : bool :=
  match v with
  | Js.Str s =>
      let h := host (after_protocol s) in
      negb (has " " s)
      && match h with
         | String c t => negb (Ascii.eqb c ".") && has "." t
                         && negb (String.eqb (Js.trim_end h) EmptyString)
         | EmptyString => false
         end
  | _ => false
  end.

Definition validators : Validators :=
  {| notEmpty := not_empty; isFloat_gt_0 := positive_number;
     isInt_gt_0 := positive_integer; isURL := url |}.

Definition empty : World :=
  {| db := {| products := []; product_requests := [];
              products_id_seq := 1; product_requests_id_seq := 1 |};
     sent := [] |}.

Definition product (id : Z) (name description price : string) (category : Z)
  : Product.t :=
  {| Product.id := id;
     Product.name := Js.Str name;
     Product.description := Js.Str description;
     Product.price := Js.Str price;
     Product.category_id := Js.Num (Js.of_Z category);
     Product.image_url := Js.Str "https://img.example/a.png";
     Product.affiliate_url := Js.Str "https://shop.example/a";
     Product.address := Js.Null |}.

(** Three products in the catalogue. *)
Definition catalogue : World :=
  {| db := {| products := [product 1 "Maple syrup" "Amber, 500 ml" "12.50" 1;
                           product 2 "Apple butter" "No sugar added" "7.25" 1;
                           product 3 "Wool socks" "Hand-knit" "30" 2];
              product_requests := [];
              products_id_seq := 4; product_requests_id_seq := 1 |};
     sent := [] |}.

Definition listing (category min max sort order : option string) : Listing.query :=
  {| Listing.page := None; Listing.limit := None;
     Listing.category_id := category;
     Listing.min_price := min; Listing.max_price := max;
     Listing.sort_by := sort; Listing.order := order |}.

Definition submission : JsVal :=
  Js.Obj [("name", Js.Str "Birch syrup");
          ("description", Js.Str "Dark, 250 ml");
          ("price", Js.Num (Js.of_Z 18));
          ("category_id", Js.Num (Js.of_Z 1));
          ("image_url", Js.Str "https://img.example/birch.png");
          ("affiliate_url", Js.Str "https://shop.example/birch");
          ("user_id", Js.Num (Js.of_Z 7))].

(** A submission whose category is beyond the 32 bits of an integer
    column. *)
Definition far_submission : JsVal :=
  Js.Obj [("name", Js.Str "Birch syrup");
          ("description", Js.Str "Dark, 250 ml");
          ("price", Js.Num (Js.of_Z 18));
          ("category_id", Js.Num (Js.of_Z 99999999999));
          ("image_url", Js.Str "https://img.example/birch.png");
          ("affiliate_url", Js.Str "https://shop.example/birch");
          ("user_id", Js.Num (Js.of_Z 7))].

(** A submission with a negative price. *)
Definition bad_submission : JsVal :=
  Js.Obj [("name", Js.Str "Birch syrup");
          ("description", Js.Str "Dark, 250 ml");
          ("price", Js.Num (Js.of_Z (-5)));
          ("category_id", Js.Num (Js.of_Z 1));
          ("image_url", Js.Str "https://img.example/birch.png");
          ("affiliate_url", Js.Str "https://shop.example/birch");
          ("user_id", Js.Num (Js.of_Z 7))].

(** A request in the store, as the store answers it: the price in
    digits. *)
Definition request : ProductRequest.t :=
  {| ProductRequest.id := 1;
     ProductRequest.user_id := Js.Num (Js.of_Z 7);
     ProductRequest.name := Js.Str "Birch syrup";
     ProductRequest.description := Js.Str "Dark, 250 ml";
     ProductRequest.price := Js.Str "18.00";
     ProductRequest.category_id := Js.Num (Js.of_Z 1);
     ProductRequest.image_url := Js.Str "https://img.example/birch.png";
     ProductRequest.affiliate_url := Js.Str "https://shop.example/birch";
     ProductRequest.address := Js.Null;
     ProductRequest.status := Js.Str "pending" |}.

(** The catalogue with that request waiting for a decision. *)
Definition review : World :=
  {| db := {| products := products (db catalogue);
              product_requests := [request];
              products_id_seq := 4; product_requests_id_seq := 2 |};
     sent := [] |}.

Definition decision (status : string) : JsVal :=
  Js.Obj [("status", Js.Str status)].

End Example.

(** ** The listing statement, as section 4.1 of the specification words it *)

Inductive Filter : Type :=
| ByCategory (v : string)
| MinPrice (v : string)
| MaxPrice (v : string).

Definition filter_value (f : Filter) : JsVal :=
  match f with
  | ByCategory v | MinPrice v | MaxPrice v => Js.Str v
  end.

(** The clause of a filter whose value is bound at position [i]. *)
Definition clause (i : nat) (f : Filter) : string :=
  match f with
  | ByCategory _ => "category_id = $" ++ Js.nat_to_string i
  | MinPrice _ => "price >= $" ++ Js.nat_to_string i
  | MaxPrice _ => "price <= $" ++ Js.nat_to_string i
  end.

Fixpoint clauses (i : nat) (fs : list Filter) : list string :=
  match fs with
  | [] => []
  | f :: fs' => clause i f :: clauses (S i) fs'
  end.

(** No filter means no WHERE clause: every row matches. *)
Definition where_clause (fs : list Filter) : string :=
  match fs with
  | [] => EmptyString
  | _ => " WHERE " ++ String.concat " AND " (clauses 1 fs)
  end.

Definition select_head (fs : list Filter) : string :=
  "SELECT * FROM products" ++ where_clause fs ++ " ORDER BY ".

Definition limit_tail (fs : list Filter) : string :=
  " LIMIT $" ++ Js.nat_to_string (List.length fs + 1)
  ++ " OFFSET $" ++ Js.nat_to_string (List.length fs + 2).

(** "Include a category-equality clause if category_id is present, a
    lower-bound clause if min_price is present, an upper-bound clause if
    max_price is present." *)
Definition supplied (mk : string -> Filter) (v : option string) : list Filter :=
  match v with
  | Some s => [mk s]
  | None => []
  end.

Definition spec_filters (q : Listing.query) : list Filter :=
  (supplied ByCategory (Listing.category_id q)
   ++ supplied MinPrice (Listing.min_price q)
   ++ supplied MaxPrice (Listing.max_price q))%list.

(** "page (default 1), limit (default 10); offset computed as
    (page - 1) * limit", in the arithmetic of Numbers. *)
Definition spec_page (q : Listing.query) : Js.number :=
  match Listing.page q with
  | Some s => Js.StringToNumber s
  | None => Js.of_Z 1
  end.

Definition spec_limit (q : Listing.query) : Js.number :=
  match Listing.limit q with
  | Some s => Js.StringToNumber s
  | None => Js.of_Z 10
  end.

Definition spec_offset (q : Listing.query) : Js.number :=
  Js.mul (Js.sub (spec_page q) (Js.of_Z 1)) (spec_limit q).

Definition spec_text (q : Listing.query) : string :=
  select_head (spec_filters q)
  ++ text_default (Listing.sort_by q) "id" ++ " "
  ++ text_default (Listing.order q) "ASC"
  ++ limit_tail (spec_filters q).

Definition spec_params (q : Listing.query) : list JsVal :=
  (map filter_value (spec_filters q)
   ++ [with_default (Listing.limit q) (Js.Num (Js.of_Z 10));
       Js.Num (spec_offset q)])%list.

(** Well-formed filters: a filter that is given is not the empty string,
    and a price filter is one [validatePrice] accepts.  Nothing is asked
    of [page], [limit], [sort_by] and [order]. *)
Definition filter_ok (v : option string) : bool :=
  match v with
  | Some s => negb (String.eqb s EmptyString)
  | None => true
  end.

Definition price_ok (v : option string) : bool :=
  match v with
  | Some s => negb (String.eqb s EmptyString) && validatePrice s
  | None => true
  end.

Definition well_formed (q : Listing.query) : bool :=
  filter_ok (Listing.category_id q)
  && price_ok (Listing.min_price q)
  && price_ok (Listing.max_price q).

(** The filters the builder acts on: those that are truthy. *)
Definition active (mk : string -> Filter) (v : option string) : list Filter :=
  match v with
  | Some s => if String.eqb s EmptyString then [] else [mk s]
  | None => []
  end.

Definition active_filters (q : Listing.query) : list Filter :=
  (active ByCategory (Listing.category_id q)
   ++ active MinPrice (Listing.min_price q)
   ++ active MaxPrice (Listing.max_price q))%list.

(** The same request with another [sort_by] and [order]. *)
Definition with_ordering (q : Listing.query) (sort_by order : option string)
  : Listing.query :=
  {| Listing.page := Listing.page q;
     Listing.limit := Listing.limit q;
     Listing.category_id := Listing.category_id q;
     Listing.min_price := Listing.min_price q;
     Listing.max_price := Listing.max_price q;
     Listing.sort_by := sort_by;
     Listing.order := order |}.

(** ** Invariant of the tables *)








(** ** Submissions, as section 4.2 of the specification words them *)

(** The mandatory fields of a ProductRequest with what each must satisfy
    and the message reported when it does not. *)
Definition request_rules (ev : Validators) : list ((JsVal -> bool) * string * string) :=
  [(notEmpty ev, "name", "Name is required");
   (notEmpty ev, "description", "Description is required");
   (isFloat_gt_0 ev, "price", "Price must be a positive number");
   (isInt_gt_0 ev, "category_id", "Category ID must be a positive integer");
   (isURL ev, "image_url", "Image URL must be a valid URL");
   (isURL ev, "affiliate_url", "Affiliate URL must be a valid URL");
   (isInt_gt_0 ev, "user_id", "User ID must be a positive integer")].

(** The optional address is absent or a string. *)
Definition address_ok (body : JsVal) : bool :=
  match Js.get "address" body with
  | Js.Undefined => true
  | v => isString v
  end.

Definition valid_submission (ev : Validators) (body : JsVal) : bool :=
  forallb (fun rule => let '(ok, field, _) := rule in ok (Js.get field body))
          (request_rules ev)
  && address_ok body.

(** The row a valid submission creates under identifier [id]. *)
Definition submitted (id : Z) (body : JsVal) : ProductRequest.t :=
  {| ProductRequest.id := id;
     ProductRequest.user_id := prepareValue (Js.get "user_id" body);
     ProductRequest.name := prepareValue (Js.get "name" body);
     ProductRequest.description := prepareValue (Js.get "description" body);
     ProductRequest.price := prepareValue (Js.get "price" body);
     ProductRequest.category_id := prepareValue (Js.get "category_id" body);
     ProductRequest.image_url := prepareValue (Js.get "image_url" body);
     ProductRequest.affiliate_url := prepareValue (Js.get "affiliate_url" body);
     ProductRequest.address := prepareValue (Js.get "address" body);
     ProductRequest.status := Js.Str "pending" |}.

(** ** Substring search, as section 4.1 of the specification words it *)

Fixpoint starts_with (q t : string) : bool :=
  match q with
  | EmptyString => true
  | String a q' =>
      match t with
      | String b t' => Ascii.eqb a b && starts_with q' t'
      | EmptyString => false
      end
  end.

(** [q] occurs in [t] as a substring. *)
Fixpoint includes (q t : string) : bool :=
  starts_with q t
  || match t with
     | EmptyString => false
     | String _ t' => includes q t'
     end.

(** The characters that LIKE does not take literally. *)
Definition is_meta (c : ascii) : bool :=
  Ascii.eqb c "%" || Ascii.eqb c "_" || Ascii.eqb c backslash.

Fixpoint plain (s : string) : bool :=
  match s with
  | EmptyString => true
  | String c s' => negb (is_meta c) && plain s'
  end.

(** The text [t] contains [q] when case is ignored. *)
Definition contains_ci (q t : string) : Prop :=
  exists a m b, t = a ++ m ++ b /\ lower m = lower q.

(** The conditions of the statement built for a list of filters, the
    first of them bound at position [i]. *)
Definition cond_of (i : nat) (f : Filter) : cond :=
  match f with
  | ByCategory _ => CategoryEq i
  | MinPrice _ => PriceGe i
  | MaxPrice _ => PriceLe i
  end.

Fixpoint conds_of (i : nat) (fs : list Filter) : list cond :=
  match fs with
  | [] => []
  | f :: fs' => cond_of i f :: conds_of (S i) fs'
  end.

(** The bound a filter sets, once the store has read its value. *)
Definition bound_of (pg : Pg) (f : Filter) : option bound :=
  match f with
  | ByCategory v => option_map CategoryIs (int_in pg (Js.Str v))
  | MinPrice v => option_map PriceAtLeast (numeric_in pg (Js.Str v))
  | MaxPrice v => option_map PriceAtMost (numeric_in pg (Js.Str v))
  end.

(** The price of a row is at least, or at most, what the string [s]
    denotes, both read by the store as numeric values. *)
Definition price_at_least (pg : Pg) (s : string) (p : Product.t) : Prop :=
  exists lo x, numeric_in pg (Js.Str s) = Some lo
               /\ numeric_in pg (Product.price p) = Some x
               /\ (lo <= x)%Q.

Definition price_at_most (pg : Pg) (s : string) (p : Product.t) : Prop :=
  exists hi x, numeric_in pg (Js.Str s) = Some hi
               /\ numeric_in pg (Product.price p) = Some x
               /\ (x <= hi)%Q.


(** ** What a table and an answer show *)


(** The entry [e] of the errors array reports the field: it names it in
    [path], carries the message in [msg] and the value received in
    [value]. *)
Definition reports (e : JsVal) (field msg : string) (v : JsVal) : Prop :=
  Js.get "path" e = Js.Str field
  /\ Js.get "msg" e = Js.Str msg
  /\ Js.get "value" e = v.

(** What the answer of an INSERT shows of a field that was written: a
    text given as a string comes back as that string; a price or an
    integer comes back as a value that the store reads as the same
    number (the store answers a decimal in digits, whatever the JSON
    value that was bound). *)
Definition text_kept (field : string) (input answer : JsVal) : Prop :=
  forall s, Js.get field input = Js.Str s -> Js.get field answer = Js.Str s.

Definition numeric_kept (pg : Pg) (field : string) (input answer : JsVal) : Prop :=
  Js.get field input <> Js.Undefined ->
  numeric_in pg (Js.get field answer) = numeric_in pg (Js.get field input).

Definition integer_kept (pg : Pg) (field : string) (input answer : JsVal) : Prop :=
  Js.get field input <> Js.Undefined ->
  int_in pg (Js.get field answer) = int_in pg (Js.get field input).

Definition product_fields_kept (pg : Pg) (input answer : JsVal) : Prop :=
  text_kept "name" input answer
  /\ text_kept "description" input answer
  /\ numeric_kept pg "price" input answer
  /\ integer_kept pg "category_id" input answer
  /\ text_kept "image_url" input answer
  /\ text_kept "affiliate_url" input answer
  /\ text_kept "address" input answer
  /\ (Js.get "address" input = Js.Undefined -> Js.get "address" answer = Js.Null).

Definition request_fields_kept (pg : Pg) (input answer : JsVal) : Prop :=
  product_fields_kept pg input answer
  /\ integer_kept pg "user_id" input answer.

(** ** Integers as Numbers *)

(** [k * 2^n] *)
Fixpoint shl (k : positive) (n : nat) : positive :=
  match n with
  | O => k
  | S n' => xO (shl k n')
  end.

(** The number of binary digits of [k]. *)
Definition bits (k : positive) : nat := Pos.to_nat (digits2_pos k).

(** The Number that is the integer [k], for [k] of at most 53 bits. *)
Definition int_float (k : positive) : Js.number :=
  S754_finite false (shl k (53 - bits k)) (Z.of_nat (bits k) - 53).

Definition is_digit (c : ascii) : bool :=
  let n := nat_of_ascii c in ((48 <=? n) && (n <=? 57))%nat.

Fixpoint all_digits (s : string) : bool :=
  match s with
  | EmptyString => true
  | String c s' => is_digit c && all_digits s'
  end.

(** The integer a string of decimal digits denotes, on top of [acc]. *)
Fixpoint decimal_value (acc : Z) (s : string) : Z :=
  match s with
  | EmptyString => acc
  | String c s' => decimal_value (acc * 10 + (Z.of_nat (nat_of_ascii c) - 48)) s'
  end.

(** A count given as a non-empty string of decimal digits, or its default. *)
Definition count_of (v : option string) (default : Z) : option Z :=
  match v with
  | None => Some default
  | Some s =>
      if all_digits s && negb (String.eqb s EmptyString)
      then Some (decimal_value 0 s) else None
  end.

(** ** The remaining routes of server.js *)

(** The statements of the routes that list by category, delete a product
    and list the requests (server.js, lines 84, 163 and 254), and the
    UPDATE of the earlier version of the file (part_000, line 130), which
    sets five columns. *)
Inductive more_statement : Type :=
| SelectByCategory
| DeleteFromProducts
| SelectAllRequests
| UpdateFiveColumns.

Definition sql_by_category : string :=
  "SELECT * FROM products WHERE category_id = $1".
Definition sql_delete_product : string :=
  "DELETE FROM products WHERE id = $1".
Definition sql_select_requests : string :=
  "SELECT * FROM product_requests".
Definition sql_update_five : string :=
  "UPDATE products SET name = $1, description = $2, price = $3, category_id = $4, image_url = $5 WHERE id = $6 RETURNING *".

Definition parse_more (text : string) : option more_statement :=
  if String.eqb text sql_by_category then Some SelectByCategory
  else if String.eqb text sql_delete_product then Some DeleteFromProducts
  else if String.eqb text sql_select_requests then Some SelectAllRequests
  else if String.eqb text sql_update_five then Some UpdateFiveColumns
  else None.

Section MoreRoutes.

Variable pg : Pg.

(** Rows come back in table order when the statement has no ORDER BY. *)
Definition select_by_category (params : list JsVal) (d : Db) : Error + list Product.t :=
  match params with
  | [v] =>
      match int_in pg v with
      | Some n => inr (filter (holds pg (CategoryIs n)) (products d))
      | None => inl "invalid parameter value"
      end
  | _ => inl "wrong number of parameters"
  end.

Definition delete_from_products (params : list JsVal) (d : Db) : Error + Db :=
  match params with
  | [id] =>
      match int_in pg id with
      | Some n =>
          inr {| products := filter (fun p => negb (Product.id p =? n)) (products d);
                 product_requests := product_requests d;
                 products_id_seq := products_id_seq d;
                 product_requests_id_seq := product_requests_id_seq d |}
      | None => inl "invalid parameter value"
      end
  | _ => inl "wrong number of parameters"
  end.

Definition update_five (params : list JsVal) (d : Db) : Error + (list Product.t * Db) :=
  match params with
  | [name; description; price; category_id; image_url; id] =>
      match (if numeric_cell pg price && integer_cell pg category_id
             then int_in pg id else None) with
      | Some n =>
          let set (p : Product.t) :=
            {| Product.id := Product.id p;
               Product.name := name;
               Product.description := description;
               Product.price := price;
               Product.category_id := category_id;
               Product.image_url := image_url;
               Product.affiliate_url := Product.affiliate_url p;
               Product.address := Product.address p |} in
          let hit (p : Product.t) := Product.id p =? n in
          inr (map set (filter hit (products d)),
               {| products := map (fun p => if hit p then set p else p) (products d);
                  product_requests := product_requests d;
                  products_id_seq := products_id_seq d;
                  product_requests_id_seq := product_requests_id_seq d |})
      | None => inl "invalid parameter value"
      end
  | _ => inl "wrong number of parameters"
  end.

Definition exec_more (st : more_statement) (params : list JsVal) (d : Db)
  : Error + (list JsVal * Db) :=
  match st with
  | SelectByCategory =>
      match select_by_category params d with
      | inr rows => inr (map Product.to_json rows, d)
      | inl e => inl e
      end
  | DeleteFromProducts =>
      match delete_from_products params d with
      | inr d' => inr ([], d')
      | inl e => inl e
      end
  | SelectAllRequests =>
      match params with
      | [] => inr (map ProductRequest.to_json (product_requests d), d)
      | _ => inl "wrong number of parameters"
      end
  | UpdateFiveColumns =>
      match update_five params d with
      | inr (rows, d') => inr (map Product.to_json rows, d')
      | inl e => inl e
      end
  end.

(** [await pool.query(text, params)] against the store that also reads
    the statements above; on every other text it is [pool_query]. *)
Definition pool_query_all (text : string) (params : list JsVal) : M (list JsVal) :=
  fun w =>
    match parse text, parse_more text with
    | None, Some st =>
        let w1 := {| db := db w; sent := (sent w ++ [(text, params)])%list |} in
        match exec_more st (map prepareValue params) (db w) with
        | inr (rows, d') => (inr rows, {| db := d'; sent := sent w1 |})
        | inl e => (inl e, w1)
        end
    | _, _ => pool_query pg text params w
    end.

(** [GET /api/products/category/:categoryId] *)
Definition get_products_by_category (categoryId : string) : World -> Response * World :=
  or_next
    (bind (pool_query_all sql_by_category [Js.Str categoryId])
          (fun rows => ret (json (Js.Arr rows)))).

(** [DELETE /api/products/:id] *)
Definition delete_product (id : string) : World -> Response * World :=
  or_next
    (bind (pool_query_all sql_delete_product [Js.Str id])
          (fun _ => ret (json (Js.Obj [("message", Js.Str "Product deleted")])))).

(** [GET /api/product-requests] *)
Definition get_product_requests : World -> Response * World :=
  or_next
    (bind (pool_query_all sql_select_requests [])
          (fun rows => ret (json (Js.Arr rows)))).

End MoreRoutes.

(** The earlier version of the file, where it differs from server.js in
    a way that needs no table declaration: [PUT /api/products/:id]
    (part_000, lines 125-137). *)
Module Part000.

Definition put_product (pg : Pg) (id : string) (body : JsVal)
  : World -> Response * World :=
  or_next
    (if Js.nullish body then throw (Js.cannot_destructure "name" body)
     else
       let name := Js.get "name" body in
       let description := Js.get "description" body in
       let price := Js.get "price" body in
       let category_id := Js.get "category_id" body in
       let image_url := Js.get "image_url" body in
       bind (pool_query_all pg sql_update_five
               [name; description; price; category_id; image_url; Js.Str id])
            (fun rows => ret (json (nth 0 rows Js.Undefined)))).

End Part000.

(** ** Notions for the properties of the remaining code *)

(** The bounds of a list of filters, when the store can read every one. *)
Fixpoint bounds_of (pg : Pg) (fs : list Filter) : option (list bound) :=
  match fs with
  | [] => Some []
  | f :: fs' =>
      match bound_of pg f, bounds_of pg fs' with
      | Some b, Some bs => Some (b :: bs)
      | _, _ => None
      end
  end.

(** The products that satisfy every bound, sorted as the request asks:
    by [sort_by] ([id] by default), descending when [order] is [desc] in
    any letter case. *)
Definition listed (pg : Pg) (q : Listing.query) (bs : list bound) (d : Db)
  : list Product.t :=
  order_rows pg (text_default (Listing.sort_by q) "id")
             (String.eqb (lower (text_default (Listing.order q) "ASC")) "desc")
             (filter (fun p => forallb (fun b => holds pg b p) bs) (products d)).

(** The limit as the handler binds it: the string received, or 10. *)
Definition limit_value (q : Listing.query) : JsVal :=
  with_default (Listing.limit q) (Js.Num (Js.of_Z 10)).

(** The same request for another page. *)
Definition with_page (q : Listing.query) (page : option string) : Listing.query :=
  {| Listing.page := page;
     Listing.limit := Listing.limit q;
     Listing.category_id := Listing.category_id q;
     Listing.min_price := Listing.min_price q;
     Listing.max_price := Listing.max_price q;
     Listing.sort_by := Listing.sort_by q;
     Listing.order := Listing.order q |}.

(** A filter given as the empty string, taken as not given. *)
Definition drop_empty (v : option string) : option string :=
  match v with
  | Some s => if String.eqb s EmptyString then None else Some s
  | None => None
  end.

(** The request with its empty filters dropped and the defaults of
    [sort_by] and [order] written out. *)
Definition normalize (q : Listing.query) : Listing.query :=
  {| Listing.page := Listing.page q;
     Listing.limit := Listing.limit q;
     Listing.category_id := drop_empty (Listing.category_id q);
     Listing.min_price := drop_empty (Listing.min_price q);
     Listing.max_price := drop_empty (Listing.max_price q);
     Listing.sort_by := Some (text_default (Listing.sort_by q) "id");
     Listing.order := Some (text_default (Listing.order q) "ASC") |}.

(** The row [PUT /api/products/:id] leaves in place of [p]: the six
    values of the body, [undefined] as NULL, under the identifier and the
    affiliate URL of [p]. *)
Definition updated (change : JsVal) (p : Product.t) : Product.t :=
  {| Product.id := Product.id p;
     Product.name := prepareValue (Js.get "name" change);
     Product.description := prepareValue (Js.get "description" change);
     Product.price := prepareValue (Js.get "price" change);
     Product.category_id := prepareValue (Js.get "category_id" change);
     Product.image_url := prepareValue (Js.get "image_url" change);
     Product.affiliate_url := Product.affiliate_url p;
     Product.address := prepareValue (Js.get "address" change) |}.

(** The store takes the price and the category of a body: each is
    absent, NULL, or read at the type of its column. *)
Definition takes_body (pg : Pg) (input : JsVal) : bool :=
  numeric_cell pg (prepareValue (Js.get "price" input))
  && integer_cell pg (prepareValue (Js.get "category_id" input)).

(** The store takes the price, the category and the user of a
    submission. *)
Definition takes_submission (pg : Pg) (input : JsVal) : bool :=
  takes_body pg input && integer_cell pg (prepareValue (Js.get "user_id" input)).


(** The tables with another products table. *)
Definition with_products (d : Db) (ps : list Product.t) : Db :=
  {| products := ps;
     product_requests := product_requests d;
     products_id_seq := products_id_seq d;
     product_requests_id_seq := product_requests_id_seq d |}.

(** ** Creation of a product, worded as the submission is *)




(** ** Malformed prices, as section 8 of the specification words them *)

Module Numeral.

(** A number in decimal notation: a minus sign or none, digits before
    and after a point, and a power of ten or none. *)
Record t : Type := {
  minus : bool;
  whole : string;
  fraction : string;
  power : option (bool * string) }.








End Numeral.




(** No backslash, the escape character of LIKE, occurs in [s]. *)
Fixpoint no_escape (s : string) : bool :=
  match s with
  | EmptyString => true
  | String c s' => negb (Ascii.eqb c backslash) && no_escape s'
  end.

(** Consecutive rows are in the order [le]. *)
Fixpoint ordered (le : Product.t -> Product.t -> bool) (l : list Product.t) : bool :=
  match l with
  | a :: (b :: _) as rest => le a b && ordered le rest
  | _ => true
  end.

(** The order a listing asks for: by [sort_by], reversed when [order] is
    [desc] in any letter case. *)
Definition asked_order (pg : Pg) (q : Listing.query) (a b : Product.t) : bool :=
  let col := text_default (Listing.sort_by q) "id" in
  if String.eqb (lower (text_default (Listing.order q) "ASC")) "desc"
  then row_le pg col b a else row_le pg col a b.

(** The row of the earlier [PUT /api/products/:id] in place of [p]. *)
Definition updated_five (change : JsVal) (p : Product.t) : Product.t :=
  {| Product.id := Product.id p;
     Product.name := prepareValue (Js.get "name" change);
     Product.description := prepareValue (Js.get "description" change);
     Product.price := prepareValue (Js.get "price" change);
     Product.category_id := prepareValue (Js.get "category_id" change);
     Product.image_url := prepareValue (Js.get "image_url" change);
     Product.affiliate_url := Product.affiliate_url p;
     Product.address := Product.address p |}.

(** ** Properties of the query builder *)

Section StringFacts.

Lemma append_assoc (a b c : string) : (a ++ b) ++ c = a ++ (b ++ c).
Proof.
  induction a as [|x a IH]; simpl; [reflexivity | now rewrite IH].
Qed.

Lemma length_append (a b : string) :
  String.length (a ++ b) = (String.length a + String.length b)%nat.
Proof.
  induction a as [|x a IH]; simpl; [reflexivity | now rewrite IH].
Qed.

Lemma append_inv_head (a b c : string) : a ++ b = a ++ c -> b = c.
Proof.
  induction a as [|x a IH]; simpl; intros H; [exact H|].
  injection H as H. auto.
Qed.

Lemma append_inv_tail (a b c : string) : a ++ c = b ++ c -> a = b.
Proof.
  revert b.
  induction a as [|x a IH]; intros [|y b] H; simpl in H.
  - reflexivity.
  - apply (f_equal String.length) in H. simpl in H.
    rewrite length_append in H. lia.
  - apply (f_equal String.length) in H. simpl in H.
    rewrite length_append in H. lia.
  - injection H as Hx H. subst y. f_equal. auto.
Qed.

End StringFacts.

Arguments validatePrice : simpl never.

(** The builder, case by case on which filters are truthy. *)
Lemma build_listing_eq (q : Listing.query) :
  build_listing q =
  (select_head (active_filters q)
   ++ text_default (Listing.sort_by q) "id" ++ " "
   ++ text_default (Listing.order q) "ASC"
   ++ limit_tail (active_filters q),
   (map filter_value (active_filters q)
    ++ [with_default (Listing.limit q) (Js.Num (Js.of_Z 10));
        Js.Num (offset_of q)])%list).
Proof.
  destruct q as [pg lim cat mn mx sb od].
  destruct cat as [[|c0 c]|], mn as [[|m0 m]|], mx as [[|x0 x]|]; reflexivity.
Qed.

Lemma offset_of_spec (q : Listing.query) : offset_of q = spec_offset q.
Proof.
  unfold offset_of, spec_offset, spec_page, spec_limit, with_default.
  destruct (Listing.page q), (Listing.limit q); reflexivity.
Qed.

Lemma active_filters_well_formed (q : Listing.query) :
  well_formed q = true -> active_filters q = spec_filters q.
Proof.
  unfold well_formed, active_filters, spec_filters.
  destruct q as [pg lim cat mn mx sb od]; simpl.
  intros H. apply andb_true_iff in H. destruct H as [H Hx].
  apply andb_true_iff in H. destruct H as [Hc Hm].
  destruct cat as [[|c0 c]|], mn as [[|m0 m]|], mx as [[|x0 x]|];
    simpl in *; try discriminate; reflexivity.
Qed.

Lemma well_formed_not_rejected (q : Listing.query) :
  well_formed q = true ->
  rejected_price (Listing.min_price q) = false
  /\ rejected_price (Listing.max_price q) = false.
Proof.
  unfold well_formed, price_ok, rejected_price.
  intros H. apply andb_true_iff in H. destruct H as [H Hx].
  apply andb_true_iff in H. destruct H as [_ Hm].
  split.
  - destruct (Listing.min_price q) as [s|]; [|reflexivity].
    apply andb_true_iff in Hm. destruct Hm as [-> ->]. reflexivity.
  - destruct (Listing.max_price q) as [s|]; [|reflexivity].
    apply andb_true_iff in Hx. destruct Hx as [-> ->]. reflexivity.
Qed.

(** ** Arithmetic of Numbers on integers *)

Section Integers.

Lemma digits2_size (k : positive) : digits2_pos k = Pos.size k.
Proof. induction k; simpl; congruence. Qed.

Lemma bits_pos (k : positive) : (1 <= bits k)%nat.
Proof. unfold bits. lia. Qed.

Lemma shl_add (k : positive) (a b : nat) : shl (shl k a) b = shl k (a + b).
Proof.
  induction b as [|b IH]; simpl.
  - now rewrite Nat.add_0_r.
  - rewrite IH. now rewrite Nat.add_succ_r.
Qed.

Lemma bits_shl (k : positive) (n : nat) : bits (shl k n) = (bits k + n)%nat.
Proof.
  unfold bits. induction n as [|n IH]; simpl; [lia|].
  rewrite Pos2Nat.inj_succ, IH. lia.
Qed.

Lemma Zpos_shl (k : positive) (n : nat) : Zpos (shl k n) = Zpos k * 2 ^ Z.of_nat n.
Proof.
  induction n as [|n IH]; [simpl; lia|].
  cbn [shl]. rewrite Pos2Z.inj_xO, IH, Nat2Z.inj_succ, Z.pow_succ_r by lia. ring.
Qed.

Lemma iter_pos_nat {A : Type} (f : A -> A) (p : positive) (x : A) :
  iter_pos f p x = Nat.iter (Pos.to_nat p) f x.
Proof.
  revert x. induction p as [p IH|p IH|]; intros x; cbn [iter_pos].
  - rewrite !IH, Pos2Nat.inj_xI.
    replace (S (2 * Pos.to_nat p)) with (Pos.to_nat p + Pos.to_nat p + 1)%nat by lia.
    rewrite !Nat.iter_add. reflexivity.
  - rewrite !IH, Pos2Nat.inj_xO.
    replace (2 * Pos.to_nat p)%nat with (Pos.to_nat p + Pos.to_nat p)%nat by lia.
    rewrite Nat.iter_add. reflexivity.
  - reflexivity.
Qed.

Lemma pos_iter_shl (k d : positive) : Pos.iter xO k d = shl k (Pos.to_nat d).
Proof.
  induction d as [|d IH] using Pos.peano_ind.
  - reflexivity.
  - rewrite Pos.iter_succ, IH, Pos2Nat.inj_succ. reflexivity.
Qed.

Lemma shr_exact (k : positive) (n : nat) :
  Nat.iter n shr_1 (Build_shr_record (Zpos (shl k n)) false false)
  = Build_shr_record (Zpos k) false false.
Proof.
  induction n as [|n IH]; [reflexivity|].
  rewrite Nat.iter_succ_r. cbn [shl shr_1 orb]. exact IH.
Qed.

Lemma fexp_bits (k : positive) :
  fexp Js.prec Js.emax (Z.of_nat (bits k)) = Z.of_nat (bits k) - 53.
Proof.
  unfold fexp, emin, Js.prec, Js.emax. pose proof (bits_pos k). lia.
Qed.

(** Rounding a mantissa that carries an integer of at most 53 bits. *)
Lemma round_aux_exact (k : positive) (n : nat) :
  (bits k <= 53)%nat -> (53 <= bits k + n)%nat ->
  binary_round_aux Js.prec Js.emax false (Zpos (shl k n)) (- Z.of_nat n) loc_Exact
  = int_float k.
Proof.
  intros Hk Hn. unfold binary_round_aux, shr_fexp.
  cbn [Zdigits2 shr_record_of_loc].
  replace (Zpos (digits2_pos (shl k n)) + - Z.of_nat n) with (Z.of_nat (bits k))
    by (pose proof (bits_shl k n) as H; unfold bits in *; lia).
  rewrite fexp_bits.
  replace (shl k n) with (shl (shl k (53 - bits k)) (bits k + n - 53))
    by (rewrite shl_add; f_equal; lia).
  set (m1 := shl k (53 - bits k)).
  assert (Hm1 : bits m1 = 53%nat) by (unfold m1; rewrite bits_shl; lia).
  assert (Hshr : shr (Build_shr_record (Zpos (shl m1 (bits k + n - 53))) false false)
                     (- Z.of_nat n) (Z.of_nat (bits k) - 53 - - Z.of_nat n)
                 = (Build_shr_record (Zpos m1) false false, Z.of_nat (bits k) - 53)).
  { unfold shr.
    destruct (Z.of_nat (bits k) - 53 - - Z.of_nat n) as [|p|p] eqn:E.
    - replace (bits k + n - 53)%nat with 0%nat by lia. cbn [shl]. f_equal. lia.
    - rewrite iter_pos_nat.
      replace (Pos.to_nat p) with (bits k + n - 53)%nat by lia.
      rewrite shr_exact. f_equal. lia.
    - lia. }
  rewrite Hshr. cbn [shr_m loc_of_shr_record round_nearest_even Zdigits2].
  replace (Zpos (digits2_pos m1) + (Z.of_nat (bits k) - 53)) with (Z.of_nat (bits k))
    by (unfold bits in Hm1; lia).
  rewrite fexp_bits, Z.sub_diag. cbn [shr shr_record_of_loc shr_m].
  unfold int_float, m1.
  destruct (Z.of_nat (bits k) - 53 <=? Js.emax - Js.prec) eqn:E; [reflexivity|].
  apply Z.leb_gt in E. unfold Js.emax, Js.prec in E. lia.
Qed.

Lemma of_Z_pos (k : positive) : (bits k <= 53)%nat -> Js.of_Z (Zpos k) = int_float k.
Proof.
  intros Hk. unfold Js.of_Z, binary_normalize, binary_round, shl_align.
  replace (Zpos (digits2_pos k) + 0) with (Z.of_nat (bits k)) by (unfold bits; lia).
  rewrite fexp_bits.
  destruct (Z.of_nat (bits k) - 53 - 0) as [|p|p] eqn:E.
  - replace 0 with (- Z.of_nat 0) at 1 by reflexivity.
    change k with (shl k 0) at 1. apply round_aux_exact; lia.
  - lia.
  - rewrite pos_iter_shl.
    replace (Z.of_nat (bits k) - 53) with (- Z.of_nat (Pos.to_nat p)) by lia.
    rewrite round_aux_exact by lia. reflexivity.
Qed.

Lemma size_pow_le (k : positive) : 2 ^ Zpos (Pos.size k) <= 2 * Zpos k.
Proof.
  pose proof (Pos.size_le k) as Hs.
  apply Pos2Z.pos_le_pos in Hs. rewrite Pos2Z.inj_pow, Pos2Z.inj_xO in Hs. exact Hs.
Qed.

Lemma bits_le (k : positive) (n : nat) :
  Zpos k < 2 ^ Z.of_nat n -> (bits k <= n)%nat.
Proof.
  intros H. unfold bits. rewrite digits2_size.
  pose proof (size_pow_le k) as Hz.
  assert (Hlt : 2 ^ Zpos (Pos.size k) < 2 ^ (Z.of_nat n + 1)).
  { rewrite Z.pow_add_r by lia. lia. }
  apply Z.pow_lt_mono_r_iff in Hlt; lia.
Qed.

Lemma bits_ge (k : positive) : 2 ^ (Z.of_nat (bits k) - 1) <= Zpos k.
Proof.
  unfold bits. rewrite digits2_size, positive_nat_Z.
  pose proof (size_pow_le k) as Hz.
  replace (Zpos (Pos.size k)) with (Zpos (Pos.size k) - 1 + 1) in Hz by lia.
  rewrite Z.pow_add_r in Hz by lia. lia.
Qed.

Lemma bits_lt (k : positive) : Zpos k < 2 ^ Z.of_nat (bits k).
Proof.
  unfold bits. rewrite digits2_size, positive_nat_Z.
  pose proof (Pos.size_gt k) as Hs.
  rewrite <- Pos2Z.inj_pow. apply Pos2Z.pos_lt_pos. exact Hs.
Qed.

Lemma shl_mul (a b : positive) (n m : nat) :
  (shl a n * shl b m)%positive = shl (a * b) (n + m).
Proof.
  apply Pos2Z.inj. rewrite Pos2Z.inj_mul, !Zpos_shl, Pos2Z.inj_mul, Nat2Z.inj_add.
  rewrite Z.pow_add_r by lia. ring.
Qed.

Lemma mul_int_float (a b : positive) :
  Zpos a * Zpos b < 2 ^ 53 ->
  Js.mul (int_float a) (int_float b) = int_float (a * b).
Proof.
  intros H.
  assert (Hab : (bits (a * b) <= 53)%nat) by (apply bits_le; rewrite Pos2Z.inj_mul; exact H).
  assert (Ha : (bits a <= 53)%nat) by (apply bits_le; change (Z.of_nat 53) with 53; nia).
  assert (Hb : (bits b <= 53)%nat) by (apply bits_le; change (Z.of_nat 53) with 53; nia).
  assert (Hlow : (bits a + bits b <= bits (a * b) + 1)%nat).
  { pose proof (bits_ge a) as Ga. pose proof (bits_ge b) as Gb.
    pose proof (bits_lt (a * b)) as Gab. rewrite Pos2Z.inj_mul in Gab.
    pose proof (bits_pos a). pose proof (bits_pos b).
    assert (Hp : 2 ^ (Z.of_nat (bits a) - 1 + (Z.of_nat (bits b) - 1))
                 < 2 ^ Z.of_nat (bits (a * b))).
    { rewrite Z.pow_add_r by lia.
      apply Z.le_lt_trans with (Zpos a * Zpos b); [|exact Gab].
      apply Z.mul_le_mono_nonneg; lia. }
    apply Z.pow_lt_mono_r_iff in Hp; lia. }
  unfold Js.mul, int_float. cbn [SFmul xorb].
  rewrite shl_mul.
  replace (Z.of_nat (bits a) - 53 + (Z.of_nat (bits b) - 53))
    with (- Z.of_nat (53 - bits a + (53 - bits b))) by lia.
  apply round_aux_exact; lia.
Qed.

Lemma sub_one_int_float (p : positive) :
  (1 < p)%positive -> Zpos p < 2 ^ 53 ->
  Js.sub (int_float p) (int_float 1) = int_float (p - 1).
Proof.
  intros Hp Hlt.
  assert (Hb : (bits p <= 53)%nat) by (apply bits_le; exact Hlt).
  assert (Hb1 : (bits (p - 1) <= 53)%nat).
  { apply bits_le. rewrite Pos2Z.inj_sub by exact Hp. change (Z.of_nat 53) with 53. lia. }
  pose proof (bits_pos p) as Hp1. pose proof (bits_pos (p - 1)) as Hq1.
  unfold Js.sub, int_float at 1 2. cbn [SFsub].
  change (bits 1) with 1%nat. change (Z.of_nat 1 - 53) with (-52).
  replace (Z.min (Z.of_nat (bits p) - 53) (-52)) with (-52) by lia.
  cbn [cond_Zopp].
  assert (Hx : fst (shl_align (shl p (53 - bits p)) (Z.of_nat (bits p) - 53) (-52))
               = shl p 52).
  { unfold shl_align.
    destruct (-52 - (Z.of_nat (bits p) - 53)) as [|d|d] eqn:E.
    - cbn [fst]. f_equal. lia.
    - lia.
    - cbn [fst]. rewrite pos_iter_shl, shl_add. f_equal. lia. }
  assert (Hy : fst (shl_align (shl 1 (53 - 1)) (-52) (-52)) = shl 1 52) by reflexivity.
  rewrite Hx, Hy.
  replace (Zpos (shl p 52) - Zpos (shl 1 52)) with (Zpos (shl (p - 1) 52))
    by (rewrite !Zpos_shl, Pos2Z.inj_sub by exact Hp; ring).
  unfold binary_normalize, binary_round, shl_align.
  replace (Zpos (digits2_pos (shl (p - 1) 52)) + -52) with (Z.of_nat (bits (p - 1)))
    by (pose proof (bits_shl (p - 1) 52) as H; unfold bits in *; lia).
  rewrite fexp_bits.
  destruct (Z.of_nat (bits (p - 1)) - 53 - -52) as [|d|d] eqn:E; try lia.
  - change (-52) with (- Z.of_nat 52). apply round_aux_exact; lia.
  - change (-52) with (- Z.of_nat 52). apply round_aux_exact; lia.
Qed.

(** On integers below 2^53 the arithmetic of Numbers is exact. *)
Lemma mul_of_Z (a b : Z) :
  0 <= a < 2 ^ 53 -> 0 <= b < 2 ^ 53 -> a * b < 2 ^ 53 ->
  Js.mul (Js.of_Z a) (Js.of_Z b) = Js.of_Z (a * b).
Proof.
  intros Ha Hb H.
  destruct a as [|a|a]; [| |lia]; destruct b as [|b|b]; try lia.
  - reflexivity.
  - rewrite (of_Z_pos b) by (apply bits_le; change (Z.of_nat 53) with 53; lia).
    reflexivity.
  - rewrite (of_Z_pos a) by (apply bits_le; change (Z.of_nat 53) with 53; lia).
    reflexivity.
  - assert (Hka : (bits a <= 53)%nat) by (apply bits_le; change (Z.of_nat 53) with 53; nia).
    assert (Hkb : (bits b <= 53)%nat) by (apply bits_le; change (Z.of_nat 53) with 53; nia).
    assert (Hkab : (bits (a * b) <= 53)%nat)
      by (apply bits_le; rewrite Pos2Z.inj_mul; exact H).
    change (Zpos a * Zpos b) with (Zpos (a * b)).
    rewrite !of_Z_pos by assumption. now apply mul_int_float.
Qed.

Lemma sub_one_of_Z (p : Z) :
  1 <= p -> p < 2 ^ 53 -> Js.sub (Js.of_Z p) (Js.of_Z 1) = Js.of_Z (p - 1).
Proof.
  intros H1 H.
  destruct p as [|p|p]; try lia.
  destruct (Pos.eq_dec p 1) as [->|Hne]; [reflexivity|].
  assert (Hp : (1 < p)%positive) by lia.
  assert (Hk : (bits p <= 53)%nat) by (apply bits_le; exact H).
  assert (Hk1 : (bits (p - 1) <= 53)%nat).
  { apply bits_le. rewrite Pos2Z.inj_sub by exact Hp. change (Z.of_nat 53) with 53. lia. }
  replace (Zpos p - 1) with (Zpos (p - 1)) by (rewrite Pos2Z.inj_sub by exact Hp; lia).
  rewrite !of_Z_pos by (assumption || (change (bits 1) with 1%nat; lia)).
  now apply sub_one_int_float.
Qed.

Lemma digit_cases (c : ascii) :
  is_digit c = true ->
  In c ["0"; "1"; "2"; "3"; "4"; "5"; "6"; "7"; "8"; "9"]%char.
Proof.
  destruct c as [[] [] [] [] [] [] [] []]; intros H; try discriminate H;
    simpl; auto 11.
Qed.

Ltac each_digit c H :=
  apply digit_cases in H;
  repeat (destruct H as [<-|H]; [|]); try contradiction.

Lemma digit_of_digit (c : ascii) :
  is_digit c = true -> Js.digit_of 10 c = Some (Z.of_nat (nat_of_ascii c) - 48).
Proof. intros H. each_digit c H; reflexivity. Qed.

Lemma digits_all (s : string) :
  all_digits s = true ->
  forall acc n, Js.digits 10 s acc n
                = (decimal_value acc s, n + Z.of_nat (String.length s), EmptyString).
Proof.
  induction s as [|c s IH]; intros H acc n.
  - simpl. now rewrite Z.add_0_r.
  - cbn [all_digits] in H. apply andb_true_iff in H. destruct H as [Hc Hs].
    cbn [Js.digits decimal_value String.length]. rewrite (digit_of_digit c Hc), (IH Hs).
    f_equal. f_equal. lia.
Qed.

Lemma decimal_value_nonneg (s : string) :
  all_digits s = true -> forall acc, 0 <= acc -> 0 <= decimal_value acc s.
Proof.
  induction s as [|c s IH]; intros H acc Hacc; [exact Hacc|].
  cbn [all_digits] in H. apply andb_true_iff in H. destruct H as [Hc Hs].
  cbn [decimal_value]. apply (IH Hs).
  unfold is_digit in Hc. apply andb_true_iff in Hc. destruct Hc as [Hc _].
  apply Nat.leb_le in Hc. lia.
Qed.

Lemma trim_start_digits (s : string) : all_digits s = true -> Js.trim_start s = s.
Proof.
  destruct s as [|c s]; [reflexivity|]. cbn [all_digits]. intros H.
  apply andb_true_iff in H. destruct H as [Hc _]. each_digit c Hc; reflexivity.
Qed.

Lemma trim_end_digits (s : string) : all_digits s = true -> Js.trim_end s = s.
Proof.
  induction s as [|c s IH]; [reflexivity|]. cbn [all_digits]. intros H.
  apply andb_true_iff in H. destruct H as [Hc Hs].
  cbn [Js.trim_end]. rewrite (IH Hs).
  destruct s; [|reflexivity]. each_digit c Hc; reflexivity.
Qed.

Lemma radix_literal_digits (s : string) :
  all_digits s = true -> Js.radix_literal s = None.
Proof.
  destruct s as [|c [|d s]]; [reflexivity| |].
  - cbn [all_digits]. intros H. apply andb_true_iff in H. destruct H as [Hc _].
    each_digit c Hc; reflexivity.
  - cbn [all_digits]. intros H.
    apply andb_true_iff in H. destruct H as [Hc H].
    apply andb_true_iff in H. destruct H as [Hd _].
    each_digit c Hc; try reflexivity. each_digit d Hd; reflexivity.
Qed.

Lemma scan_decimal_digits (c : ascii) (s : string) :
  all_digits (String c s) = true ->
  Js.scan_decimal (String c s)
  = Some (Js.of_Z (decimal_value 0 (String c s)), EmptyString).
Proof.
  intros H. pose proof (digits_all _ H 0 0) as Hd.
  pose proof (decimal_value_nonneg _ H 0 (Z.le_refl 0)) as Hv.
  assert (Hscan : Js.scan_decimal (String c s)
                  = let '(i, ni, s2) := Js.digits 10 (String c s) 0 0 in
                    let '(m, nf, s3) :=
                      match s2 with
                      | String "." t =>
                          let '(m, nf, s3) := Js.digits 10 t i 0 in
                          if (ni =? 0) && (nf =? 0) then (i, 0, s2) else (m, nf, s3)
                      | _ => (i, 0, s2)
                      end in
                    if (ni =? 0) && (nf =? 0) then None
                    else let '(e, s4) := Js.exponent_part s3 in
                         Some (Js.decimal false m (e - nf), s4)).
  { cbn [all_digits] in H. apply andb_true_iff in H. destruct H as [Hc _].
    each_digit c Hc; reflexivity. }
  rewrite Hscan, Hd.
  cbn [String.length]. 
  replace (0 + Z.of_nat (S (String.length s)) =? 0) with false
    by (symmetry; apply Z.eqb_neq; lia).
  cbn [andb Js.exponent_part]. f_equal. f_equal.
  unfold Js.decimal. change (0 - 0) with 0.
  destruct (decimal_value 0 (String c s)) as [|p|p]; [reflexivity| |lia].
  change (10 ^ 0) with 1. now rewrite Z.mul_1_r.
Qed.

(** ToNumber of a non-empty string of decimal digits. *)
Lemma StringToNumber_digits (s : string) :
  all_digits s = true -> s <> EmptyString ->
  Js.StringToNumber s = Js.of_Z (decimal_value 0 s).
Proof.
  intros H Hne. unfold Js.StringToNumber.
  rewrite (trim_start_digits s H), (trim_end_digits s H), (radix_literal_digits s H).
  destruct s as [|c s]; [congruence|].
  now rewrite (scan_decimal_digits c s H).
Qed.

Lemma count_of_number (v : option string) (default n : Z) :
  count_of v default = Some n ->
  match v with
  | Some s => Js.StringToNumber s
  | None => Js.of_Z default
  end = Js.of_Z n.
Proof.
  unfold count_of. destruct v as [s|]; [|now intros [= ->]].
  destruct (all_digits s) eqn:Hd; [|discriminate].
  destruct (String.eqb s EmptyString) eqn:He; [discriminate|].
  intros [= <-]. apply String.eqb_neq in He. now apply StringToNumber_digits.
Qed.

(** For [page] and [limit] given in decimal digits (or left to their
    defaults), with [page] at least 1 and everything below 2^53, the
    offset is the integer [(page - 1) * limit]. *)
Lemma offset_exact (q : Listing.query) (p l : Z) :
  count_of (Listing.page q) 1 = Some p ->
  count_of (Listing.limit q) 10 = Some l ->
  1 <= p < 2 ^ 53 -> l < 2 ^ 53 -> (p - 1) * l < 2 ^ 53 ->
  spec_offset q = Js.of_Z ((p - 1) * l).
Proof.
  intros Hp Hl Hpr Hlr Hpl.
  unfold spec_offset, spec_page, spec_limit.
  rewrite (count_of_number _ _ _ Hp), (count_of_number _ _ _ Hl).
  assert (0 <= l).
  { unfold count_of in Hl. destruct (Listing.limit q) as [s|]; [|injection Hl as <-; lia].
    destruct (all_digits s) eqn:Hd; [|discriminate].
    destruct (negb _); [|discriminate]. injection Hl as <-.
    now apply decimal_value_nonneg. }
  rewrite sub_one_of_Z by lia. apply mul_of_Z; lia.
Qed.

End Integers.

Section Properties.

Variable pg : Pg.
Variable ev : Validators.

Lemma pool_query_sent (text : string) (params : list JsVal) (w : World) :
  sent (snd (pool_query pg text params w)) = (sent w ++ [(text, params)])%list.
Proof.
  unfold pool_query.
  destruct (parse text) as [st|]; [|reflexivity].
  destruct (exec pg st (map prepareValue params) (db w)) as [e|[rows d']];
    reflexivity.
Qed.

(** What [GET /api/products] hands to the store once the two price checks
    are passed. *)
Lemma get_products_sent (q : Listing.query) (w : World) :
  rejected_price (Listing.min_price q) = false ->
  rejected_price (Listing.max_price q) = false ->
  sent (snd (get_products pg q w)) = (sent w ++ [build_listing q])%list.
Proof.
  intros Hmin Hmax. unfold get_products. rewrite Hmin, Hmax.
  destruct (build_listing q) as [text params].
  unfold or_next, bind, ret.
  pose proof (pool_query_sent text params w) as Hs.
  destruct (pool_query pg text params w) as [[e|rows] w']; exact Hs.
Qed.

Lemma get_products_code (q : Listing.query) (w : World) :
  rejected_price (Listing.min_price q) = false ->
  rejected_price (Listing.max_price q) = false ->
  code (fst (get_products pg q w)) = 200 \/ code (fst (get_products pg q w)) = 500.
Proof.
  intros Hmin Hmax. unfold get_products. rewrite Hmin, Hmax.
  destruct (build_listing q) as [text params].
  unfold or_next, bind, ret.
  destruct (pool_query pg text params w) as [[e|rows] w']; simpl; auto.
Qed.

(** C3.  For a listing request with well-formed filters, the handler sends
    the store exactly one statement: the SELECT whose WHERE clause joins
    with AND the clauses of the filters that are given, in the order
    category, lower price bound, upper price bound (no WHERE clause when
    none is given), followed by ORDER BY, LIMIT and OFFSET; its parameters
    are the filter values in that order, then the limit as received
    (10 by default), then the offset [(page - 1) * limit] with [page]
    1 by default.  The offset is computed on Numbers; when [page] and
    [limit] are given in decimal digits, [page] is at least 1 and the
    values stay below 2^53, it is the integer [(page - 1) * limit]. *)
Theorem listing_statement (q : Listing.query) (w : World) :
  well_formed q = true ->
  sent (snd (get_products pg q w)) = (sent w ++ [(spec_text q, spec_params q)])%list
  /\ (forall p l,
        count_of (Listing.page q) 1 = Some p ->
        count_of (Listing.limit q) 10 = Some l ->
        1 <= p < 2 ^ 53 -> l < 2 ^ 53 -> (p - 1) * l < 2 ^ 53 ->
        spec_offset q = Js.of_Z ((p - 1) * l)).
Proof.
  intros Hwf. split; [|apply offset_exact].
  destruct (well_formed_not_rejected q Hwf) as [Hmin Hmax].
  rewrite (get_products_sent q w Hmin Hmax), build_listing_eq.
  rewrite (active_filters_well_formed q Hwf), offset_of_spec.
  reflexivity.
Qed.

(** C6.  Whatever strings the caller gives as [sort_by] and [order], they
    appear verbatim in the command text, between a head and a tail that
    do not depend on them, and they are not among the bound parameters;
    no value is refused or replaced: once the price checks are passed
    that text is what the store receives, and two requests that differ
    only in [sort_by], or only in [order], yield different command
    texts. *)
Theorem ordering_interpolated (q : Listing.query) (sort_by order : string) :
  let q' := with_ordering q (Some sort_by) (Some order) in
  fst (build_listing q')
  = select_head (active_filters q) ++ sort_by ++ " " ++ order
    ++ limit_tail (active_filters q)
  /\ snd (build_listing q') = snd (build_listing q)
  /\ (forall w,
        rejected_price (Listing.min_price q) = false ->
        rejected_price (Listing.max_price q) = false ->
        sent (snd (get_products pg q' w)) = (sent w ++ [build_listing q'])%list)
  /\ (forall sort_by', sort_by' <> sort_by ->
        fst (build_listing (with_ordering q (Some sort_by') (Some order)))
        <> fst (build_listing q'))
  /\ (forall order', order' <> order ->
        fst (build_listing (with_ordering q (Some sort_by) (Some order')))
        <> fst (build_listing q')).
Proof.
  intros q'. subst q'.
  assert (Hf : forall s o, active_filters (with_ordering q s o) = active_filters q)
    by reflexivity.
  assert (Ho : forall s o, offset_of (with_ordering q s o) = offset_of q)
    by reflexivity.
  repeat split.
  - rewrite build_listing_eq, Hf. reflexivity.
  - rewrite !build_listing_eq, Hf, Ho. reflexivity.
  - intros w Hmin Hmax. now apply get_products_sent.
  - intros s' Hne H. rewrite !build_listing_eq, !Hf in H.
    cbn [fst text_default Listing.sort_by Listing.order with_ordering] in H.
    apply append_inv_head in H. apply append_inv_tail in H. contradiction.
  - intros o' Hne H. rewrite !build_listing_eq, !Hf in H.
    cbn [fst text_default Listing.sort_by Listing.order with_ordering] in H.
    apply append_inv_head, append_inv_head in H.
    change (" " ++ o' ++ limit_tail (active_filters q))
      with (String " " (o' ++ limit_tail (active_filters q))) in H.
    change (" " ++ order ++ limit_tail (active_filters q))
      with (String " " (order ++ limit_tail (active_filters q))) in H.
    injection H as H.
    apply append_inv_tail in H. contradiction.
Qed.

(** C10.  The listing answers 400 exactly when one of the two price
    checks fails; [page], [limit], [category_id], [sort_by] and [order]
    play no part in that.  When both checks pass, the statement goes to
    the store with, as its last two parameters, the limit as received and
    the offset [(page - 1) * limit], whatever they are: the offset is NaN
    for [page=abc] and negative for [page=0]. *)
Theorem listing_rejects_prices_only (q : Listing.query) (w : World) :
  (code (fst (get_products pg q w)) =? 400)
  = (rejected_price (Listing.min_price q) || rejected_price (Listing.max_price q))
  /\ (rejected_price (Listing.min_price q) = false ->
      rejected_price (Listing.max_price q) = false ->
      sent (snd (get_products pg q w))
      = (sent w
         ++ [(fst (build_listing q),
              map filter_value (active_filters q)
              ++ [with_default (Listing.limit q) (Js.Num (Js.of_Z 10));
                  Js.Num (spec_offset q)])])%list)
  /\ spec_offset (Listing.Build_query (Some "abc") None None None None None None) = Js.NaN
  /\ Js.lt (spec_offset (Listing.Build_query (Some "0") (Some "5") None None None None None))
           (Js.of_Z 0) = true.
Proof.
  split; [|split; [|split; reflexivity]].
  - destruct (rejected_price (Listing.min_price q)) eqn:Hmin;
      [unfold get_products; rewrite Hmin; reflexivity|].
    destruct (rejected_price (Listing.max_price q)) eqn:Hmax;
      [unfold get_products; rewrite Hmin, Hmax; reflexivity|].
    destruct (get_products_code q w Hmin Hmax) as [-> | ->]; reflexivity.
  - intros Hmin Hmax.
    rewrite (get_products_sent q w Hmin Hmax), build_listing_eq, offset_of_spec.
    reflexivity.
Qed.

End Properties.

(** ** Properties of the moderation workflow *)

Section Moderation.

Variable pg : Pg.
Variable ev : Validators.

Lemma parse_select_request : parse sql_select_request = Some SelectRequest.
Proof. vm_compute. reflexivity. Qed.



Lemma parse_insert_request : parse sql_insert_request = Some InsertRequest.
Proof. vm_compute. reflexivity. Qed.

Lemma parse_update_product : parse sql_update_product = Some UpdateProduct.
Proof. vm_compute. reflexivity. Qed.

Lemma strict_eq_str_true (v : JsVal) (s : string) :
  Js.strict_eq_str v s = true <-> v = Js.Str s.
Proof.
  destruct v; simpl; try (split; [discriminate | intros H; discriminate H]).
  rewrite String.eqb_eq. split; [now intros -> | now intros [= ->]].
Qed.

Lemma strict_eq_str_false (v : JsVal) (s : string) :
  Js.strict_eq_str v s = false <-> v <> Js.Str s.
Proof.
  rewrite <- strict_eq_str_true. destruct (Js.strict_eq_str v s); intuition congruence.
Qed.





Lemma lookup_none (n : Z) (rs : list ProductRequest.t) :
  (forall r, In r rs -> ProductRequest.id r <> n) ->
  filter (fun x => ProductRequest.id x =? n) rs = [].
Proof.
  induction rs as [|x rs IH]; simpl; [reflexivity|]. intros H.
  destruct (ProductRequest.id x =? n) eqn:E.
  - apply Z.eqb_eq in E. exfalso. apply (H x); auto.
  - apply IH. intros r Hr. apply H. now right.
Qed.

(** The three statements of the Decide handler, one step each. *)
Lemma pool_query_select_request (id : string) (n : Z) (w : World) :
  int_in pg (Js.Str id) = Some n ->
  pool_query pg sql_select_request [Js.Str id] w
  = (inr (map ProductRequest.to_json
            (filter (fun r => ProductRequest.id r =? n) (product_requests (db w)))),
     {| db := db w;
        sent := (sent w ++ [(sql_select_request, [Js.Str id])])%list |}).
Proof.
  intros H. unfold pool_query. rewrite parse_select_request.
  cbn [exec select_request map prepareValue]. rewrite H. reflexivity.
Qed.









(** A decision on an identifier that no request has. *)
Lemma put_product_request_absent (id : string) (n : Z) (decision : JsVal) (w : World) :
  Js.get "status" decision = Js.Str "approved"
  \/ Js.get "status" decision = Js.Str "rejected" ->
  int_in pg (Js.Str id) = Some n ->
  (forall r, In r (product_requests (db w)) -> ProductRequest.id r <> n) ->
  fst (put_product_request pg id decision w)
  = status_json 404 (Js.Obj [("error", Js.Str "Product request not found")])
  /\ db (snd (put_product_request pg id decision w)) = db w
  /\ sent (snd (put_product_request pg id decision w))
     = (sent w ++ [(sql_select_request, [Js.Str id])])%list.
Proof.
  intros Hs Hid Hnone.
  assert (Hobj : Js.nullish decision = false)
    by (destruct Hs as [H|H]; destruct decision; try reflexivity; discriminate H).
  assert (Hvalid : negb (Js.strict_eq_str (Js.get "status" decision) "approved")
                   && negb (Js.strict_eq_str (Js.get "status" decision) "rejected")
                   = false)
    by (destruct Hs as [-> | ->]; reflexivity).
  unfold put_product_request. rewrite Hobj, Hvalid. unfold or_next, bind, ret.
  rewrite (pool_query_select_request id n w Hid), (lookup_none _ _ Hnone).
  cbn. auto.
Qed.



(** C2, as the code has it.  With a body, a status other than the
    strings [approved] and [rejected] answers 400 and leaves the world as
    it was: nothing is sent to the store.  With one of the two and an
    identifier that the store reads as an integer under which no request
    is stored, the answer is 404, only the lookup is sent, and the tables
    are unchanged: no product is inserted and no status is updated.
    Without a body the destructuring throws, and with one of the two
    statuses and an identifier that the store cannot read the lookup
    raises: both are answered 500 by the error middleware, and no table
    changes. *)
Theorem decide_refused (id : string) (decision : JsVal) (w : World) :
  (Js.nullish decision = false ->
   Js.get "status" decision <> Js.Str "approved" ->
   Js.get "status" decision <> Js.Str "rejected" ->
   put_product_request pg id decision w
   = (status_json 400
        (Js.Obj [("error",
                  Js.Str ("Invalid status. Status must be " ++ quoted "approved"
                          ++ " or " ++ quoted "rejected" ++ "."))]), w))
  /\ (forall n,
        Js.get "status" decision = Js.Str "approved"
        \/ Js.get "status" decision = Js.Str "rejected" ->
        int_in pg (Js.Str id) = Some n ->
        (forall r, In r (product_requests (db w)) -> ProductRequest.id r <> n) ->
        fst (put_product_request pg id decision w)
        = status_json 404 (Js.Obj [("error", Js.Str "Product request not found")])
        /\ db (snd (put_product_request pg id decision w)) = db w
        /\ sent (snd (put_product_request pg id decision w))
           = (sent w ++ [(sql_select_request, [Js.Str id])])%list)
  /\ (Js.nullish decision = true ->
      code (fst (put_product_request pg id decision w)) = 500
      /\ Js.get "error" (body (fst (put_product_request pg id decision w)))
         = Js.Str "Internal server error"
      /\ snd (put_product_request pg id decision w) = w)
  /\ (Js.get "status" decision = Js.Str "approved"
      \/ Js.get "status" decision = Js.Str "rejected" ->
      int_in pg (Js.Str id) = None ->
      code (fst (put_product_request pg id decision w)) = 500
      /\ Js.get "error" (body (fst (put_product_request pg id decision w)))
         = Js.Str "Internal server error"
      /\ db (snd (put_product_request pg id decision w)) = db w
      /\ sent (snd (put_product_request pg id decision w))
         = (sent w ++ [(sql_select_request, [Js.Str id])])%list).
Proof.
  assert (Hobj : Js.get "status" decision = Js.Str "approved"
                 \/ Js.get "status" decision = Js.Str "rejected" ->
                 Js.nullish decision = false)
    by (intros [H|H]; destruct decision; try reflexivity; discriminate H).
  assert (Hvalid : Js.get "status" decision = Js.Str "approved"
                   \/ Js.get "status" decision = Js.Str "rejected" ->
                   negb (Js.strict_eq_str (Js.get "status" decision) "approved")
                   && negb (Js.strict_eq_str (Js.get "status" decision) "rejected") = false)
    by (intros [-> | ->]; reflexivity).
  split; [|split; [|split]].
  - intros Hbody Ha Hr. unfold put_product_request.
    apply strict_eq_str_false in Ha, Hr. rewrite Hbody, Ha, Hr. reflexivity.
  - intros n Hs Hid Hnone. now apply (put_product_request_absent id n).
  - intros Hbody. unfold put_product_request. rewrite Hbody.
    repeat split.
  - intros Hs Hid. unfold put_product_request.
    rewrite (Hobj Hs), (Hvalid Hs). unfold or_next, bind, ret, pool_query.
    rewrite parse_select_request.
    cbn [exec select_request map prepareValue]. rewrite Hid. repeat split.
Qed.

Lemma pool_query_insert_request (a b c d e f g h : JsVal) (w : World) :
  numeric_cell pg (prepareValue d) && integer_cell pg (prepareValue e) = true ->
  pool_query pg sql_insert_request [a; b; c; d; e; f; g; h] w
  = (let row :=
       ProductRequest.Build_t (product_requests_id_seq (db w))
         (prepareValue a) (prepareValue b) (prepareValue c) (prepareValue d)
         (prepareValue e) (prepareValue f) (prepareValue g) (prepareValue h)
         default_status in
     (inr [ProductRequest.to_json row],
      {| db := {| products := products (db w);
                  product_requests := (product_requests (db w) ++ [row])%list;
                  products_id_seq := products_id_seq (db w);
                  product_requests_id_seq := product_requests_id_seq (db w) + 1 |};
         sent := (sent w ++ [(sql_insert_request, [a; b; c; d; e; f; g; h])])%list |})).
Proof.
  intros H. unfold pool_query. rewrite parse_insert_request.
  cbn [exec insert_request map]. rewrite H. reflexivity.
Qed.

Lemma pool_query_insert_request_refused (a b c d e f g h : JsVal) (w : World) :
  numeric_cell pg (prepareValue d) && integer_cell pg (prepareValue e) = false ->
  pool_query pg sql_insert_request [a; b; c; d; e; f; g; h] w
  = (inl "invalid parameter value",
     {| db := db w;
        sent := (sent w ++ [(sql_insert_request, [a; b; c; d; e; f; g; h])])%list |}).
Proof.
  intros H. unfold pool_query. rewrite parse_insert_request.
  cbn [exec insert_request map]. rewrite H. reflexivity.
Qed.

Lemma request_errors_rules (body : JsVal) :
  request_errors ev body
  = (flat_map (fun rule => let '(ok, field, msg) := rule in check ok field msg body)
              (request_rules ev)
     ++ check_optional isString "address" "Address must be a string" body)%list.
Proof.
  unfold request_errors, request_rules. cbn [flat_map].
  rewrite app_nil_r, <- !app_assoc. reflexivity.
Qed.

Lemma check_optional_address (body : JsVal) :
  check_optional isString "address" "Address must be a string" body
  = if address_ok body then []
    else [field_error "address" "Address must be a string" (Js.get "address" body)].
Proof.
  unfold check_optional, check, address_ok.
  destruct (Js.get "address" body); reflexivity.
Qed.

Lemma request_errors_nil (body : JsVal) :
  valid_submission ev body = true <-> request_errors ev body = [].
Proof.
  rewrite request_errors_rules, check_optional_address. unfold valid_submission.
  rewrite andb_true_iff, forallb_forall. split.
  - intros [Hrules Haddr]. rewrite Haddr, app_nil_r.
    induction (request_rules ev) as [|[[ok f] m] rules IH]; [reflexivity|].
    cbn [flat_map]. unfold check at 1.
    rewrite (Hrules (ok, f, m)) by now left.
    apply IH. intros x Hx. apply Hrules. now right.
  - intros H. apply app_eq_nil in H. destruct H as [Hrules Haddr]. split.
    + intros [[ok f] m] Hin.
      destruct (ok (Js.get f body)) eqn:E; [reflexivity|].
      exfalso.
      assert (Hmem : In (field_error f m (Js.get f body))
                        (flat_map (fun rule => let '(ok, field, msg) := rule in
                                               check ok field msg body)
                                  (request_rules ev))).
      { apply in_flat_map. exists (ok, f, m). split; [exact Hin|].
        unfold check. rewrite E. now left. }
      rewrite Hrules in Hmem. contradiction.
    + destruct (address_ok body); [reflexivity | discriminate].
Qed.

Lemma request_errors_reported (input e : JsVal) :
  In e (request_errors ev input) <->
  (exists ok field msg,
     In (ok, field, msg) (request_rules ev) /\ ok (Js.get field input) = false
     /\ e = field_error field msg (Js.get field input))
  \/ (address_ok input = false
      /\ e = field_error "address" "Address must be a string" (Js.get "address" input)).
Proof.
  rewrite request_errors_rules, check_optional_address, in_app_iff, in_flat_map.
  split.
  - intros [([[ok f] m] & Hin & He)|He].
    + left. unfold check in He.
      destruct (ok (Js.get f input)) eqn:E; [contradiction|].
      destruct He as [<-|[]]. now exists ok, f, m.
    + right. destruct (address_ok input); [contradiction|].
      destruct He as [<-|[]]. split; reflexivity.
  - intros [(ok & f & m & Hin & Hfail & ->)|[Haddr ->]].
    + left. exists (ok, f, m). split; [exact Hin|].
      unfold check. rewrite Hfail. now left.
    + right. rewrite Haddr. now left.
Qed.

Lemma field_error_reports (field msg : string) (v : JsVal) :
  reports (field_error field msg v) field msg v.
Proof. repeat split. Qed.

(** A submission that passes the checks and can be destructured. *)
Lemma post_product_requests_run (input : JsVal) (w : World) :
  valid_submission ev input = true ->
  Js.nullish input = false ->
  takes_body pg input = true ->
  post_product_requests pg ev input w
  = (json (ProductRequest.to_json (submitted (product_requests_id_seq (db w)) input)),
     {| db := {| products := products (db w);
                 product_requests :=
                   (product_requests (db w)
                    ++ [submitted (product_requests_id_seq (db w)) input])%list;
                 products_id_seq := products_id_seq (db w);
                 product_requests_id_seq := product_requests_id_seq (db w) + 1 |};
        sent := (sent w ++ [(sql_insert_request,
                             [Js.get "user_id" input; Js.get "name" input;
                              Js.get "description" input; Js.get "price" input;
                              Js.get "category_id" input; Js.get "image_url" input;
                              Js.get "affiliate_url" input;
                              Js.get "address" input])])%list |}).
Proof.
  intros Hgood Hbody Htakes. apply request_errors_nil in Hgood.
  unfold post_product_requests. rewrite Hgood, Hbody.
  cbn [List.length Nat.eqb negb]. unfold or_server_error, bind, ret.
  rewrite pool_query_insert_request by exact Htakes. reflexivity.
Qed.

(** A submission that passes the checks and that the store refuses: the
    INSERT fails, and the handler answers 500 from its [catch]. *)
Lemma post_product_requests_refused (input : JsVal) (w : World) :
  valid_submission ev input = true ->
  Js.nullish input = false ->
  takes_body pg input = false ->
  post_product_requests pg ev input w
  = (status_json 500 (Js.Obj [("error", Js.Str "Server error");
                              ("details", Js.Str "invalid parameter value")]),
     {| db := db w;
        sent := (sent w ++ [(sql_insert_request,
                             [Js.get "user_id" input; Js.get "name" input;
                              Js.get "description" input; Js.get "price" input;
                              Js.get "category_id" input; Js.get "image_url" input;
                              Js.get "affiliate_url" input;
                              Js.get "address" input])])%list |}).
Proof.
  intros Hgood Hbody Htakes. apply request_errors_nil in Hgood.
  unfold post_product_requests. rewrite Hgood, Hbody.
  cbn [List.length Nat.eqb negb]. unfold or_server_error, bind, ret.
  rewrite pool_query_insert_request_refused by exact Htakes. reflexivity.
Qed.

(** A submission that passes the checks and cannot be destructured:
    the handler throws inside its [try]. *)
Lemma post_product_requests_thrown (input : JsVal) (w : World) :
  valid_submission ev input = true ->
  Js.nullish input = true ->
  post_product_requests pg ev input w
  = (status_json 500 (Js.Obj [("error", Js.Str "Server error");
                              ("details", Js.Str (Js.cannot_destructure "name" input))]),
     w).
Proof.
  intros Hgood Hbody. apply request_errors_nil in Hgood.
  unfold post_product_requests. rewrite Hgood, Hbody. reflexivity.
Qed.

Lemma prepareValue_defined (v : JsVal) : v <> Js.Undefined -> prepareValue v = v.
Proof. destruct v; intros H; [now destruct H | reflexivity ..]. Qed.

(** What the answer of an INSERT shows of the values that were bound. *)
Lemma submitted_fields_kept (next : Z) (input : JsVal) :
  request_fields_kept pg input (ProductRequest.to_json (submitted next input)).
Proof.
  unfold request_fields_kept, product_fields_kept, text_kept, numeric_kept,
    integer_kept.
  cbn [ProductRequest.to_json submitted Js.get Js.lookup String.eqb Ascii.eqb
       Bool.eqb ProductRequest.user_id ProductRequest.name
       ProductRequest.description ProductRequest.price ProductRequest.category_id
       ProductRequest.image_url ProductRequest.affiliate_url ProductRequest.address].
  repeat split; try (intros s ->; reflexivity); try (intros ->; reflexivity);
    intros H; now rewrite (prepareValue_defined _ H).
Qed.

(** What a body that passes the checks has: under a [notEmpty] that fails
    on a missing field, as the one of express-validator does, it is there
    to be destructured. *)
Lemma checked_body_defined (input : JsVal) :
  notEmpty ev Js.Undefined = false ->
  forallb (fun rule : (JsVal -> bool) * string * string =>
             let '(ok, field, _) := rule in ok (Js.get field input))
          [(notEmpty ev, "name", "Name is required")] = true ->
  Js.nullish input = false.
Proof.
  intros Hempty Hname. cbn [forallb] in Hname.
  destruct input; try reflexivity; cbn [Js.get] in Hname;
    rewrite Hempty in Hname; discriminate.
Qed.

(** C8, as the code has it.  A submission in which some mandatory field
    fails its check, or whose address is given and is not a string, is
    answered 400 with a non-empty list of errors and leaves the world as
    it was: nothing is inserted.  The list has one entry for each
    failing field, and no other; the entry names the field in [path]
    and carries that field's message in [msg] and the value received in
    [value].  A submission in which every check passes, and whose
    price, category and user the store can take, is inserted under the
    next identifier with status [pending], next to the requests that
    were there, and the answer is the stored row: it shows that
    identifier in [id], [pending] in [status], and in each field what
    was submitted, as the store gives it back.  A submission in which
    every check passes and whose price or category the store cannot
    take is answered 500, and nothing is stored.  So is one that passes
    the checks without a body, which no [notEmpty] that fails on a
    missing field lets happen. *)
Theorem submit_product_request (input : JsVal) (w : World) :
  (valid_submission ev input = false ->
   exists errors,
     errors <> []
     /\ post_product_requests pg ev input w
        = (status_json 400 (Js.Obj [("errors", Js.Arr errors)]), w)
     /\ (forall ok field msg,
           In (ok, field, msg) (request_rules ev) ->
           ok (Js.get field input) = false ->
           exists e, In e errors /\ reports e field msg (Js.get field input))
     /\ (forall e, In e errors ->
           exists field msg,
             reports e field msg (Js.get field input)
             /\ ((exists ok, In (ok, field, msg) (request_rules ev)
                             /\ ok (Js.get field input) = false)
                 \/ (field = "address" /\ address_ok input = false))))
  /\ (valid_submission ev input = true ->
      Js.nullish input = false ->
      takes_submission pg input = true ->
      let next := product_requests_id_seq (db w) in
      let res := post_product_requests pg ev input w in
      code (fst res) = 200
      /\ Js.get "id" (body (fst res)) = Js.Num (Js.of_Z next)
      /\ Js.get "status" (body (fst res)) = Js.Str "pending"
      /\ request_fields_kept pg input (body (fst res))
      /\ (exists row,
            Permutation (product_requests (db (snd res)))
                        (row :: product_requests (db w))
            /\ ProductRequest.id row = next
            /\ ProductRequest.status row = Js.Str "pending"
            /\ body (fst res) = ProductRequest.to_json row)
      /\ products (db (snd res)) = products (db w)
      /\ map fst (sent (snd res))
         = (map fst (sent w) ++ [sql_insert_request])%list)
  /\ (valid_submission ev input = true ->
      Js.nullish input = false ->
      takes_body pg input = false ->
      let res := post_product_requests pg ev input w in
      code (fst res) = 500
      /\ Js.get "error" (body (fst res)) = Js.Str "Server error"
      /\ db (snd res) = db w
      /\ map fst (sent (snd res))
         = (map fst (sent w) ++ [sql_insert_request])%list)
  /\ (valid_submission ev input = true ->
      Js.nullish input = true ->
      code (fst (post_product_requests pg ev input w)) = 500
      /\ snd (post_product_requests pg ev input w) = w)
  /\ (notEmpty ev Js.Undefined = false ->
      valid_submission ev input = true ->
      Js.nullish input = false).
Proof.
  split; [|split; [|split; [|split]]].
  - intros Hbad. exists (request_errors ev input).
    assert (Hne : request_errors ev input <> []).
    { intros H. apply request_errors_nil in H. congruence. }
    split; [exact Hne|]. split; [|split].
    + unfold post_product_requests.
      destruct (request_errors ev input); [congruence | reflexivity].
    + intros ok f m Hin Hfail. exists (field_error f m (Js.get f input)).
      split; [|apply field_error_reports].
      apply request_errors_reported. left. now exists ok, f, m.
    + intros e He. apply request_errors_reported in He.
      destruct He as [(ok & f & m & Hin & Hfail & ->)|[Haddr ->]].
      * exists f, m. split; [apply field_error_reports|]. left. now exists ok.
      * exists "address", "Address must be a string".
        split; [apply field_error_reports|]. right. now split.
  - intros Hgood Hbody Htakes next res. subst next res.
    unfold takes_submission in Htakes. apply andb_true_iff in Htakes.
    destruct Htakes as [Htakes _].
    rewrite (post_product_requests_run input w Hgood Hbody Htakes).
    cbn [fst snd db sent products product_requests code body json].
    split; [reflexivity|]. split; [reflexivity|]. split; [reflexivity|].
    split; [apply submitted_fields_kept|].
    split.
    { eexists. split; [apply Permutation_sym, Permutation_cons_append|].
      repeat split. }
    split; [reflexivity|]. rewrite map_app. reflexivity.
  - intros Hgood Hbody Htakes res. subst res.
    rewrite (post_product_requests_refused input w Hgood Hbody Htakes).
    cbn [fst snd db sent code body status_json].
    split; [reflexivity|]. split; [reflexivity|]. split; [reflexivity|].
    rewrite map_app. reflexivity.
  - intros Hgood Hbody. rewrite (post_product_requests_thrown input w Hgood Hbody).
    split; reflexivity.
  - intros Hempty Hgood. apply (checked_body_defined input Hempty).
    unfold valid_submission, request_rules in Hgood. cbn [forallb] in *.
    rewrite !andb_true_iff in *. tauto.
Qed.

End Moderation.

(** ** The invariant is kept *)

Section Invariant.

Variable pg : Pg.
Variable ev : Validators.


















End Invariant.

(** ** Update of a product *)

Section Update.

Variable pg : Pg.

(** [PUT /api/products/:id], case by case: without a body the
    destructuring throws; a price or a category that the store cannot
    take, or an identifier that it cannot read, makes the statement fail;
    otherwise the rows with that identifier get the six values of the
    body, [undefined] as NULL, and keep their affiliate URL, and the
    answer is the first of them, or nothing. *)
Lemma put_product_run (id : string) (change : JsVal) (w : World) :
  put_product pg id change w
  = if Js.nullish change then
      (status_json 500 (Js.Obj [("error", Js.Str "Internal server error");
                                ("details",
                                 Js.Str (Js.cannot_destructure "name" change))]),
       w)
    else
      let sent' :=
        (sent w ++ [(sql_update_product,
                     [Js.get "name" change; Js.get "description" change;
                      Js.get "price" change; Js.get "category_id" change;
                      Js.get "image_url" change; Js.get "address" change;
                      Js.Str id])])%list in
      match (if takes_body pg change then int_in pg (Js.Str id) else None) with
      | Some n =>
          let hit (p : Product.t) := Product.id p =? n in
          (json (nth 0 (map Product.to_json
                          (map (updated change) (filter hit (products (db w)))))
                     Js.Undefined),
           {| db := with_products (db w)
                      (map (fun p => if hit p then updated change p else p)
                           (products (db w)));
              sent := sent' |})
      | None =>
          (status_json 500 (Js.Obj [("error", Js.Str "Internal server error");
                                    ("details", Js.Str "invalid parameter value")]),
           {| db := db w; sent := sent' |})
      end.
Proof.
  unfold put_product. destruct (Js.nullish change); [reflexivity|].
  unfold or_next, bind, ret, pool_query.
  rewrite parse_update_product.
  cbn [map prepareValue exec update_product]. unfold takes_body.
  destruct (if numeric_cell pg (prepareValue (Js.get "price" change))
               && integer_cell pg (prepareValue (Js.get "category_id" change))
            then int_in pg (Js.Str id) else None); reflexivity.
Qed.

Lemma put_product_affiliate_url (id : string) (change : JsVal) (w : World) :
  map Product.affiliate_url (products (db (snd (put_product pg id change w))))
  = map Product.affiliate_url (products (db w)).
Proof.
  rewrite put_product_run.
  destruct (Js.nullish change); [reflexivity|].
  destruct (if takes_body pg change then int_in pg (Js.Str id) else None) as [n|];
    [|reflexivity].
  cbn [snd db with_products products]. rewrite map_map.
  apply map_ext. intros p. now destruct (Product.id p =? n).
Qed.

Lemma put_product_taken (id : string) (n : Z) (change : JsVal) (w : World) :
  Js.nullish change = false ->
  (if takes_body pg change then int_in pg (Js.Str id) else None) = Some n ->
  let hit (p : Product.t) := Product.id p =? n in
  fst (put_product pg id change w)
  = json (nth 0 (map Product.to_json
                   (map (updated change) (filter hit (products (db w)))))
              Js.Undefined)
  /\ db (snd (put_product pg id change w))
     = with_products (db w)
         (map (fun p => if hit p then updated change p else p) (products (db w))).
Proof.
  intros Hb Ht. rewrite put_product_run, Hb. cbv zeta. rewrite Ht.
  split; reflexivity.
Qed.

Lemma put_product_refused (id : string) (change : JsVal) (w : World) :
  Js.nullish change = true
  \/ (if takes_body pg change then int_in pg (Js.Str id) else None) = None ->
  code (fst (put_product pg id change w)) = 500
  /\ Js.get "error" (body (fst (put_product pg id change w)))
     = Js.Str "Internal server error"
  /\ db (snd (put_product pg id change w)) = db w.
Proof.
  intros H. rewrite put_product_run.
  destruct (Js.nullish change); [repeat split|].
  destruct H as [H|H]; [discriminate|]. cbv zeta. rewrite H. repeat split.
Qed.

Lemma with_products_same (d : Db) : with_products d (products d) = d.
Proof. destruct d; reflexivity. Qed.

Lemma filter_none {A : Type} (f : A -> bool) (l : list A) :
  (forall x, In x l -> f x = false) -> filter f l = [].
Proof.
  induction l as [|x l IH]; intros H; [reflexivity|]. cbn [filter].
  rewrite (H x) by now left. apply IH. intros y Hy. apply H. now right.
Qed.

Lemma map_if_none {A : Type} (hit : A -> bool) (f : A -> A) (l : list A) :
  (forall x, In x l -> hit x = false) ->
  map (fun x => if hit x then f x else x) l = l.
Proof.
  induction l as [|x l IH]; intros H; [reflexivity|]. cbn [map].
  rewrite (H x) by now left. f_equal. apply IH. intros y Hy. apply H. now right.
Qed.

(** An update under an identifier that no row has, when the store takes
    it: no row is answered and no table changes. *)
Lemma put_product_missing (id : string) (n : Z) (change : JsVal) (w : World) :
  Js.nullish change = false ->
  takes_body pg change = true ->
  int_in pg (Js.Str id) = Some n ->
  (forall p, In p (products (db w)) -> Product.id p <> n) ->
  fst (put_product pg id change w) = json Js.Undefined
  /\ db (snd (put_product pg id change w)) = db w.
Proof.
  intros Hb Ht Hid Hnone.
  assert (Hsome : (if takes_body pg change then int_in pg (Js.Str id) else None)
                  = Some n) by now rewrite Ht.
  destruct (put_product_taken id n change w Hb Hsome) as [Hres Hdb].
  assert (Hhit : forall p, In p (products (db w)) -> (Product.id p =? n) = false)
    by (intros p Hp; apply Z.eqb_neq; auto).
  rewrite Hres, Hdb, (filter_none _ _ Hhit), (map_if_none _ _ _ Hhit), with_products_same.
  split; reflexivity.
Qed.

End Update.

(** C9, on the code.  [PUT /api/products/2] with a body that gives a new
    name, price and affiliate URL, against the sample catalogue: the name
    and the price of product 2 are replaced, the fields the body leaves
    out become NULL, and the affiliate URL keeps its old value, in the
    answer as in the table. *)
Theorem update_keeps_affiliate_url :
  let change := Js.Obj [("name", Js.Str "Apple butter, large");
                      ("price", Js.Str "9.75");
                      ("affiliate_url", Js.Str "https://shop.example/new")] in
  let res := put_product Example.pg "2" change Example.catalogue in
  code (fst res) = 200
  /\ Js.get "name" (body (fst res)) = Js.Str "Apple butter, large"
  /\ Js.get "price" (body (fst res)) = Js.Str "9.75"
  /\ Js.get "description" (body (fst res)) = Js.Null
  /\ Js.get "affiliate_url" (body (fst res)) = Js.Str "https://shop.example/a"
  /\ map Product.affiliate_url (products (db (snd res)))
     = map Product.affiliate_url (products (db Example.catalogue)).
Proof. vm_compute. repeat split. Qed.

(** ** Properties of the search *)

Section Search.

Variable pg : Pg.

Lemma parse_search : parse sql_search = Some SearchProducts.
Proof. vm_compute. reflexivity. Qed.

Lemma lower_append (a b : string) : lower (a ++ b) = lower a ++ lower b.
Proof.
  induction a as [|x a IH]; simpl; [reflexivity | now rewrite IH].
Qed.

Lemma lower_ascii_plain (c : ascii) : is_meta c = false -> is_meta (lower_ascii c) = false.
Proof.
  intros H. unfold lower_ascii.
  destruct ((65 <=? nat_of_ascii c) && (nat_of_ascii c <=? 90))%nat eqn:E; [|exact H].
  apply andb_true_iff in E. destruct E as [E1 E2].
  apply Nat.leb_le in E1, E2.
  assert (Hc : exists k, (k <= 25)%nat /\ nat_of_ascii c = (65 + k)%nat)
    by (exists (nat_of_ascii c - 65)%nat; lia).
  destruct Hc as (k & Hk & ->).
  do 26 (destruct k as [|k]; [reflexivity|]). lia.
Qed.

Lemma lower_plain (s : string) : plain s = true -> plain (lower s) = true.
Proof.
  induction s as [|c s IH]; simpl; [reflexivity|]. intros H.
  apply andb_true_iff in H. destruct H as [Hc Hs].
  apply negb_true_iff in Hc.
  rewrite (lower_ascii_plain c Hc). simpl. auto.
Qed.

Lemma like_percent (p t : string) :
  like (String "%" p) t
  = like p t || match t with
                | EmptyString => false
                | String _ t' => like (String "%" p) t'
                end.
Proof. destruct t; reflexivity. Qed.

Lemma like_any (t : string) : like "%" t = true.
Proof.
  induction t as [|c t IH]; [reflexivity|].
  rewrite like_percent. rewrite IH. apply orb_true_r.
Qed.

Lemma like_literal (c : ascii) (p t : string) :
  is_meta c = false ->
  like (String c p) t
  = match t with
    | String x t' => Ascii.eqb c x && like p t'
    | EmptyString => false
    end.
Proof.
  unfold is_meta. intros H.
  apply orb_false_iff in H. destruct H as [H H3].
  apply orb_false_iff in H. destruct H as [H1 H2].
  cbn [like]. rewrite H1, H2, H3. reflexivity.
Qed.

Lemma like_plain_prefix (q t : string) :
  plain q = true -> like (q ++ "%") t = starts_with q t.
Proof.
  revert t. induction q as [|c q IH]; intros t H.
  - apply like_any.
  - simpl in H. apply andb_true_iff in H. destruct H as [Hc Hq].
    apply negb_true_iff in Hc.
    change (String c q ++ "%") with (String c (q ++ "%")).
    rewrite (like_literal c _ t Hc).
    destruct t as [|x t]; [reflexivity|]. simpl. now rewrite IH.
Qed.

(** Between two [%], a pattern without [%], [_] and backslash matches the
    texts that include it. *)
Lemma like_includes (q t : string) :
  plain q = true -> like ("%" ++ q ++ "%") t = includes q t.
Proof.
  intros H. change ("%" ++ q ++ "%") with (String "%" (q ++ "%")).
  induction t as [|c t IH]; rewrite like_percent, like_plain_prefix by exact H.
  - reflexivity.
  - cbn [includes]. now rewrite IH.
Qed.

Lemma starts_with_spec (q t : string) :
  starts_with q t = true <-> exists b, t = q ++ b.
Proof.
  revert t. induction q as [|a q IH]; intros t; simpl.
  - split; [intros _; now exists t | reflexivity].
  - destruct t as [|c t].
    + split; [discriminate | intros [b Hb]; discriminate].
    + rewrite andb_true_iff, IH, Ascii.eqb_eq. split.
      * intros [-> [b ->]]. now exists b.
      * intros [b [= -> ->]]. split; [reflexivity | now exists b].
Qed.

Lemma includes_spec (q t : string) :
  includes q t = true <-> exists a b, t = a ++ q ++ b.
Proof.
  induction t as [|c t IH]; cbn [includes]; rewrite orb_true_iff, starts_with_spec.
  - split.
    + intros [[b Hb] | H]; [|discriminate]. now exists EmptyString, b.
    + intros (a & b & H). left. destruct a; [now exists b | discriminate].
  - rewrite IH. split.
    + intros [[b Hb] | (a & b & ->)].
      * now exists EmptyString, b.
      * now exists (String c a), b.
    + intros (a & b & H). destruct a as [|x a].
      * left. now exists b.
      * right. injection H as _ ->. now exists a, b.
Qed.

Lemma lower_split (t x y : string) :
  lower t = x ++ y -> exists t1 t2, t = t1 ++ t2 /\ lower t1 = x /\ lower t2 = y.
Proof.
  revert t. induction x as [|c x IH]; intros t H.
  - now exists EmptyString, t.
  - destruct t as [|d t]; [discriminate|]. simpl in H. injection H as Hc H.
    destruct (IH t H) as (t1 & t2 & -> & H1 & H2).
    exists (String d t1), t2. simpl. now rewrite Hc, H1.
Qed.

(** [includes] on the lowered strings is containment with case ignored. *)
Lemma includes_lower (q t : string) :
  includes (lower q) (lower t) = true <-> contains_ci q t.
Proof.
  rewrite includes_spec. unfold contains_ci. split.
  - intros (a' & b' & H).
    destruct (lower_split _ _ _ H) as (a & r & -> & _ & Hr).
    destruct (lower_split _ _ _ Hr) as (m & b & -> & Hm & _).
    now exists a, m, b.
  - intros (a & m & b & -> & Hm).
    exists (lower a), (lower b). now rewrite !lower_append, Hm.
Qed.

Lemma ilike_includes (s t : string) :
  plain s = true -> ilike ("%" ++ s ++ "%") t = includes (lower s) (lower t).
Proof.
  intros H. unfold ilike. rewrite !lower_append.
  change (lower "%") with "%".
  apply like_includes, lower_plain, H.
Qed.

Lemma matches_includes (s : string) (cell : JsVal) :
  plain s = true ->
  matches pg ("%" ++ s ++ "%") cell
  = match as_text pg cell with
    | Some t => includes (lower s) (lower t)
    | None => false
    end.
Proof.
  intros H. unfold matches.
  destruct (as_text pg cell) as [t|]; [now apply ilike_includes | reflexivity].
Qed.

(** C7, as the code has it.  Without a query string, or with the empty
    one, the search answers 400 and nothing is sent to the store.  With a
    query string that has no [%], no [_] and no backslash, it answers
    with the products whose name or description, read as text, contains
    the query string when case is ignored, in table order, and with no
    other product. *)
Theorem search_by_substring (query : option string) (w : World) :
  (present query = false ->
   get_products_search pg query w
   = (status_json 400 (Js.Obj [("error", Js.Str "Search query is required")]), w))
  /\ (forall s,
        query = Some s -> s <> EmptyString -> plain s = true ->
        exists ps,
          fst (get_products_search pg query w) = json (Js.Arr (map Product.to_json ps))
          /\ ps = filter (fun p => matches pg ("%" ++ s ++ "%") (Product.name p)
                                   || matches pg ("%" ++ s ++ "%") (Product.description p))
                         (products (db w))
          /\ (forall p,
                In p ps <->
                In p (products (db w))
                /\ ((exists t, as_text pg (Product.name p) = Some t /\ contains_ci s t)
                    \/ (exists t, as_text pg (Product.description p) = Some t
                                  /\ contains_ci s t)))).
Proof.
  split.
  - intros H. unfold get_products_search. rewrite H. reflexivity.
  - intros s -> Hne Hplain.
    eexists. split; [|split; [reflexivity|]].
    + unfold get_products_search, present.
      apply String.eqb_neq in Hne. rewrite Hne. cbn [negb text_default].
      unfold or_next, bind, ret, pool_query. rewrite parse_search.
      cbn [map prepareValue exec search_products as_text]. reflexivity.
    + intros p. rewrite filter_In, orb_true_iff, !matches_includes by exact Hplain.
      assert (Hcell : forall cell,
                 match as_text pg cell with
                 | Some t => includes (lower s) (lower t)
                 | None => false
                 end = true
                 <-> exists t, as_text pg cell = Some t /\ contains_ci s t).
      { intros cell. destruct (as_text pg cell) as [t|].
        - rewrite includes_lower. split.
          + intros H. now exists t.
          + intros (t' & [= <-] & H). exact H.
        - split; [discriminate | intros (t' & H & _); discriminate]. }
      rewrite !Hcell. reflexivity.
Qed.

End Search.

(** ** Properties of the listing against the store *)

Section ListingRows.

Variable pg : Pg.

Lemma insert_row_In (le : Product.t -> Product.t -> bool) (x y : Product.t)
      (l : list Product.t) :
  In y (insert_row le x l) -> y = x \/ In y l.
Proof.
  induction l as [|z l IH]; simpl.
  - intros [<-|[]]. now left.
  - destruct (le x z); simpl.
    + intros [<-|H]; auto.
    + intros [<-|H]; auto. destruct (IH H); auto.
Qed.

Lemma sort_rows_In (le : Product.t -> Product.t -> bool) (y : Product.t)
      (l : list Product.t) :
  In y (sort_rows le l) -> In y l.
Proof.
  induction l as [|x l IH]; simpl; [auto|].
  intros H. apply insert_row_In in H. destruct H as [->|H]; auto.
Qed.

Lemma firstn_subset {A : Type} (n : nat) (l : list A) (x : A) :
  In x (firstn n l) -> In x l.
Proof.
  revert l. induction n as [|n IH]; intros [|y l]; simpl; try contradiction.
  intros [<-|H]; auto.
Qed.

Lemma skipn_subset {A : Type} (n : nat) (l : list A) (x : A) :
  In x (skipn n l) -> In x l.
Proof.
  revert l. induction n as [|n IH]; intros [|y l]; simpl; auto.
Qed.

(** The command text of the builder, read back by the store. *)
Lemma parse_built (q : Listing.query) (rest : string) :
  parse (select_head (active_filters q) ++ rest)
  = match parse_order (split rest) with
    | Some (col, desc, a, b) =>
        Some (SelectListing (conds_of 1 (active_filters q)) col desc a b)
    | None => None
    end.
Proof.
  destruct q as [pg0 lim cat mn mx sb od].
  destruct cat as [[|c0 c]|], mn as [[|m0 m]|], mx as [[|x0 x]|].
  all: cbn [active_filters active Listing.category_id Listing.min_price
            Listing.max_price String.eqb app conds_of cond_of].
  all: unfold select_head, where_clause.
  all: cbv -[parse_order split]; reflexivity.
Qed.

Lemma param_after (pre : list JsVal) (v : JsVal) (post : list JsVal) :
  param (S (List.length pre)) (pre ++ v :: post) = Some v.
Proof.
  unfold param. induction pre as [|x pre IH]; simpl; auto.
Qed.

Lemma resolve_built_at (pre : list JsVal) (fs : list Filter) (post : list JsVal) :
  forall bs,
    resolve_all pg (pre ++ map filter_value fs ++ post)
                (conds_of (S (List.length pre)) fs) = Some bs ->
    forall f, In f fs -> exists b, bound_of pg f = Some b /\ In b bs.
Proof.
  revert pre. induction fs as [|g fs IH]; intros pre bs H f Hf; [contradiction|].
  cbn [conds_of resolve_all map app] in H.
  destruct (resolve pg (pre ++ filter_value g :: map filter_value fs ++ post)
                    (cond_of (S (List.length pre)) g)) as [b0|] eqn:Eb;
    [|discriminate].
  destruct (resolve_all pg (pre ++ filter_value g :: map filter_value fs ++ post)
                        (conds_of (S (S (List.length pre))) fs)) as [bs0|] eqn:Ebs;
    [|discriminate].
  injection H as <-.
  destruct Hf as [<-|Hf].
  - exists b0. split; [|now left].
    destruct g; cbn [cond_of resolve] in Eb; rewrite param_after in Eb; exact Eb.
  - replace (pre ++ filter_value g :: map filter_value fs ++ post)%list
      with ((pre ++ [filter_value g]) ++ map filter_value fs ++ post)%list in Ebs
      by (rewrite <- app_assoc; reflexivity).
    replace (S (S (List.length pre))) with (S (List.length (pre ++ [filter_value g])))
      in Ebs by (rewrite length_app; simpl; lia).
    destruct (IH _ _ Ebs f Hf) as (b & Hb & Hin).
    exists b. split; [exact Hb | now right].
Qed.

Lemma prepare_filter_values (fs : list Filter) :
  map prepareValue (map filter_value fs) = map filter_value fs.
Proof.
  induction fs as [|[v|v|v] fs IH]; simpl; now rewrite ?IH.
Qed.

Lemma active_min (q : Listing.query) (s : string) :
  Listing.min_price q = Some s -> s <> EmptyString ->
  In (MinPrice s) (active_filters q).
Proof.
  intros H Hne. unfold active_filters. rewrite H.
  apply String.eqb_neq in Hne.
  apply in_or_app. right. apply in_or_app. left.
  unfold active. rewrite Hne. now left.
Qed.

Lemma active_max (q : Listing.query) (s : string) :
  Listing.max_price q = Some s -> s <> EmptyString ->
  In (MaxPrice s) (active_filters q).
Proof.
  intros H Hne. unfold active_filters. rewrite H.
  apply String.eqb_neq in Hne.
  apply in_or_app. right. apply in_or_app. right.
  unfold active. rewrite Hne. now left.
Qed.

(** The rows the store selects for a statement of the builder. *)
Lemma select_listing_rows (q : Listing.query) (col : string) (desc : bool)
      (a b : nat) (d : Db) (ps : list Product.t) :
  select_listing pg (conds_of 1 (active_filters q)) col desc a b
                 (map prepareValue (snd (build_listing q))) d = inr ps ->
  forall p, In p ps ->
    In p (products d)
    /\ (forall s, Listing.min_price q = Some s -> s <> EmptyString ->
                  price_at_least pg s p)
    /\ (forall s, Listing.max_price q = Some s -> s <> EmptyString ->
                  price_at_most pg s p).
Proof.
  rewrite build_listing_eq. cbn [snd].
  rewrite map_app, prepare_filter_values.
  unfold select_listing.
  destruct (resolve_all pg _ _) as [bs|] eqn:Ebs; [|discriminate].
  destruct (read_count pg a _) as [l|]; [|discriminate].
  destruct (read_count pg b _) as [o|]; [|discriminate].
  intros [= <-] p Hp.
  apply firstn_subset, skipn_subset in Hp.
  unfold order_rows in Hp. apply sort_rows_In in Hp.
  apply filter_In in Hp. destruct Hp as [Hin Hall].
  rewrite forallb_forall in Hall.
  pose proof (resolve_built_at [] (active_filters q) _ bs Ebs) as Hbs.
  split; [exact Hin|]. split; intros s Hs Hne.
  - destruct (Hbs _ (active_min q s Hs Hne)) as (b0 & Hb0 & Hmem).
    cbn [bound_of] in Hb0.
    destruct (numeric_in pg (Js.Str s)) as [lo|] eqn:Elo; [|discriminate].
    injection Hb0 as <-. specialize (Hall _ Hmem). cbn [holds] in Hall.
    destruct (numeric_in pg (Product.price p)) as [x|] eqn:Ex; [|discriminate].
    exists lo, x. repeat split; auto. now apply Qle_bool_iff.
  - destruct (Hbs _ (active_max q s Hs Hne)) as (b0 & Hb0 & Hmem).
    cbn [bound_of] in Hb0.
    destruct (numeric_in pg (Js.Str s)) as [hi|] eqn:Ehi; [|discriminate].
    injection Hb0 as <-. specialize (Hall _ Hmem). cbn [holds] in Hall.
    destruct (numeric_in pg (Product.price p)) as [x|] eqn:Ex; [|discriminate].
    exists hi, x. repeat split; auto. now apply Qle_bool_iff.
Qed.

(** C5.  When the listing answers with rows, they are rows of the
    products table, and each has a price at least [min_price] when that
    filter is given and at most [max_price] when that one is given, each
    bound on its own. *)
Theorem listed_prices_in_range (q : Listing.query) (w : World) :
  code (fst (get_products pg q w)) = 200 ->
  exists ps,
    body (fst (get_products pg q w)) = Js.Arr (map Product.to_json ps)
    /\ forall p, In p ps ->
         In p (products (db w))
         /\ (forall s, Listing.min_price q = Some s -> s <> EmptyString ->
                       price_at_least pg s p)
         /\ (forall s, Listing.max_price q = Some s -> s <> EmptyString ->
                       price_at_most pg s p).
Proof.
  unfold get_products.
  destruct (rejected_price (Listing.min_price q)); [discriminate|].
  destruct (rejected_price (Listing.max_price q)); [discriminate|].
  pose proof (select_listing_rows q) as Hrows.
  pose proof (f_equal fst (build_listing_eq q)) as Htext.
  destruct (build_listing q) as [text params].
  cbn [fst] in Htext. cbn [snd] in Hrows.
  unfold or_next, bind, ret, pool_query.
  rewrite Htext, parse_built.
  destruct (parse_order _) as [[[[col desc] a] b]|]; [|discriminate].
  cbn [exec].
  destruct (select_listing pg _ col desc a b (map prepareValue params) (db w))
    as [e|ps] eqn:E; [discriminate|].
  intros _. exists ps. split; [reflexivity|].
  exact (Hrows col desc a b (db w) ps E).
Qed.

End ListingRows.

(** ** Worked examples *)

(** [GET /api/products?page=3&limit=20&category_id=1&min_price=8&max_price=20&sort_by=price&order=DESC] *)
Lemma listing_statement_example :
  let q := Listing.Build_query (Some "3") (Some "20") (Some "1") (Some "8") (Some "20")
                               (Some "price") (Some "DESC") in
  well_formed q = true
  /\ sent (snd (get_products Example.pg q Example.catalogue))
     = [("SELECT * FROM products WHERE category_id = $1 AND price >= $2 AND price <= $3 ORDER BY price DESC LIMIT $4 OFFSET $5",
         [Js.Str "1"; Js.Str "8"; Js.Str "20"; Js.Str "20"; Js.Num (Js.of_Z 40)])]
  /\ spec_offset q = Js.of_Z ((3 - 1) * 20).
Proof.
  intros q.
  assert (Hwf : well_formed q = true) by (vm_compute; reflexivity).
  destruct (listing_statement Example.pg q Example.catalogue Hwf) as [Hsent Hoffset].
  split; [exact Hwf|]. split; [exact Hsent|].
  apply (Hoffset 3 20);
    [reflexivity | reflexivity | split; [lia | reflexivity] | reflexivity | reflexivity].
Defined.

(** [sort_by=price] against [sort_by=name], and [order=DESC] against
    [order=ASC]. *)
Lemma ordering_interpolated_example :
  let q := Example.listing None (Some "8") None None None in
  fst (build_listing (with_ordering q (Some "price") (Some "DESC")))
  = "SELECT * FROM products WHERE price >= $1 ORDER BY price DESC LIMIT $2 OFFSET $3"
  /\ rejected_price (Listing.min_price q) = false
  /\ rejected_price (Listing.max_price q) = false
  /\ map fst (sent (snd (get_products Example.pg
                           (with_ordering q (Some "price") (Some "DESC"))
                           Example.catalogue)))
     = ["SELECT * FROM products WHERE price >= $1 ORDER BY price DESC LIMIT $2 OFFSET $3"]
  /\ fst (build_listing (with_ordering q (Some "name") (Some "DESC")))
     <> fst (build_listing (with_ordering q (Some "price") (Some "DESC")))
  /\ fst (build_listing (with_ordering q (Some "price") (Some "ASC")))
     <> fst (build_listing (with_ordering q (Some "price") (Some "DESC"))).
Proof.
  intros q.
  destruct (ordering_interpolated Example.pg q "price" "DESC")
    as (Htext & _ & Hsent & Hsort & Horder).
  assert (Hmin : rejected_price (Listing.min_price q) = false)
    by (vm_compute; reflexivity).
  assert (Hmax : rejected_price (Listing.max_price q) = false) by reflexivity.
  split; [exact Htext|]. split; [exact Hmin|]. split; [exact Hmax|]. split.
  - rewrite (Hsent Example.catalogue Hmin Hmax). reflexivity.
  - split.
    + apply Hsort. discriminate.
    + apply Horder. discriminate.
Defined.

(** [GET /api/products?page=0&limit=-5&sort_by=price]: nothing is refused. *)
Lemma listing_rejects_prices_only_example :
  let q := Listing.Build_query (Some "0") (Some "-5") None None None (Some "price") None in
  rejected_price (Listing.min_price q) = false
  /\ rejected_price (Listing.max_price q) = false
  /\ (code (fst (get_products Example.pg q Example.catalogue)) =? 400) = false
  /\ sent (snd (get_products Example.pg q Example.catalogue))
     = [("SELECT * FROM products ORDER BY price ASC LIMIT $1 OFFSET $2",
         [Js.Str "-5"; Js.Num (Js.of_Z 5)])].
Proof.
  intros q.
  destruct (listing_rejects_prices_only Example.pg q Example.catalogue)
    as (Hcode & Hsent & _).
  assert (Hmin : rejected_price (Listing.min_price q) = false) by reflexivity.
  assert (Hmax : rejected_price (Listing.max_price q) = false) by reflexivity.
  split; [exact Hmin|]. split; [exact Hmax|]. split.
  - exact Hcode.
  - exact (Hsent Hmin Hmax).
Defined.

(** The listing of the sample catalogue between 8 and 20. *)
Lemma listed_prices_in_range_example :
  let q := Example.listing None (Some "8") (Some "20") None None in
  code (fst (get_products Example.pg q Example.catalogue)) = 200
  /\ exists ps,
       body (fst (get_products Example.pg q Example.catalogue))
       = Js.Arr (map Product.to_json ps)
       /\ forall p, In p ps ->
            In p (products (db Example.catalogue))
            /\ (forall s, Listing.min_price q = Some s -> s <> EmptyString ->
                          price_at_least Example.pg s p)
            /\ (forall s, Listing.max_price q = Some s -> s <> EmptyString ->
                          price_at_most Example.pg s p).
Proof.
  intros q.
  assert (H : code (fst (get_products Example.pg q Example.catalogue)) = 200)
    by (vm_compute; reflexivity).
  split; [exact H|].
  exact (listed_prices_in_range Example.pg q Example.catalogue H).
Defined.

(** [GET /api/products/search?query=SYRUP] *)
Lemma search_by_substring_example :
  "SYRUP" <> EmptyString
  /\ plain "SYRUP" = true
  /\ exists ps,
       fst (get_products_search Example.pg (Some "SYRUP") Example.catalogue)
       = json (Js.Arr (map Product.to_json ps))
       /\ ps = [Example.product 1 "Maple syrup" "Amber, 500 ml" "12.50" 1].
Proof.
  assert (Hne : "SYRUP" <> EmptyString) by discriminate.
  assert (Hplain : plain "SYRUP" = true) by reflexivity.
  split; [exact Hne|]. split; [exact Hplain|].
  destruct (proj2 (search_by_substring Example.pg (Some "SYRUP") Example.catalogue)
                  "SYRUP" eq_refl Hne Hplain) as (ps & Hres & Hps & _).
  exists ps. split; [exact Hres|]. rewrite Hps. vm_compute. reflexivity.
Defined.

(** C7, as the specification states it, fails twice.  On
    [GET /api/products/search?query=] the query string is there, every
    text contains it, and the answer is 400.  On [query=_] the answer has
    all three products of the sample catalogue, none of which has an
    underscore in its name or description. *)
Lemma search_not_by_substring :
  code (fst (get_products_search Example.pg (Some EmptyString) Example.catalogue)) = 400
  /\ fst (get_products_search Example.pg (Some "_") Example.catalogue)
     = json (Js.Arr (map Product.to_json (products (db Example.catalogue))))
  /\ forallb (fun p =>
                match Product.name p, Product.description p with
                | Js.Str n, Js.Str d =>
                    negb (includes (lower "_") (lower n))
                    && negb (includes (lower "_") (lower d))
                | _, _ => false
                end) (products (db Example.catalogue)) = true.
Proof. repeat split; vm_compute; reflexivity. Qed.


(** [{status: "maybe"}], and an identifier that is not in the table. *)
Lemma decide_refused_example :
  Js.nullish (Example.decision "maybe") = false
  /\ Js.get "status" (Example.decision "maybe") <> Js.Str "approved"
  /\ Js.get "status" (Example.decision "maybe") <> Js.Str "rejected"
  /\ code (fst (put_product_request Example.pg "1" (Example.decision "maybe")
                                    Example.review)) = 400
  /\ snd (put_product_request Example.pg "1" (Example.decision "maybe") Example.review)
     = Example.review
  /\ code (fst (put_product_request Example.pg "9" (Example.decision "approved")
                                    Example.review)) = 404
  /\ db (snd (put_product_request Example.pg "9" (Example.decision "approved")
                                  Example.review))
     = db Example.review.
Proof.
  assert (Hb : Js.nullish (Example.decision "maybe") = false) by reflexivity.
  assert (Ha : Js.get "status" (Example.decision "maybe") <> Js.Str "approved")
    by discriminate.
  assert (Hr : Js.get "status" (Example.decision "maybe") <> Js.Str "rejected")
    by discriminate.
  split; [exact Hb|]. split; [exact Ha|]. split; [exact Hr|].
  pose proof (proj1 (decide_refused Example.pg "1" (Example.decision "maybe")
                       Example.review) Hb Ha Hr) as H400.
  assert (Hnone : forall r, In r (product_requests (db Example.review)) ->
                            ProductRequest.id r <> 9)
    by (intros r [<-|[]]; discriminate).
  destruct (proj1 (proj2 (decide_refused Example.pg "9" (Example.decision "approved")
                            Example.review)) 9 (or_introl eq_refl) eq_refl Hnone)
    as (H404 & Hdb & _).
  split; [now rewrite H400|]. split; [now rewrite H400|].
  split; [now rewrite H404 | exact Hdb].
Defined.

(** C2, as the specification states it, fails twice.  A request that
    comes without a body asks for no status at all, and is answered 500,
    not 400.  With [approved] and the identifier [abc], which no request
    has, the store refuses the lookup and the answer is 500, not 404. *)
Lemma decide_answered_500 :
  Js.get "status" Js.Undefined <> Js.Str "approved"
  /\ Js.get "status" Js.Undefined <> Js.Str "rejected"
  /\ code (fst (put_product_request Example.pg "1" Js.Undefined Example.review)) = 500
  /\ Js.get "status" (Example.decision "approved") = Js.Str "approved"
  /\ (forall r, In r (product_requests (db Example.review)) ->
                int_in Example.pg (Js.Str "abc") <> Some (ProductRequest.id r))
  /\ code (fst (put_product_request Example.pg "abc" (Example.decision "approved")
                                    Example.review)) = 500.
Proof.
  split; [discriminate|]. split; [discriminate|]. split; [reflexivity|].
  split; [reflexivity|]. split; [intros r _; discriminate | reflexivity].
Qed.

(** A submission with price [-5], and a valid one. *)
Lemma submit_product_request_example :
  let res := post_product_requests Example.pg Example.validators Example.submission
                                   Example.empty in
  valid_submission Example.validators Example.bad_submission = false
  /\ valid_submission Example.validators Example.submission = true
  /\ Js.nullish Example.submission = false
  /\ takes_submission Example.pg Example.submission = true
  /\ (exists errors e,
        post_product_requests Example.pg Example.validators Example.bad_submission
                              Example.empty
        = (status_json 400 (Js.Obj [("errors", Js.Arr errors)]), Example.empty)
        /\ In e errors
        /\ reports e "price" "Price must be a positive number" (Js.Num (Js.of_Z (-5))))
  /\ code (fst res) = 200
  /\ Js.get "id" (body (fst res)) = Js.Num (Js.of_Z 1)
  /\ Js.get "status" (body (fst res)) = Js.Str "pending"
  /\ request_fields_kept Example.pg Example.submission (body (fst res)).
Proof.
  intros res.
  assert (Hbad : valid_submission Example.validators Example.bad_submission = false)
    by reflexivity.
  assert (Hgood : valid_submission Example.validators Example.submission = true)
    by reflexivity.
  assert (Hbody : Js.nullish Example.submission = false) by reflexivity.
  assert (Htakes : takes_submission Example.pg Example.submission = true)
    by reflexivity.
  split; [exact Hbad|]. split; [exact Hgood|]. split; [exact Hbody|].
  split; [exact Htakes|]. split.
  - destruct (proj1 (submit_product_request Example.pg Example.validators
                       Example.bad_submission Example.empty) Hbad)
      as (errors & _ & Hres & Hfield & _).
    destruct (Hfield (isFloat_gt_0 Example.validators) "price"
                     "Price must be a positive number") as (e & He & Hrep).
    + right. right. left. reflexivity.
    + reflexivity.
    + exists errors, e. split; [exact Hres|]. split; [exact He | exact Hrep].
  - destruct (proj1 (proj2 (submit_product_request Example.pg Example.validators
                              Example.submission Example.empty)) Hgood Hbody Htakes)
      as (Hcode & Hid & Hstatus & Hkept & _).
    split; [exact Hcode|]. split; [exact Hid|]. split; [exact Hstatus | exact Hkept].
Defined.

(** C8, as the specification states it, fails on a submission in which
    every field is valid and whose category, 99999999999, is beyond the
    integers that the column holds: every check passes, the store
    refuses the INSERT, the answer is 500 and no record is stored. *)
Lemma valid_submission_not_stored :
  let res := post_product_requests Example.pg Example.validators Example.far_submission
                                   Example.empty in
  valid_submission Example.validators Example.far_submission = true
  /\ Js.get "category_id" Example.far_submission = Js.Num (Js.of_Z 99999999999)
  /\ int_in Example.pg (Js.Num (Js.of_Z 99999999999)) = None
  /\ code (fst res) = 500
  /\ product_requests (db (snd res)) = []
  /\ map fst (sent (snd res)) = [sql_insert_request].
Proof. repeat split; vm_compute; reflexivity. Qed.
(** ** The listing, read back by the store *)

Section ListingWindow.

Variable pg : Pg.

Lemma split_not_nil (s : string) : split s <> [].
Proof.
  induction s as [|c s IH]; simpl; [discriminate|].
  destruct (Ascii.eqb c " "); [discriminate|].
  destruct (split s); [contradiction | discriminate].
Qed.

Lemma split_append (a b : string) :
  split (a ++ String " " b) = (split a ++ split b)%list.
Proof.
  induction a as [|c a IH]; [reflexivity|].
  cbn [append split]. rewrite IH.
  destruct (Ascii.eqb c " "); [reflexivity|].
  pose proof (split_not_nil a) as Ha.
  destruct (split a); [contradiction | reflexivity].
Qed.

Lemma split_single (s t : string) : split s = [t] -> t = s.
Proof.
  revert t. induction s as [|c s IH]; intros t; simpl.
  - now intros [= <-].
  - pose proof (split_not_nil s) as Hs.
    destruct (Ascii.eqb c " ").
    + destruct (split s); [contradiction | discriminate].
    + destruct (split s) as [|u us]; [contradiction|].
      intros [= <- ->]. now rewrite (IH u eq_refl).
Qed.

Lemma active_filters_length (q : Listing.query) :
  (List.length (active_filters q) <= 3)%nat.
Proof.
  destruct q as [pg0 lim cat mn mx sb od]. unfold active_filters, active. simpl.
  destruct cat as [[|c0 c]|], mn as [[|m0 m]|], mx as [[|x0 x]|]; simpl; lia.
Qed.

Lemma parse_order_length (toks : list string) (r : string * bool * nat * nat) :
  parse_order toks = Some r -> List.length toks = 6%nat.
Proof.
  unfold parse_order.
  destruct toks as [|t1 [|t2 [|t3 [|t4 [|t5 [|t6 [|t7 toks]]]]]]];
    try discriminate; reflexivity.
Qed.

Lemma split_length_one (s : string) :
  List.length (split s) = 1%nat -> split s = [s].
Proof.
  intros H. destruct (split s) as [|t [|u ts]] eqn:E; try discriminate.
  now rewrite (split_single s t E).
Qed.

(** What the store reads after [ORDER BY] in a text of the builder. *)
Lemma parse_order_built (sort order : string) (fs : list Filter)
      (col : string) (desc : bool) (a b : nat) :
  (List.length fs <= 3)%nat ->
  parse_order (split (sort ++ " " ++ order ++ limit_tail fs)) = Some (col, desc, a, b) ->
  col = sort
  /\ desc = String.eqb (lower order) "desc"
  /\ a = (List.length fs + 1)%nat
  /\ b = (List.length fs + 2)%nat
  /\ existsb (String.eqb sort) Product.columns = true.
Proof.
  intros Hn.
  change (sort ++ " " ++ order ++ limit_tail fs)
    with (sort ++ String " " (order ++ limit_tail fs)).
  unfold limit_tail.
  change (" LIMIT $" ++ Js.nat_to_string (List.length fs + 1) ++ " OFFSET $"
          ++ Js.nat_to_string (List.length fs + 2))
    with (String " " ("LIMIT $" ++ Js.nat_to_string (List.length fs + 1) ++ " OFFSET $"
                      ++ Js.nat_to_string (List.length fs + 2))).
  rewrite !split_append.
  assert (Htail : split ("LIMIT $" ++ Js.nat_to_string (List.length fs + 1) ++ " OFFSET $"
                         ++ Js.nat_to_string (List.length fs + 2))
                  = ["LIMIT"; "$" ++ Js.nat_to_string (List.length fs + 1);
                     "OFFSET"; "$" ++ Js.nat_to_string (List.length fs + 2)]).
  { destruct (List.length fs) as [|[|[|[|n]]]]; [| | | |lia]; reflexivity. }
  rewrite Htail. intros H.
  pose proof (parse_order_length _ _ H) as Hlen.
  rewrite !length_app in Hlen. cbn [List.length] in Hlen.
  pose proof (split_not_nil sort) as Hs. pose proof (split_not_nil order) as Ho.
  assert (Hs1 : List.length (split sort) = 1%nat)
    by (destruct (split sort), (split order); simpl in *; try contradiction; lia).
  assert (Ho1 : List.length (split order) = 1%nat)
    by (destruct (split sort), (split order); simpl in *; try contradiction; lia).
  rewrite (split_length_one _ Hs1), (split_length_one _ Ho1) in H.
  cbn [app] in H. unfold parse_order in H.
  destruct (existsb (String.eqb sort) Product.columns) eqn:Ecol; [|discriminate H].
  assert (Hph : forall k, (k <= 5)%nat -> (1 <= k)%nat ->
                          placeholder ("$" ++ Js.nat_to_string k) = Some k).
  { intros k Hk H1. do 6 (destruct k as [|k]; [try lia; try reflexivity|]). lia. }
  cbn [andb] in H.
  replace (String.eqb "LIMIT" "LIMIT") with true in H by reflexivity.
  replace (String.eqb "OFFSET" "OFFSET") with true in H by reflexivity.
  cbn [andb] in H. rewrite !Hph in H by lia.
  destruct (String.eqb (lower order) "asc") eqn:Easc.
  - injection H as <- <- <- <-. repeat split.
    destruct (String.eqb (lower order) "desc") eqn:Ed; [|reflexivity].
    apply String.eqb_eq in Easc, Ed. congruence.
  - destruct (String.eqb (lower order) "desc") eqn:Ed; [|discriminate H].
    injection H as <- <- <- <-. repeat split.
Qed.

Lemma resolve_built (pre : list JsVal) (fs : list Filter) (post : list JsVal) :
  resolve_all pg (pre ++ map filter_value fs ++ post)
              (conds_of (S (List.length pre)) fs)
  = bounds_of pg fs.
Proof.
  revert pre. induction fs as [|g fs IH]; intros pre; [reflexivity|].
  cbn [conds_of resolve_all map app bounds_of].
  replace (resolve pg (pre ++ filter_value g :: map filter_value fs ++ post)
                   (cond_of (S (List.length pre)) g))
    with (bound_of pg g)
    by (destruct g; cbn [cond_of resolve bound_of]; now rewrite param_after).
  replace (pre ++ filter_value g :: map filter_value fs ++ post)%list
    with ((pre ++ [filter_value g]) ++ map filter_value fs ++ post)%list
    by (rewrite <- app_assoc; reflexivity).
  replace (S (S (List.length pre))) with (S (List.length (pre ++ [filter_value g])))
    by (rewrite length_app; simpl; lia).
  now rewrite IH.
Qed.

Lemma read_count_spec (k : nat) (params : list JsVal) (v : JsVal) (n : nat) :
  param k params = Some v ->
  read_count pg k params = Some n ->
  int_in pg v = Some (Z.of_nat n).
Proof.
  unfold read_count. intros -> H.
  destruct (int_in pg v) as [z|]; [|discriminate].
  destruct (0 <=? z) eqn:E; [|discriminate].
  apply Z.leb_le in E. injection H as <-. now rewrite Z2Nat.id.
Qed.

(** A listing answered 200, step by step: the store has read every
    filter value, the limit and the offset, and the sort key is a column
    of products. *)
Lemma get_products_ok (q : Listing.query) (w : World) :
  code (fst (get_products pg q w)) = 200 ->
  exists bs l o,
    bounds_of pg (active_filters q) = Some bs
    /\ int_in pg (limit_value q) = Some (Z.of_nat l)
    /\ int_in pg (Js.Num (spec_offset q)) = Some (Z.of_nat o)
    /\ existsb (String.eqb (text_default (Listing.sort_by q) "id")) Product.columns = true
    /\ body (fst (get_products pg q w))
       = Js.Arr (map Product.to_json (firstn l (skipn o (listed pg q bs (db w))))).
Proof.
  unfold get_products.
  destruct (rejected_price (Listing.min_price q)); [discriminate|].
  destruct (rejected_price (Listing.max_price q)); [discriminate|].
  rewrite build_listing_eq, offset_of_spec.
  unfold or_next, bind, ret, pool_query. rewrite parse_built.
  destruct (parse_order _) as [[[[col desc] a] b]|] eqn:Eo; [|discriminate].
  apply (parse_order_built _ _ _ _ _ _ _ (active_filters_length q)) in Eo.
  destruct Eo as (-> & -> & -> & -> & Hcol).
  cbn [exec]. unfold select_listing.
  rewrite map_app, prepare_filter_values.
  set (limit := with_default (Listing.limit q) (Js.Num (Js.of_Z 10))).
  assert (Hl : prepareValue limit = limit)
    by (unfold limit, with_default; destruct (Listing.limit q); reflexivity).
  cbn [map prepareValue]. rewrite Hl.
  pose proof (resolve_built [] (active_filters q) [limit; Js.Num (spec_offset q)]) as Hr.
  cbn [app List.length] in Hr. unfold JsVal in *. rewrite Hr.
  destruct (bounds_of pg (active_filters q)) as [bs|]; [|discriminate].
  assert (Hp1 : param (List.length (active_filters q) + 1)
                      (map filter_value (active_filters q)
                       ++ [limit; Js.Num (spec_offset q)])
                = Some limit).
  { rewrite Nat.add_1_r, <- (length_map filter_value). apply param_after. }
  assert (Hp2 : param (List.length (active_filters q) + 2)
                      (map filter_value (active_filters q)
                       ++ [limit; Js.Num (spec_offset q)])
                = Some (Js.Num (spec_offset q))).
  { replace (map filter_value (active_filters q) ++ [limit; Js.Num (spec_offset q)])%list
      with ((map filter_value (active_filters q) ++ [limit])
            ++ [Js.Num (spec_offset q)])%list
      by (rewrite <- app_assoc; reflexivity).
    replace (List.length (active_filters q) + 2)%nat
      with (S (List.length (map filter_value (active_filters q) ++ [limit])))
      by (rewrite length_app, length_map; simpl; lia).
    apply param_after. }
  destruct (read_count pg (List.length (active_filters q) + 1) _) as [l|] eqn:El;
    [|discriminate].
  destruct (read_count pg (List.length (active_filters q) + 2) _) as [o|] eqn:Eoff;
    [|discriminate].
  intros _. exists bs, l, o.
  split; [reflexivity|].
  split; [exact (read_count_spec _ _ _ _ Hp1 El)|].
  split; [exact (read_count_spec _ _ _ _ Hp2 Eoff)|].
  split; [exact Hcol|].
  reflexivity.
Qed.


(** X3.  A filter given as the empty string counts as not given, and a missing
    [sort_by] or [order] as [id] or [ASC]: the handler answers, and sends
    the store, the same as for the request written out that way. *)
Theorem listing_normalize (q : Listing.query) (w : World) :
  get_products pg (normalize q) w = get_products pg q w.
Proof.
  assert (Hrej : forall v, rejected_price (drop_empty v) = rejected_price v).
  { intros [s|]; [|reflexivity]. unfold drop_empty, rejected_price.
    destruct (String.eqb s EmptyString) eqn:E; [reflexivity|]. now rewrite E. }
  assert (Hact : forall mk v, active mk (drop_empty v) = active mk v).
  { intros mk [s|]; [|reflexivity]. unfold drop_empty, active.
    destruct (String.eqb s EmptyString) eqn:E; [reflexivity|]. now rewrite E. }
  unfold get_products. cbn [normalize Listing.min_price Listing.max_price].
  rewrite !Hrej, !build_listing_eq.
  unfold active_filters. cbn [normalize Listing.min_price Listing.max_price
                              Listing.category_id Listing.sort_by Listing.order
                              Listing.limit text_default].
  rewrite !Hact. reflexivity.
Qed.

End ListingWindow.

(** ** The routes that read, delete and update *)

Section Routes.

Variable pg : Pg.
Variable ev : Validators.

Lemma parse_by_category : parse sql_by_category = None.
Proof. vm_compute. reflexivity. Qed.

Lemma parse_delete_product : parse sql_delete_product = None.
Proof. vm_compute. reflexivity. Qed.

Lemma parse_select_requests : parse sql_select_requests = None.
Proof. vm_compute. reflexivity. Qed.


(** On a text the first store reads, the larger store is the first one. *)
Lemma pool_query_all_known (text : string) (params : list JsVal) (w : World)
      (st : statement) :
  parse text = Some st -> pool_query_all pg text params w = pool_query pg text params w.
Proof. unfold pool_query_all. now intros ->. Qed.

Lemma get_products_db (q : Listing.query) (w : World) :
  db (snd (get_products pg q w)) = db w.
Proof.
  unfold get_products.
  destruct (rejected_price (Listing.min_price q)); [reflexivity|].
  destruct (rejected_price (Listing.max_price q)); [reflexivity|].
  rewrite build_listing_eq. unfold or_next, bind, ret, pool_query.
  rewrite parse_built.
  destruct (parse_order _) as [[[[col desc] a] b]|]; [|reflexivity].
  cbn [exec]. destruct (select_listing pg _ col desc a b _ (db w)); reflexivity.
Qed.

Lemma get_products_search_db (query : option string) (w : World) :
  db (snd (get_products_search pg query w)) = db w.
Proof.
  unfold get_products_search.
  destruct (negb (present query)); [reflexivity|].
  unfold or_next, bind, ret, pool_query. rewrite parse_search.
  cbn [exec]. destruct (search_products pg _ (db w)); reflexivity.
Qed.

Lemma get_products_by_category_run (categoryId : string) (w : World) :
  get_products_by_category pg categoryId w
  = match int_in pg (Js.Str categoryId) with
    | Some n =>
        (json (Js.Arr (map Product.to_json
                         (filter (holds pg (CategoryIs n)) (products (db w))))),
         {| db := db w;
            sent := (sent w ++ [(sql_by_category, [Js.Str categoryId])])%list |})
    | None =>
        (status_json 500 (Js.Obj [("error", Js.Str "Internal server error");
                                  ("details", Js.Str "invalid parameter value")]),
         {| db := db w;
            sent := (sent w ++ [(sql_by_category, [Js.Str categoryId])])%list |})
    end.
Proof.
  unfold get_products_by_category, or_next, bind, ret, pool_query_all.
  rewrite parse_by_category.
  replace (parse_more sql_by_category) with (Some SelectByCategory) by reflexivity.
  cbn [map prepareValue exec_more select_by_category].
  destruct (int_in pg (Js.Str categoryId)); reflexivity.
Qed.

Lemma delete_product_run (id : string) (w : World) :
  delete_product pg id w
  = match int_in pg (Js.Str id) with
    | Some n =>
        (json (Js.Obj [("message", Js.Str "Product deleted")]),
         {| db := {| products := filter (fun p => negb (Product.id p =? n))
                                        (products (db w));
                     product_requests := product_requests (db w);
                     products_id_seq := products_id_seq (db w);
                     product_requests_id_seq := product_requests_id_seq (db w) |};
            sent := (sent w ++ [(sql_delete_product, [Js.Str id])])%list |})
    | None =>
        (status_json 500 (Js.Obj [("error", Js.Str "Internal server error");
                                  ("details", Js.Str "invalid parameter value")]),
         {| db := db w;
            sent := (sent w ++ [(sql_delete_product, [Js.Str id])])%list |})
    end.
Proof.
  unfold delete_product, or_next, bind, ret, pool_query_all.
  rewrite parse_delete_product.
  replace (parse_more sql_delete_product) with (Some DeleteFromProducts) by reflexivity.
  cbn [map prepareValue exec_more delete_from_products].
  destruct (int_in pg (Js.Str id)); reflexivity.
Qed.

Lemma get_product_requests_run (w : World) :
  get_product_requests pg w
  = (json (Js.Arr (map ProductRequest.to_json (product_requests (db w)))),
     {| db := db w; sent := (sent w ++ [(sql_select_requests, [])])%list |}).
Proof.
  unfold get_product_requests, or_next, bind, ret, pool_query_all.
  rewrite parse_select_requests. reflexivity.
Qed.

(** X4.  The four GET routes over products and requests never change a
    table, whatever the request and whatever the store answers. *)
Theorem reads_change_nothing (w : World) :
  (forall q, db (snd (get_products pg q w)) = db w)
  /\ (forall query, db (snd (get_products_search pg query w)) = db w)
  /\ (forall categoryId, db (snd (get_products_by_category pg categoryId w)) = db w)
  /\ db (snd (get_product_requests pg w)) = db w.
Proof.
  split; [intros; apply get_products_db|].
  split; [intros; apply get_products_search_db|].
  split.
  - intros c. rewrite get_products_by_category_run.
    destruct (int_in pg (Js.Str c)); reflexivity.
  - now rewrite get_product_requests_run.
Qed.

(** X5.  The products of a category: exactly the rows whose category the
    store reads as the one asked for, in table order; none is an empty
    list, not an error. *)
Theorem products_by_category (categoryId : string) (n : Z) (w : World) :
  int_in pg (Js.Str categoryId) = Some n ->
  exists ps,
    fst (get_products_by_category pg categoryId w) = json (Js.Arr (map Product.to_json ps))
    /\ ps = filter (holds pg (CategoryIs n)) (products (db w))
    /\ (forall p, In p ps <->
                  In p (products (db w))
                  /\ int_in pg (Product.category_id p) = Some n)
    /\ ((forall p, In p (products (db w)) ->
                   int_in pg (Product.category_id p) <> Some n) ->
        ps = []).
Proof.
  intros Hn. rewrite get_products_by_category_run, Hn.
  eexists. split; [reflexivity|]. split; [reflexivity|].
  assert (Hholds : forall p, holds pg (CategoryIs n) p = true
                             <-> int_in pg (Product.category_id p) = Some n).
  { intros p. cbn [holds]. destruct (int_in pg (Product.category_id p)) as [m|].
    - rewrite Z.eqb_eq. split; [now intros -> | now intros [= ->]].
    - split; discriminate. }
  split.
  - intros p. rewrite filter_In, Hholds. reflexivity.
  - intros Hnone.
    induction (products (db w)) as [|p ps IH]; [reflexivity|].
    cbn [filter]. destruct (holds pg (CategoryIs n) p) eqn:E.
    + apply Hholds in E. exfalso. apply (Hnone p); [now left | exact E].
    + apply IH. intros x Hx. apply Hnone. now right.
Qed.

(** X6.  A listing filtered by category never shows a product that the
    category route does not show for the same category. *)
Theorem listing_within_category (q : Listing.query) (c : string) (w : World) :
  Listing.category_id q = Some c -> c <> EmptyString ->
  code (fst (get_products pg q w)) = 200 ->
  exists listed_rows category_rows,
    body (fst (get_products pg q w)) = Js.Arr (map Product.to_json listed_rows)
    /\ fst (get_products_by_category pg c w)
       = json (Js.Arr (map Product.to_json category_rows))
    /\ forall p, In p listed_rows -> In p category_rows.
Proof.
  intros Hc Hne H200.
  destruct (get_products_ok pg q w H200) as (bs & l & o & Hbs & _ & _ & _ & Hbody).
  assert (Hact : exists fs, active_filters q = ByCategory c :: fs).
  { unfold active_filters. rewrite Hc. unfold active at 1.
    apply String.eqb_neq in Hne. rewrite Hne. eexists. reflexivity. }
  destruct Hact as (fs & Hact). rewrite Hact in Hbs. cbn [bounds_of bound_of] in Hbs.
  destruct (int_in pg (Js.Str c)) as [n|] eqn:Hn; [|discriminate].
  cbn [option_map] in Hbs.
  destruct (bounds_of pg fs) as [bs'|]; [|discriminate]. injection Hbs as <-.
  rewrite get_products_by_category_run, Hn.
  eexists. eexists. split; [exact Hbody|]. split; [reflexivity|].
  intros p Hp. apply firstn_subset, skipn_subset in Hp.
  unfold listed, order_rows in Hp. apply sort_rows_In in Hp.
  apply filter_In in Hp. destruct Hp as [Hin Hall].
  cbn [forallb] in Hall. apply andb_true_iff in Hall. destruct Hall as [Hcat _].
  apply filter_In. split; assumption.
Qed.

(** X7.  [PUT /api/products/:id] under an identifier that no product has,
    with a body whose price and category the store can take: the answer
    is 200 with no body, and no table changes.  Without a body, or with
    a price or a category that the store cannot read, the answer is 500
    and no table changes either. *)
Theorem update_of_missing_product (id : string) (n : Z) (change : JsVal) (w : World) :
  int_in pg (Js.Str id) = Some n ->
  (forall p, In p (products (db w)) -> Product.id p <> n) ->
  (Js.nullish change = false -> takes_body pg change = true ->
   fst (put_product pg id change w) = json Js.Undefined
   /\ db (snd (put_product pg id change w)) = db w)
  /\ (Js.nullish change = true \/ takes_body pg change = false ->
      code (fst (put_product pg id change w)) = 500
      /\ Js.get "error" (body (fst (put_product pg id change w)))
         = Js.Str "Internal server error"
      /\ db (snd (put_product pg id change w)) = db w).
Proof.
  intros Hid Hnone. split.
  - intros Hb Ht. now apply (put_product_missing pg id n).
  - intros H. apply put_product_refused.
    destruct H as [H|H]; [now left | right; now rewrite H].
Qed.

(** X8.  [PUT /api/products/:id] never adds or removes a row and never moves
    an identifier, and sending the same update a second time changes
    nothing more. *)
Theorem update_keeps_rows (id : string) (change : JsVal) (w : World) :
  let w1 := snd (put_product pg id change w) in
  map Product.id (products (db w1)) = map Product.id (products (db w))
  /\ db (snd (put_product pg id change w1)) = db w1
  /\ fst (put_product pg id change w1) = fst (put_product pg id change w).
Proof.
  intros w1. subst w1.
  destruct (Js.nullish change) eqn:Hb.
  { rewrite (put_product_run pg id change w), Hb. cbn [snd fst].
    rewrite put_product_run, Hb. repeat split. }
  destruct (if takes_body pg change then int_in pg (Js.Str id) else None)
    as [n|] eqn:Ht.
  2:{ rewrite (put_product_run pg id change w), Hb. cbv zeta. rewrite Ht.
      cbn [snd fst]. rewrite put_product_run, Hb. cbv zeta. rewrite Ht.
      repeat split. }
  destruct (put_product_taken pg id n change w Hb Ht) as [Hres Hdb].
  destruct (put_product_taken pg id n change (snd (put_product pg id change w)) Hb Ht)
    as [Hres1 Hdb1].
  rewrite Hres1, Hdb1, Hres, Hdb. clear Hres1 Hdb1 Hres Hdb.
  set (hit := fun p : Product.t => Product.id p =? n).
  set (step := fun p : Product.t => if hit p then updated change p else p).
  assert (Hid : forall p, Product.id (step p) = Product.id p)
    by (intros p; unfold step; destruct (hit p); reflexivity).
  assert (Hs1 : forall p, hit p = true -> step p = updated change p)
    by (intros p E; unfold step; now rewrite E).
  assert (Hs0 : forall p, hit p = false -> step p = p)
    by (intros p E; unfold step; now rewrite E).
  assert (Hhit : forall p, hit (step p) = hit p)
    by (intros p; unfold hit; now rewrite Hid).
  assert (Hstep : forall p, step (step p) = step p).
  { intros p. destruct (hit p) eqn:E.
    + rewrite (Hs1 p E), (Hs1 (updated change p) E). reflexivity.
    + rewrite (Hs0 p E). now apply Hs0. }
  assert (Hfilter : forall l, filter hit (map step l) = map (updated change) (filter hit l)).
  { induction l as [|p l IH]; [reflexivity|]. cbn [map filter].
    rewrite Hhit. destruct (hit p) eqn:E.
    + rewrite (Hs1 p E). cbn [map]. now rewrite IH.
    + exact IH. }
  cbn [with_products products product_requests products_id_seq product_requests_id_seq].
  split; [|split].
  - rewrite map_map. apply map_ext. exact Hid.
  - unfold with_products. cbn [products product_requests products_id_seq
                                product_requests_id_seq].
    f_equal. rewrite map_map. apply map_ext. exact Hstep.
  - rewrite Hfilter. f_equal. f_equal. rewrite !map_map.
    apply map_ext. intros p. reflexivity.
Qed.

(** X9.  [DELETE /api/products/:id]: the rows with that identifier leave the
    products table and every other row stays, in order; the answer is
    [Product deleted] also when there was no such row, in which case no
    table changes. *)
Theorem delete_removes_product (id : string) (n : Z) (w : World) :
  int_in pg (Js.Str id) = Some n ->
  let w1 := snd (delete_product pg id w) in
  fst (delete_product pg id w) = json (Js.Obj [("message", Js.Str "Product deleted")])
  /\ db w1 = with_products (db w)
               (filter (fun p => negb (Product.id p =? n)) (products (db w)))
  /\ (forall p, In p (products (db w1)) <->
                In p (products (db w)) /\ Product.id p <> n)
  /\ ((forall p, In p (products (db w)) -> Product.id p <> n) -> db w1 = db w).
Proof.
  intros Hid w1. subst w1. rewrite delete_product_run, Hid. cbn [fst snd db].
  split; [reflexivity|]. split; [reflexivity|]. split.
  - intros p. cbn [products]. rewrite filter_In, negb_true_iff, Z.eqb_neq. reflexivity.
  - intros Hnone.
    replace (filter (fun p => negb (Product.id p =? n)) (products (db w)))
      with (products (db w)); [destruct (db w); reflexivity|].
    symmetry. apply forallb_filter_id. apply forallb_forall.
    intros p Hp. apply negb_true_iff, Z.eqb_neq. auto.
Qed.

(** X10.  Deleting a second time changes nothing and is answered the same. *)
Theorem delete_twice (id : string) (w : World) :
  let w1 := snd (delete_product pg id w) in
  db (snd (delete_product pg id w1)) = db w1
  /\ fst (delete_product pg id w1) = fst (delete_product pg id w).
Proof.
  intros w1. subst w1. rewrite !delete_product_run.
  destruct (int_in pg (Js.Str id)) as [n|]; cbn [fst snd db]; [|split; reflexivity].
  split; [|reflexivity]. cbn [products product_requests products_id_seq
                               product_requests_id_seq].
  f_equal. apply forallb_filter_id. apply forallb_forall.
  intros p Hp. apply filter_In in Hp. tauto.
Qed.

(** X11.  Once a product is deleted no route shows it: the category route and
    every listing answer without it, and an update under its identifier
    changes no table and, when it is answered 200, which it is as soon
    as it has a body whose price and category the store can take, it is
    answered with no body. *)
Theorem deleted_product_is_gone (id : string) (n : Z) (w : World) :
  int_in pg (Js.Str id) = Some n ->
  let w1 := snd (delete_product pg id w) in
  (forall c m, int_in pg (Js.Str c) = Some m ->
     exists ps,
       fst (get_products_by_category pg c w1) = json (Js.Arr (map Product.to_json ps))
       /\ forall p, In p ps -> Product.id p <> n)
  /\ (forall q, code (fst (get_products pg q w1)) = 200 ->
        exists ps, body (fst (get_products pg q w1)) = Js.Arr (map Product.to_json ps)
                   /\ forall p, In p ps -> Product.id p <> n)
  /\ (forall change,
        db (snd (put_product pg id change w1)) = db w1
        /\ (code (fst (put_product pg id change w1)) = 200 ->
            fst (put_product pg id change w1) = json Js.Undefined)
        /\ (Js.nullish change = false -> takes_body pg change = true ->
            code (fst (put_product pg id change w1)) = 200)).
Proof.
  intros Hid w1.
  assert (Hgone : forall p, In p (products (db w1)) -> Product.id p <> n).
  { intros p Hp. subst w1. rewrite delete_product_run, Hid in Hp.
    cbn [snd db products] in Hp. apply filter_In in Hp.
    destruct Hp as [_ Hp]. now apply negb_true_iff, Z.eqb_neq in Hp. }
  split; [|split].
  - intros c m Hm. rewrite get_products_by_category_run, Hm.
    eexists. split; [reflexivity|].
    intros p Hp. apply filter_In in Hp. apply Hgone. tauto.
  - intros q H200.
    destruct (get_products_ok pg q w1 H200) as (bs & l & o & _ & _ & _ & _ & Hbody).
    eexists. split; [exact Hbody|].
    intros p Hp. apply firstn_subset, skipn_subset in Hp.
    unfold listed, order_rows in Hp. apply sort_rows_In in Hp.
    apply filter_In in Hp. apply Hgone. tauto.
  - intros change.
    destruct (Js.nullish change) eqn:Hb.
    { destruct (put_product_refused pg id change w1 (or_introl Hb)) as (H500 & _ & Hdb).
      split; [exact Hdb|]. rewrite H500. split; intros; discriminate. }
    destruct (takes_body pg change) eqn:Ht.
    + destruct (put_product_missing pg id n change w1 Hb Ht Hid Hgone) as [Hres Hdb].
      split; [exact Hdb|]. rewrite Hres. split; reflexivity.
    + assert (Hno : (if takes_body pg change then int_in pg (Js.Str id) else None)
                    = None) by now rewrite Ht.
      destruct (put_product_refused pg id change w1 (or_intror Hno)) as (H500 & _ & Hdb).
      split; [exact Hdb|]. rewrite H500. split; intros; discriminate.
Qed.

End Routes.

(** ** Creation, submission and decision *)

Section Creation.

Variable pg : Pg.
Variable ev : Validators.















End Creation.

(** ** Submission, decision and what the products table shows of them *)

Section Decisions.

Variable pg : Pg.
Variable ev : Validators.

(** X14.  A request that was just submitted, with a price, a category and a
    user that the store can take, is in the list of requests, as it was
    answered to the submitter, next to the entries that were there
    before, each as often as before. *)
Theorem submitted_request_is_listed (input : JsVal) (w : World) :
  valid_submission ev input = true ->
  Js.nullish input = false ->
  takes_submission pg input = true ->
  let res := post_product_requests pg ev input w in
  exists before after,
    fst (get_product_requests pg w) = json (Js.Arr before)
    /\ fst (get_product_requests pg (snd res)) = json (Js.Arr after)
    /\ Permutation after (body (fst res) :: before)
    /\ In (body (fst res)) after.
Proof.
  intros Hgood Hbody Htakes res. subst res.
  unfold takes_submission in Htakes. apply andb_true_iff in Htakes.
  destruct Htakes as [Htakes _].
  rewrite (post_product_requests_run pg ev input w Hgood Hbody Htakes),
    !get_product_requests_run.
  cbn [fst snd db product_requests body json].
  eexists. eexists. split; [reflexivity|]. split; [reflexivity|].
  rewrite map_app. cbn [map]. split.
  - apply Permutation_sym, Permutation_cons_append.
  - apply in_or_app. right. now left.
Qed.



(** X17.  An identifier that the store cannot read as an integer is answered
    500 by the error middleware on each of the four routes that take
    one, and no table changes. *)
Theorem unreadable_identifier (id : string) (w : World) :
  int_in pg (Js.Str id) = None ->
  let failed (res : Response * World) :=
    code (fst res) = 500
    /\ Js.get "error" (body (fst res)) = Js.Str "Internal server error"
    /\ db (snd res) = db w in
  failed (get_products_by_category pg id w)
  /\ failed (delete_product pg id w)
  /\ (forall change, failed (put_product pg id change w))
  /\ (forall decision,
        Js.get "status" decision = Js.Str "approved"
        \/ Js.get "status" decision = Js.Str "rejected" ->
        failed (put_product_request pg id decision w)).
Proof.
  intros Hid failed. subst failed. cbv beta.
  rewrite get_products_by_category_run, delete_product_run, Hid.
  split; [repeat split|]. split; [repeat split|]. split.
  - intros change. apply put_product_refused. right.
    rewrite Hid. now destruct (takes_body pg change).
  - intros decision Hs. unfold put_product_request.
    assert (Hobj : Js.nullish decision = false)
      by (destruct Hs as [H|H]; destruct decision; try reflexivity; discriminate H).
    rewrite Hobj.
    assert (Hv : negb (Js.strict_eq_str (Js.get "status" decision) "approved")
                 && negb (Js.strict_eq_str (Js.get "status" decision) "rejected") = false)
      by (destruct Hs as [-> | ->]; reflexivity).
    rewrite Hv. unfold or_next, bind, ret, pool_query.
    rewrite parse_select_request.
    cbn [map prepareValue exec select_request]. rewrite Hid. repeat split.
Qed.

End Decisions.

(** ** What [validatePrice] lets through *)

Section Prices.

Ltac by_digit c H :=
  apply digit_cases in H;
  repeat (destruct H as [<-|H]; [|]); try contradiction.

Lemma shr_1_nonneg (r : shr_record) : 0 <= shr_m r -> 0 <= shr_m (shr_1 r).
Proof.
  destruct r as [m r s]. cbn [shr_m]. intros H.
  destruct m as [|[p|p|]|p]; cbn [shr_1 shr_m]; lia.
Qed.

Lemma shr_nonneg (r : shr_record) (e n : Z) :
  0 <= shr_m r -> 0 <= shr_m (fst (shr r e n)).
Proof.
  intros H. unfold shr. destruct n as [|p|p]; cbn [fst]; try exact H.
  rewrite iter_pos_nat.
  induction (Pos.to_nat p) as [|k IH]; [exact H|].
  change (Nat.iter (S k) shr_1 r) with (shr_1 (Nat.iter k shr_1 r)).
  now apply shr_1_nonneg.
Qed.

Lemma shr_fexp_nonneg (m e : Z) (l : location) :
  0 <= m -> 0 <= shr_m (fst (shr_fexp Js.prec Js.emax m e l)).
Proof.
  intros H. unfold shr_fexp. apply shr_nonneg.
  destruct l as [|[]]; exact H.
Qed.

Lemma round_nearest_even_nonneg (m : Z) (l : location) :
  0 <= m -> 0 <= round_nearest_even m l.
Proof.
  intros H. unfold round_nearest_even.
  destruct l as [|[]]; try lia. destruct (Z.even m); lia.
Qed.

(** Rounding a mantissa that is not negative gives a Number that is
    not NaN and not below zero. *)
Lemma round_aux_nonneg (m e : Z) (l : location) :
  0 <= m ->
  Js.is_nan (binary_round_aux Js.prec Js.emax false m e l) = false
  /\ Js.ge (binary_round_aux Js.prec Js.emax false m e l) (Js.of_Z 0) = true.
Proof.
  intros H. unfold binary_round_aux.
  pose proof (shr_fexp_nonneg m e l H) as H1.
  destruct (shr_fexp Js.prec Js.emax m e l) as [mrs1 e1]. cbn [fst] in H1.
  pose proof (shr_fexp_nonneg _ e1 loc_Exact
                (round_nearest_even_nonneg _ (loc_of_shr_record mrs1) H1)) as H2.
  destruct (shr_fexp Js.prec Js.emax _ e1 loc_Exact) as [mrs2 e2]. cbn [fst] in H2.
  destruct (shr_m mrs2) as [|p|p]; [split; reflexivity| |lia].
  destruct (e2 <=? Js.emax - Js.prec); split; reflexivity.
Qed.

Lemma of_Z_nonneg (v : Z) :
  0 <= v -> Js.is_nan (Js.of_Z v) = false /\ Js.ge (Js.of_Z v) (Js.of_Z 0) = true.
Proof.
  intros H. destruct v as [|p|p]; [split; reflexivity| |lia].
  unfold Js.of_Z, binary_normalize, binary_round.
  destruct (shl_align p 0 _) as [mz ez]. now apply round_aux_nonneg.
Qed.

(** The Number that a decimal literal without a sign denotes is not NaN
    and not below zero. *)
Lemma decimal_nonneg (m e : Z) :
  0 <= m ->
  Js.is_nan (Js.decimal false m e) = false
  /\ Js.ge (Js.decimal false m e) (Js.of_Z 0) = true.
Proof.
  intros H. unfold Js.decimal.
  destruct m as [|p|p]; [split; reflexivity| |lia].
  destruct e as [|k|k].
  - apply of_Z_nonneg. lia.
  - apply of_Z_nonneg. apply Z.mul_nonneg_nonneg; [lia|]. apply Z.pow_nonneg. lia.
  - unfold SFdiv, SFdiv_core_binary.
    set (m' := match _ with Zpos _ => _ | Z0 => _ | Zneg _ => _ end).
    assert (Hm' : 0 <= m').
    { subst m'. destruct (_ - _ - _) as [|s|s]; try lia.
      apply Z.shiftl_nonneg. lia. }
    pose proof (Z_div_mod m' (Zpos (10 ^ k)) eq_refl) as Hdiv.
    destruct (Z.div_eucl m' (Zpos (10 ^ k))) as [q r].
    cbn [xorb]. apply round_aux_nonneg. nia.
Qed.

(** [trim_end] leaves a text that ends in a digit or a point. *)
Lemma trim_end_point (b : string) :
  all_digits b = true -> Js.trim_end (String "." b) = String "." b.
Proof.
  intros H. cbn [Js.trim_end]. rewrite (trim_end_digits b H).
  destruct b; reflexivity.
Qed.

Lemma trim_end_decimal (a b : string) :
  all_digits a = true -> all_digits b = true ->
  Js.trim_end (a ++ String "." b) = a ++ String "." b.
Proof.
  intros Ha Hb. induction a as [|c a IH]; [now apply trim_end_point|].
  cbn [all_digits] in Ha. apply andb_true_iff in Ha. destruct Ha as [_ Ha].
  cbn [append Js.trim_end]. rewrite (IH Ha).
  destruct a; reflexivity.
Qed.

Lemma trim_start_decimal (a b : string) :
  all_digits a = true -> Js.trim_start (a ++ String "." b) = a ++ String "." b.
Proof.
  destruct a as [|c a]; [reflexivity|]. cbn [all_digits]. intros H.
  apply andb_true_iff in H. destruct H as [Hc _]. by_digit c Hc; reflexivity.
Qed.

Lemma radix_literal_decimal (a b : string) :
  all_digits a = true -> Js.radix_literal (a ++ String "." b) = None.
Proof.
  destruct a as [|c [|d a]]; [reflexivity| |].
  - cbn [all_digits]. intros H. apply andb_true_iff in H. destruct H as [Hc _].
    by_digit c Hc; reflexivity.
  - cbn [all_digits]. intros H.
    apply andb_true_iff in H. destruct H as [Hc H].
    apply andb_true_iff in H. destruct H as [Hd _].
    by_digit c Hc; try reflexivity. by_digit d Hd; reflexivity.
Qed.

Lemma digits_until_point (a b : string) :
  all_digits a = true ->
  forall acc n, Js.digits 10 (a ++ String "." b) acc n
                = (decimal_value acc a, n + Z.of_nat (String.length a), String "." b).
Proof.
  induction a as [|c a IH]; intros H acc n.
  - cbn. now rewrite Z.add_0_r.
  - cbn [all_digits] in H. apply andb_true_iff in H. destruct H as [Hc Ha].
    cbn [append Js.digits decimal_value String.length].
    rewrite (digit_of_digit c Hc), (IH Ha). f_equal. f_equal. lia.
Qed.

Lemma scan_decimal_unsigned (s : string) :
  match s with
  | String c _ => is_digit c = true \/ c = "."%char
  | EmptyString => False
  end ->
  Js.scan_decimal s
  = let '(i, ni, s2) := Js.digits 10 s 0 0 in
    let '(m, nf, s3) :=
      match s2 with
      | String "." t =>
          let '(m, nf, s3) := Js.digits 10 t i 0 in
          if (ni =? 0) && (nf =? 0) then (i, 0, s2) else (m, nf, s3)
      | _ => (i, 0, s2)
      end in
    if (ni =? 0) && (nf =? 0) then None
    else let '(e, s4) := Js.exponent_part s3 in
         Some (Js.decimal false m (e - nf), s4).
Proof.
  destruct s as [|c s]; [contradiction|].
  intros [Hc| ->]; [by_digit c Hc|]; reflexivity.
Qed.

(** A text of digits, a point and digits, with a digit somewhere, read by
    the scanner: all of it is the literal, and the literal has no sign. *)
Lemma scan_decimal_point (a b : string) :
  all_digits a = true -> all_digits b = true ->
  a <> EmptyString \/ b <> EmptyString ->
  exists m e, 0 <= m
    /\ Js.scan_decimal (a ++ String "." b) = Some (Js.decimal false m e, EmptyString).
Proof.
  intros Ha Hb Hne.
  rewrite scan_decimal_unsigned.
  2:{ destruct a as [|c a]; [now right|]. left.
      cbn [all_digits] in Ha. now apply andb_true_iff in Ha. }
  rewrite (digits_until_point a b Ha), (digits_all b Hb).
  assert (Hlen : (0 + Z.of_nat (String.length a) =? 0)
                 && (0 + Z.of_nat (String.length b) =? 0) = false).
  { apply andb_false_iff.
    destruct Hne as [H|H]; [left|right]; apply Z.eqb_neq;
      [destruct a | destruct b]; cbn [String.length]; try congruence; lia. }
  rewrite Hlen. cbn [Js.exponent_part]. rewrite ?Hlen.
  eexists. eexists. split; [|reflexivity].
  apply (decimal_value_nonneg b Hb). now apply (decimal_value_nonneg a Ha).
Qed.

(** X20.  [validatePrice] lets through every price written in decimal digits,
    with or without a fraction, however long. *)
Theorem validatePrice_accepts_decimals (a b : string) :
  all_digits a = true -> all_digits b = true ->
  (a <> EmptyString -> validatePrice a = true)
  /\ (a <> EmptyString \/ b <> EmptyString -> validatePrice (a ++ "." ++ b) = true).
Proof.
  intros Ha Hb. split.
  - intros Hne. unfold validatePrice, Js.isNaN, Js.parseFloat.
    rewrite (StringToNumber_digits a Ha Hne), (trim_start_digits a Ha).
    destruct a as [|c a]; [congruence|].
    rewrite (scan_decimal_digits c a Ha).
    destruct (of_Z_nonneg _ (decimal_value_nonneg _ Ha 0 (Z.le_refl 0))) as [-> ->].
    reflexivity.
  - intros Hne. change (a ++ "." ++ b) with (a ++ String "." b).
    destruct (scan_decimal_point a b Ha Hb Hne) as (m & e & Hm & Hscan).
    unfold validatePrice, Js.isNaN, Js.parseFloat, Js.StringToNumber.
    rewrite (trim_start_decimal a b Ha), (trim_end_decimal a b Ha Hb),
      (radix_literal_decimal a b Ha), Hscan.
    destruct (decimal_nonneg m e Hm) as [Hnan Hge].
    destruct (a ++ String "." b) eqn:Es; [destruct a; discriminate Es|].
    now rewrite Hnan, Hge.
Qed.

Lemma round_aux_opp (m e : Z) (l : location) :
  binary_round_aux Js.prec Js.emax true m e l
  = SFopp (binary_round_aux Js.prec Js.emax false m e l).
Proof.
  unfold binary_round_aux.
  destruct (shr_fexp Js.prec Js.emax m e l) as [mrs1 e1].
  destruct (shr_fexp Js.prec Js.emax _ e1 loc_Exact) as [mrs2 e2].
  destruct (shr_m mrs2); [reflexivity| |reflexivity].
  destruct (e2 <=? Js.emax - Js.prec); reflexivity.
Qed.

Lemma shr_1_half (r : shr_record) : 0 <= shr_m r -> shr_m (shr_1 r) = shr_m r / 2.
Proof.
  destruct r as [m r s]. cbn [shr_m]. intros H.
  rewrite <- Z.div2_div.
  destruct m as [|[p|p|]|p]; try reflexivity. lia.
Qed.

Lemma shr_iter_div (n : nat) (r : shr_record) :
  0 <= shr_m r -> shr_m (Nat.iter n shr_1 r) = shr_m r / 2 ^ Z.of_nat n.
Proof.
  intros H. induction n as [|n IH]; [now rewrite Z.div_1_r|].
  change (Nat.iter (S n) shr_1 r) with (shr_1 (Nat.iter n shr_1 r)).
  rewrite shr_1_half.
  - rewrite IH, Z.div_div, Nat2Z.inj_succ, Z.pow_succ_r by lia.
    f_equal. ring.
  - rewrite IH. apply Z.div_pos; lia.
Qed.

Lemma shr_m_shr (r : shr_record) (e n : Z) :
  0 <= shr_m r -> 0 <= n -> shr_m (fst (shr r e n)) = shr_m r / 2 ^ n.
Proof.
  intros H Hn. unfold shr. destruct n as [|k|k]; cbn [fst].
  - now rewrite Z.div_1_r.
  - rewrite iter_pos_nat, shr_iter_div by exact H. now rewrite positive_nat_Z.
  - lia.
Qed.

Lemma bits_bounds (k : positive) :
  2 ^ (Z.of_nat (bits k) - 1) <= Zpos k < 2 ^ Z.of_nat (bits k).
Proof.
  unfold bits. rewrite positive_nat_Z, digits2_size.
  pose proof (size_pow_le k) as Hle. pose proof (Pos.size_gt k) as Hgt.
  apply Pos2Z.pos_lt_pos in Hgt. rewrite Pos2Z.inj_pow in Hgt.
  split; [|exact Hgt].
  replace (2 ^ Zpos (Pos.size k)) with (2 * 2 ^ (Zpos (Pos.size k) - 1)) in Hle
    by (rewrite <- Z.pow_succ_r by lia; f_equal; lia).
  lia.
Qed.

Lemma Zdigits2_le (m n : Z) : 0 < m < 2 ^ n -> 0 <= n -> Zdigits2 m <= n.
Proof.
  intros [H0 H] Hn. destruct m as [|k|k]; try lia. cbn [Zdigits2].
  pose proof (bits_bounds k) as [Hlo _]. unfold bits in Hlo.
  rewrite positive_nat_Z in Hlo.
  destruct (Z_le_gt_dec (Zpos (digits2_pos k)) n) as [Hle|Hgt]; [exact Hle|].
  exfalso.
  assert (2 ^ n <= 2 ^ (Zpos (digits2_pos k) - 1)) by (apply Z.pow_le_mono_r; lia).
  lia.
Qed.

(** An integer of more than 53 bits rounds to a Number that is not zero
    and not NaN. *)
Lemma round_aux_large (k : positive) :
  (53 < bits k)%nat ->
  match binary_round_aux Js.prec Js.emax false (Zpos k) 0 loc_Exact with
  | S754_finite false _ _ | S754_infinity false => True
  | _ => False
  end.
Proof.
  intros Hk. pose proof (bits_bounds k) as [Hlo Hhi].
  set (d := Z.of_nat (bits k)) in *.
  assert (Hd : 53 < d) by (unfold d; lia).
  unfold binary_round_aux, shr_fexp. cbn [shr_record_of_loc].
  replace (Zdigits2 (Zpos k) + 0) with d
    by (unfold d, bits; cbn [Zdigits2]; rewrite positive_nat_Z; lia).
  assert (Hf : fexp Js.prec Js.emax d - 0 = d - 53)
    by (unfold fexp, emin, Js.prec, Js.emax; lia).
  rewrite Hf.
  pose proof (shr_m_shr (Build_shr_record (Zpos k) false false) 0 (d - 53)) as Hm1.
  cbn [shr_m] in Hm1. specialize (Hm1 ltac:(lia) ltac:(lia)).
  assert (He1 : snd (shr (Build_shr_record (Zpos k) false false) 0 (d - 53)) = d - 53)
    by (unfold shr; destruct (d - 53) eqn:E; cbn [snd]; lia).
  destruct (shr (Build_shr_record (Zpos k) false false) 0 (d - 53)) as [mrs1 e1].
  cbn [fst snd] in Hm1, He1. subst e1.
  assert (Hpow : 2 ^ (d - 1) = 2 ^ 52 * 2 ^ (d - 53))
    by (rewrite <- Z.pow_add_r by lia; f_equal; lia).
  assert (Hpow' : 2 ^ d = 2 ^ 53 * 2 ^ (d - 53))
    by (rewrite <- Z.pow_add_r by lia; f_equal; lia).
  assert (Hp0 : 0 < 2 ^ (d - 53)) by (apply Z.pow_pos_nonneg; lia).
  assert (H1 : 2 ^ 52 <= shr_m mrs1 < 2 ^ 53).
  { rewrite Hm1. split.
    - apply Z.div_le_lower_bound; [exact Hp0|]. rewrite Z.mul_comm. lia.
    - apply Z.div_lt_upper_bound; [exact Hp0|]. rewrite Z.mul_comm. lia. }
  set (m2 := round_nearest_even (shr_m mrs1) (loc_of_shr_record mrs1)).
  assert (H2 : 2 ^ 52 <= m2 <= 2 ^ 53).
  { unfold m2, round_nearest_even.
    destruct (loc_of_shr_record mrs1) as [|[]]; try lia.
    destruct (Z.even (shr_m mrs1)); lia. }
  assert (Hd2 : Zdigits2 m2 <= 54).
  { apply Zdigits2_le; [|lia]. change (2 ^ 54) with (2 * 2 ^ 53). lia. }
  set (n2 := fexp Js.prec Js.emax (Zdigits2 m2 + (d - 53)) - (d - 53)).
  assert (Hn2 : n2 <= 1) by (unfold n2, fexp, emin, Js.prec, Js.emax; lia).
  assert (H3 : 0 < shr_m (fst (shr (Build_shr_record m2 false false) (d - 53) n2))).
  { destruct (Z_le_gt_dec n2 0) as [Hle|Hgt].
    - unfold shr. destruct n2 as [|q|q]; cbn [fst shr_m]; lia.
    - replace n2 with 1 by lia.
      rewrite shr_m_shr by (cbn [shr_m]; lia). cbn [shr_m].
      apply Z.div_str_pos. change (2 ^ 1) with 2. lia. }
  destruct (shr (Build_shr_record m2 false false) (d - 53) n2) as [mrs2 e2].
  cbn [fst] in H3.
  destruct (shr_m mrs2) as [|q|q]; try lia.
  destruct (e2 <=? Js.emax - Js.prec); exact I.
Qed.

(** A negative integer is a Number below zero, whatever its size. *)
Lemma negative_below_zero (k : positive) :
  Js.ge (Js.of_Z (Zneg k)) (Js.of_Z 0) = false.
Proof.
  destruct (le_gt_dec (bits k) 53) as [Hle|Hgt].
  - pose proof (of_Z_pos k Hle) as Hpos.
    unfold Js.of_Z, binary_normalize, binary_round in *.
    destruct (shl_align k 0 _) as [mz ez].
    rewrite round_aux_opp, Hpos. reflexivity.
  - unfold Js.of_Z, binary_normalize, binary_round, shl_align.
    replace (Zpos (digits2_pos k) + 0) with (Z.of_nat (bits k))
      by (unfold bits; rewrite positive_nat_Z; lia).
    assert (Hf : fexp Js.prec Js.emax (Z.of_nat (bits k)) - 0 = Z.of_nat (bits k) - 53)
      by (unfold fexp, emin, Js.prec, Js.emax; lia).
    rewrite Hf.
    destruct (Z.of_nat (bits k) - 53) as [|q|q] eqn:E; try lia.
    rewrite round_aux_opp.
    pose proof (round_aux_large k Hgt) as Hl.
    destruct (binary_round_aux Js.prec Js.emax false (Zpos k) 0 loc_Exact)
      as [[]|[]| |[] m e]; try contradiction; reflexivity.
Qed.

(** X21.  [validatePrice] refuses every negative integer written in decimal
    digits, however long; [-0] is not one of them. *)
Theorem validatePrice_rejects_negatives (d : string) :
  all_digits d = true -> 0 < decimal_value 0 d ->
  validatePrice ("-" ++ d) = false.
Proof.
  intros Hd Hv.
  assert (Hscan : Js.scan_decimal (String "-" d)
                  = Some (Js.of_Z (- decimal_value 0 d), EmptyString)).
  { destruct d as [|c d]; [cbn in Hv; lia|].
    pose proof (digits_all _ Hd 0 0) as Hdig.
    assert (Hs : Js.scan_decimal (String "-" (String c d))
                 = let '(i, ni, s2) := Js.digits 10 (String c d) 0 0 in
                   let '(m, nf, s3) :=
                     match s2 with
                     | String "." t =>
                         let '(m, nf, s3) := Js.digits 10 t i 0 in
                         if (ni =? 0) && (nf =? 0) then (i, 0, s2) else (m, nf, s3)
                     | _ => (i, 0, s2)
                     end in
                   if (ni =? 0) && (nf =? 0) then None
                   else let '(e, s4) := Js.exponent_part s3 in
                        Some (Js.decimal true m (e - nf), s4)).
    { cbn [all_digits] in Hd. apply andb_true_iff in Hd. destruct Hd as [Hc _].
      by_digit c Hc; reflexivity. }
    rewrite Hs, Hdig. cbn [String.length].
    replace (0 + Z.of_nat (S (String.length d)) =? 0) with false
      by (symmetry; apply Z.eqb_neq; lia).
    cbn [andb Js.exponent_part]. f_equal. f_equal.
    unfold Js.decimal. change (0 - 0) with 0.
    destruct (decimal_value 0 (String c d)) as [|k|k]; try lia.
    change (10 ^ 0) with 1. now rewrite Z.mul_1_r. }
  unfold validatePrice, Js.parseFloat.
  change (Js.trim_start ("-" ++ d)) with (String "-" d). rewrite Hscan.
  destruct (decimal_value 0 d) as [|k|k]; try lia.
  change (- Zpos k) with (Zneg k). rewrite negative_below_zero.
  apply andb_false_r.
Qed.

End Prices.

(** ** Page zero, and the search with wild cards *)

Section Edges.

Variable pg : Pg.

Lemma of_Z_opp (k : positive) : Js.of_Z (Zneg k) = SFopp (Js.of_Z (Zpos k)).
Proof.
  unfold Js.of_Z, binary_normalize, binary_round.
  destruct (shl_align k 0 _) as [mz ez]. apply round_aux_opp.
Qed.

Lemma mul_minus_one (l : Z) :
  0 < l < 2 ^ 53 -> Js.mul (Js.of_Z (-1)) (Js.of_Z l) = Js.of_Z (- l).
Proof.
  intros Hl. destruct l as [|k|k]; try lia.
  change (- Zpos k) with (Zneg k). rewrite (of_Z_opp k).
  pose proof (mul_of_Z 1 (Zpos k) ltac:(lia) ltac:(lia) ltac:(lia)) as Hone.
  replace (1 * Zpos k) with (Zpos k) in Hone by lia.
  apply (eq_trans (y := SFopp (Js.mul (Js.of_Z 1) (Js.of_Z (Zpos k)))));
    [|exact (f_equal SFopp Hone)].
  assert (Hk : (bits k <= 53)%nat) by (apply bits_le; change (Z.of_nat 53) with 53; lia).
  assert (Hm : Js.of_Z (-1) = S754_finite true 4503599627370496 (-52))
    by (vm_compute; reflexivity).
  assert (Hp : Js.of_Z 1 = S754_finite false 4503599627370496 (-52))
    by (vm_compute; reflexivity).
  rewrite (of_Z_pos k Hk), Hm, Hp. unfold int_float, Js.mul, SFmul.
  cbn [xorb]. apply round_aux_opp.
Qed.

(** X22.  [page=0] with a positive limit: the offset is the negative of the
    limit, the store refuses it, and the answer is 500. *)
Theorem listing_page_zero (q : Listing.query) (l : Z) (w : World) :
  count_of (Listing.page q) 1 = Some 0 ->
  count_of (Listing.limit q) 10 = Some l ->
  0 < l < 2 ^ 53 ->
  int_in pg (Js.Num (Js.of_Z (- l))) = Some (- l) ->
  rejected_price (Listing.min_price q) = false ->
  rejected_price (Listing.max_price q) = false ->
  spec_offset q = Js.of_Z (- l)
  /\ code (fst (get_products pg q w)) = 500
  /\ db (snd (get_products pg q w)) = db w.
Proof.
  intros Hp Hl Hr Hin Hmin Hmax.
  assert (Hoff : spec_offset q = Js.of_Z (- l)).
  { unfold spec_offset, spec_page, spec_limit.
    rewrite (count_of_number _ _ _ Hp), (count_of_number _ _ _ Hl).
    assert (Hsub : Js.sub (Js.of_Z 0) (Js.of_Z 1) = Js.of_Z (-1))
      by (vm_compute; reflexivity).
    rewrite Hsub.
    now apply mul_minus_one. }
  split; [exact Hoff|]. split; [|apply get_products_db].
  destruct (get_products_code pg q w Hmin Hmax) as [H200|H500]; [|exact H500].
  exfalso.
  destruct (get_products_ok pg q w H200) as (bs & n & o & _ & _ & Ho & _).
  rewrite Hoff, Hin in Ho. injection Ho as Ho. lia.
Qed.

Lemma lower_ascii_escape (c : ascii) :
  Ascii.eqb c backslash = false -> Ascii.eqb (lower_ascii c) backslash = false.
Proof.
  intros H. unfold lower_ascii.
  destruct ((65 <=? nat_of_ascii c) && (nat_of_ascii c <=? 90))%nat eqn:E; [|exact H].
  apply andb_true_iff in E. destruct E as [E1 E2].
  apply Nat.leb_le in E1, E2.
  assert (Hc : exists k, (k <= 25)%nat /\ nat_of_ascii c = (65 + k)%nat)
    by (exists (nat_of_ascii c - 65)%nat; lia).
  destruct Hc as (k & Hk & ->).
  do 26 (destruct k as [|k]; [reflexivity|]). lia.
Qed.

Lemma lower_no_escape (s : string) : no_escape s = true -> no_escape (lower s) = true.
Proof.
  induction s as [|c s IH]; simpl; [reflexivity|]. intros H.
  apply andb_true_iff in H. destruct H as [Hc Hs].
  apply negb_true_iff in Hc.
  rewrite (lower_ascii_escape c Hc). simpl. auto.
Qed.

(** A pattern without backslash matches itself, wild cards included. *)
Lemma like_itself (p rest t : string) :
  no_escape p = true -> like rest t = true -> like (p ++ rest) (p ++ t) = true.
Proof.
  intros Hp Hrest. induction p as [|c p IH]; [exact Hrest|].
  cbn [no_escape] in Hp. apply andb_true_iff in Hp. destruct Hp as [Hc Hp].
  apply negb_true_iff in Hc. specialize (IH Hp).
  change (String c p ++ rest) with (String c (p ++ rest)).
  change (String c p ++ t) with (String c (p ++ t)).
  destruct (Ascii.eqb c "%") eqn:E1.
  - apply Ascii.eqb_eq in E1. subst c.
    rewrite like_percent. apply orb_true_iff. right.
    rewrite like_percent. apply orb_true_iff. left. exact IH.
  - destruct (Ascii.eqb c "_") eqn:E2.
    + cbn [like]. rewrite E1, E2. exact IH.
    + cbn [like]. rewrite E1, E2, Hc, Ascii.eqb_refl. exact IH.
Qed.

Lemma like_skip (p a t : string) :
  like (String "%" p) t = true -> like (String "%" p) (a ++ t) = true.
Proof.
  intros H. induction a as [|c a IH]; [exact H|].
  change (String c a ++ t) with (String c (a ++ t)).
  rewrite like_percent, IH. apply orb_true_r.
Qed.

Lemma ilike_contains (s t : string) :
  no_escape s = true -> contains_ci s t -> ilike ("%" ++ s ++ "%") t = true.
Proof.
  intros Hs (a & m & b & -> & Hm). unfold ilike.
  rewrite !lower_append, Hm. change (lower "%") with "%".
  change ("%" ++ lower s ++ "%") with (String "%" (lower s ++ "%")).
  apply like_skip. rewrite like_percent. apply orb_true_iff. left.
  apply like_itself; [now apply lower_no_escape | apply like_any].
Qed.

(** X23.  Wild cards only add answers: whatever the query string holds of [%]
    and [_], as long as it holds no backslash, the search returns every
    product whose name or description contains it when case is ignored. *)
Theorem search_finds_what_contains (s : string) (p : Product.t) (t : string)
        (w : World) :
  s <> EmptyString -> no_escape s = true ->
  In p (products (db w)) ->
  as_text pg (Product.name p) = Some t \/ as_text pg (Product.description p) = Some t ->
  contains_ci s t ->
  exists ps,
    fst (get_products_search pg (Some s) w) = json (Js.Arr (map Product.to_json ps))
    /\ In p ps.
Proof.
  intros Hne Hs Hin Ht Hc.
  eexists. split.
  - unfold get_products_search, present.
    apply String.eqb_neq in Hne. rewrite Hne. cbn [negb text_default].
    unfold or_next, bind, ret, pool_query. rewrite parse_search.
    cbn [map prepareValue exec search_products as_text]. reflexivity.
  - apply filter_In. split; [exact Hin|]. apply orb_true_iff.
    pose proof (ilike_contains s t Hs Hc) as Hlike.
    destruct Ht as [Ht|Ht]; [left|right]; unfold matches; now rewrite Ht.
Qed.

(** X24.  A [category_id] that the store cannot read as an integer is not
    refused as a malformed price is: the statement is sent, the store
    raises, and the answer is 500. *)
Theorem listing_unreadable_category (q : Listing.query) (c : string) (w : World) :
  Listing.category_id q = Some c -> c <> EmptyString ->
  int_in pg (Js.Str c) = None ->
  rejected_price (Listing.min_price q) = false ->
  rejected_price (Listing.max_price q) = false ->
  code (fst (get_products pg q w)) = 500
  /\ db (snd (get_products pg q w)) = db w
  /\ sent (snd (get_products pg q w)) = (sent w ++ [build_listing q])%list.
Proof.
  intros Hc Hne Hin Hmin Hmax.
  split; [|split; [apply get_products_db | now apply get_products_sent]].
  destruct (get_products_code pg q w Hmin Hmax) as [H200|H500]; [|exact H500].
  exfalso.
  destruct (get_products_ok pg q w H200) as (bs & n & o & Hbs & _).
  unfold active_filters in Hbs. rewrite Hc in Hbs. unfold active at 1 in Hbs.
  apply String.eqb_neq in Hne. rewrite Hne in Hbs.
  cbn [app bounds_of bound_of] in Hbs. rewrite Hin in Hbs. discriminate Hbs.
Qed.


End Edges.

(** ** The order of a listing, and the earlier update *)

Section Order.

Variable pg : Pg.

Lemma ordered_tail (le : Product.t -> Product.t -> bool) (a : Product.t)
      (l : list Product.t) :
  ordered le (a :: l) = true -> ordered le l = true.
Proof.
  destruct l as [|b l]; [reflexivity|]. cbn [ordered]. intros H.
  apply andb_true_iff in H. tauto.
Qed.

Lemma ordered_cons (le : Product.t -> Product.t -> bool) (a : Product.t)
      (l : list Product.t) :
  ordered le l = true ->
  match l with b :: _ => le a b = true | [] => True end ->
  ordered le (a :: l) = true.
Proof.
  destruct l as [|b l]; [reflexivity|]. cbn [ordered]. intros H1 H2.
  now rewrite H2.
Qed.

Lemma insert_row_ordered (le : Product.t -> Product.t -> bool) (x : Product.t)
      (l : list Product.t) :
  (forall a b, le a b = true \/ le b a = true) ->
  ordered le l = true -> ordered le (insert_row le x l) = true.
Proof.
  intros Htotal. induction l as [|y l IH]; intros H; [reflexivity|].
  cbn [insert_row]. destruct (le x y) eqn:E.
  - apply ordered_cons; assumption.
  - assert (Hyx : le y x = true) by (destruct (Htotal x y); congruence).
    specialize (IH (ordered_tail _ _ _ H)).
    apply ordered_cons; [exact IH|].
    destruct l as [|z l]; cbn [insert_row]; [exact Hyx|].
    destruct (le x z); [exact Hyx|].
    cbn [ordered] in H. apply andb_true_iff in H. tauto.
Qed.

Lemma sort_rows_ordered (le : Product.t -> Product.t -> bool) (l : list Product.t) :
  (forall a b, le a b = true \/ le b a = true) ->
  ordered le (sort_rows le l) = true.
Proof.
  intros Htotal. induction l as [|x l IH]; [reflexivity|].
  cbn [sort_rows]. now apply insert_row_ordered.
Qed.

Lemma insert_row_perm (le : Product.t -> Product.t -> bool) (x : Product.t)
      (l : list Product.t) :
  Permutation (insert_row le x l) (x :: l).
Proof.
  induction l as [|y l IH]; [apply Permutation_refl|].
  cbn [insert_row]. destruct (le x y); [apply Permutation_refl|].
  apply (perm_trans (perm_skip y IH)). apply perm_swap.
Qed.

Lemma sort_rows_perm (le : Product.t -> Product.t -> bool) (l : list Product.t) :
  Permutation (sort_rows le l) l.
Proof.
  induction l as [|x l IH]; [apply perm_nil|].
  cbn [sort_rows]. apply (perm_trans (insert_row_perm le x _)).
  now apply perm_skip.
Qed.

Lemma ordered_skipn (le : Product.t -> Product.t -> bool) (n : nat)
      (l : list Product.t) :
  ordered le l = true -> ordered le (skipn n l) = true.
Proof.
  revert l. induction n as [|n IH]; intros l H; [exact H|].
  destruct l as [|a l]; [reflexivity|]. cbn [skipn].
  apply IH. exact (ordered_tail _ _ _ H).
Qed.

Lemma ordered_firstn (le : Product.t -> Product.t -> bool) (n : nat)
      (l : list Product.t) :
  ordered le l = true -> ordered le (firstn n l) = true.
Proof.
  revert l. induction n as [|n IH]; intros l H; [reflexivity|].
  destruct l as [|a l]; [reflexivity|]. cbn [firstn].
  specialize (IH l (ordered_tail _ _ _ H)).
  apply ordered_cons; [exact IH|].
  destruct l as [|b l]; [destruct n; exact I|].
  destruct n as [|n]; [exact I|]. cbn [firstn].
  cbn [ordered] in H. apply andb_true_iff in H. tauto.
Qed.

(** X26.  When the store's comparison on the sort column is total, the rows of
    a listing come in the order asked for, and the rows that the pages
    are cut from are the matching products, each once: sorting loses and
    repeats nothing, so a limit that covers them all shows them all. *)
Theorem listing_sorted (q : Listing.query) (w : World) :
  code (fst (get_products pg q w)) = 200 ->
  (forall a b, asked_order pg q a b = true \/ asked_order pg q b a = true) ->
  exists bs l o rows,
    bounds_of pg (active_filters q) = Some bs
    /\ body (fst (get_products pg q w)) = Js.Arr (map Product.to_json rows)
    /\ rows = firstn l (skipn o (listed pg q bs (db w)))
    /\ ordered (asked_order pg q) rows = true
    /\ Permutation (listed pg q bs (db w))
                   (filter (fun p => forallb (fun b => holds pg b p) bs)
                           (products (db w)))
    /\ (o = 0%nat -> (List.length (listed pg q bs (db w)) <= l)%nat ->
        Permutation rows
                    (filter (fun p => forallb (fun b => holds pg b p) bs)
                            (products (db w)))).
Proof.
  intros H200 Htotal.
  destruct (get_products_ok pg q w H200) as (bs & l & o & Hbs & _ & _ & _ & Hbody).
  exists bs, l, o, (firstn l (skipn o (listed pg q bs (db w)))).
  assert (Hperm : Permutation (listed pg q bs (db w))
                    (filter (fun p => forallb (fun b => holds pg b p) bs)
                            (products (db w))))
    by (unfold listed, order_rows; apply sort_rows_perm).
  assert (Hord : ordered (asked_order pg q) (listed pg q bs (db w)) = true).
  { unfold listed, order_rows.
    replace (asked_order pg q)
      with (fun a b : Product.t =>
              if String.eqb (lower (text_default (Listing.order q) "ASC")) "desc"
              then row_le pg (text_default (Listing.sort_by q) "id") b a
              else row_le pg (text_default (Listing.sort_by q) "id") a b)
      by reflexivity.
    apply sort_rows_ordered. exact Htotal. }
  split; [exact Hbs|]. split; [exact Hbody|]. split; [reflexivity|].
  split; [now apply ordered_firstn, ordered_skipn|].
  split; [exact Hperm|].
  intros -> Hlen. cbn [skipn]. now rewrite firstn_all2.
Qed.

Lemma ordered_least (le : Product.t -> Product.t -> bool) (a : Product.t)
      (l : list Product.t) :
  (forall x y z, le x y = true -> le y z = true -> le x z = true) ->
  ordered le (a :: l) = true -> forall b, In b l -> le a b = true.
Proof.
  intros Htrans. revert a. induction l as [|c l IH]; intros a H b Hb; [contradiction|].
  cbn [ordered] in H. apply andb_true_iff in H. destruct H as [Hac H].
  destruct Hb as [<-|Hb]; [exact Hac|].
  apply (Htrans a c b Hac). now apply IH.
Qed.

(** Under an order in which no two rows tie, the rows have one ordered
    arrangement. *)
Lemma ordered_unique (le : Product.t -> Product.t -> bool) (l1 l2 : list Product.t) :
  (forall x y z, le x y = true -> le y z = true -> le x z = true) ->
  (forall x y, In x l1 -> In y l1 -> le x y = true -> le y x = true -> x = y) ->
  Permutation l1 l2 ->
  ordered le l1 = true -> ordered le l2 = true -> l1 = l2.
Proof.
  intros Htrans. revert l2.
  induction l1 as [|a t1 IH]; intros l2 Hanti Hperm H1 H2.
  - apply Permutation_nil in Hperm. now subst.
  - destruct l2 as [|b t2];
      [apply Permutation_sym, Permutation_nil in Hperm; discriminate|].
    assert (Hab : a = b).
    { assert (Ha : In a (b :: t2))
        by (apply (Permutation_in a Hperm); now left).
      assert (Hb : In b (a :: t1))
        by (apply (Permutation_in b (Permutation_sym Hperm)); now left).
      destruct Ha as [->|Ha]; [reflexivity|].
      destruct Hb as [<-|Hb]; [reflexivity|].
      apply Hanti; [now left | now right | |].
      - exact (ordered_least le a t1 Htrans H1 b Hb).
      - exact (ordered_least le b t2 Htrans H2 a Ha). }
    subst b. f_equal. apply IH.
    + intros x y Hx Hy. apply Hanti; now right.
    + exact (Permutation_cons_inv Hperm).
    + exact (ordered_tail _ _ _ H1).
    + exact (ordered_tail _ _ _ H2).
Qed.

(** X2.  When the order asked for is total and transitive and no two
    products tie in it, the matching products have one arrangement in
    that order, and two consecutive pages of the same listing are two
    consecutive windows of it: nothing is skipped and nothing comes
    twice. *)
Theorem listing_pages (q : Listing.query) (next : string) (w : World) (p l : Z) :
  count_of (Listing.page q) 1 = Some p ->
  count_of (Some next) 1 = Some (p + 1) ->
  count_of (Listing.limit q) 10 = Some l ->
  1 <= p -> p * l < 2 ^ 53 -> p + 1 < 2 ^ 53 -> l < 2 ^ 53 ->
  int_in pg (limit_value q) = Some l ->
  int_in pg (Js.Num (Js.of_Z ((p - 1) * l))) = Some ((p - 1) * l) ->
  int_in pg (Js.Num (Js.of_Z (p * l))) = Some (p * l) ->
  code (fst (get_products pg q w)) = 200 ->
  code (fst (get_products pg (with_page q (Some next)) w)) = 200 ->
  (forall a b, asked_order pg q a b = true \/ asked_order pg q b a = true) ->
  (forall a b c, asked_order pg q a b = true -> asked_order pg q b c = true ->
                 asked_order pg q a c = true) ->
  (forall a b, In a (products (db w)) -> In b (products (db w)) ->
               asked_order pg q a b = true -> asked_order pg q b a = true -> a = b) ->
  exists bs rows,
    bounds_of pg (active_filters q) = Some bs
    /\ Permutation rows
                   (filter (fun p => forallb (fun b => holds pg b p) bs)
                           (products (db w)))
    /\ ordered (asked_order pg q) rows = true
    /\ (forall rows',
          Permutation rows'
                      (filter (fun p => forallb (fun b => holds pg b p) bs)
                              (products (db w))) ->
          ordered (asked_order pg q) rows' = true -> rows' = rows)
    /\ body (fst (get_products pg q w))
       = Js.Arr (map Product.to_json
                   (firstn (Z.to_nat l) (skipn (Z.to_nat ((p - 1) * l)) rows)))
    /\ body (fst (get_products pg (with_page q (Some next)) w))
       = Js.Arr (map Product.to_json
                   (firstn (Z.to_nat l)
                      (skipn (Z.to_nat ((p - 1) * l) + Z.to_nat l) rows))).
Proof.
  intros Hp Hnext Hl Hp1 Hpl Hp53 Hl53 Hlim Ho1 Ho2 H1 H2 Htotal Htrans Hanti.
  assert (Hl0 : 0 <= l).
  { unfold count_of in Hl. destruct (Listing.limit q) as [s|]; [|injection Hl as <-; lia].
    destruct (all_digits s) eqn:Hd; [|discriminate].
    destruct (negb _); [|discriminate]. injection Hl as <-.
    now apply decimal_value_nonneg. }
  assert (Hoff1 : spec_offset q = Js.of_Z ((p - 1) * l))
    by (apply offset_exact; auto; try nia; lia).
  assert (Hoff2 : spec_offset (with_page q (Some next)) = Js.of_Z (p * l)).
  { replace (p * l) with ((p + 1 - 1) * l) by ring.
    apply offset_exact; auto; lia. }
  destruct (get_products_ok pg q w H1) as (bs & n1 & o1 & Hbs & Hn1 & Hof1 & _ & Hb1).
  destruct (get_products_ok pg _ w H2) as (bs2 & n2 & o2 & Hbs2 & Hn2 & Hof2 & _ & Hb2).
  change (active_filters (with_page q (Some next))) with (active_filters q) in Hbs2.
  change (limit_value (with_page q (Some next))) with (limit_value q) in Hn2.
  change (listed pg (with_page q (Some next)) bs2 (db w)) with (listed pg q bs2 (db w)) in Hb2.
  rewrite Hbs in Hbs2. injection Hbs2 as <-.
  rewrite Hoff1, Ho1 in Hof1. rewrite Hoff2, Ho2 in Hof2.
  rewrite Hlim in Hn1, Hn2.
  injection Hn1 as Hn1. injection Hn2 as Hn2. injection Hof1 as Hof1. injection Hof2 as Hof2.
  assert (En1 : n1 = Z.to_nat l) by lia.
  assert (En2 : n2 = Z.to_nat l) by lia.
  assert (Eo1 : o1 = Z.to_nat ((p - 1) * l)) by lia.
  assert (Eo2 : o2 = (Z.to_nat ((p - 1) * l) + Z.to_nat l)%nat) by nia.
  subst n1 n2 o1 o2.
  assert (Hperm : Permutation (listed pg q bs (db w))
                    (filter (fun p => forallb (fun b => holds pg b p) bs)
                            (products (db w))))
    by (unfold listed, order_rows; apply sort_rows_perm).
  assert (Hord : ordered (asked_order pg q) (listed pg q bs (db w)) = true).
  { unfold listed, order_rows.
    replace (asked_order pg q)
      with (fun a b : Product.t =>
              if String.eqb (lower (text_default (Listing.order q) "ASC")) "desc"
              then row_le pg (text_default (Listing.sort_by q) "id") b a
              else row_le pg (text_default (Listing.sort_by q) "id") a b)
      by reflexivity.
    apply sort_rows_ordered. exact Htotal. }
  exists bs, (listed pg q bs (db w)).
  split; [exact Hbs|]. split; [exact Hperm|]. split; [exact Hord|].
  split; [|split; assumption].
  intros rows' Hperm' Hord'.
  apply (ordered_unique (asked_order pg q)); [exact Htrans| |  | exact Hord' | exact Hord].
  - intros x y Hx Hy. apply Hanti.
    + apply (Permutation_in x Hperm') in Hx. apply filter_In in Hx. tauto.
    + apply (Permutation_in y Hperm') in Hy. apply filter_In in Hy. tauto.
  - exact (perm_trans Hperm' (Permutation_sym Hperm)).
Qed.

Lemma parse_update_five : parse sql_update_five = None.
Proof. vm_compute. reflexivity. Qed.

Lemma put_product_earlier_run (id : string) (change : JsVal) (w : World) :
  Part000.put_product pg id change w
  = if Js.nullish change then
      (status_json 500 (Js.Obj [("error", Js.Str "Internal server error");
                                ("details",
                                 Js.Str (Js.cannot_destructure "name" change))]),
       w)
    else
      let sent' :=
        (sent w ++ [(sql_update_five,
                     [Js.get "name" change; Js.get "description" change;
                      Js.get "price" change; Js.get "category_id" change;
                      Js.get "image_url" change; Js.Str id])])%list in
      match (if takes_body pg change then int_in pg (Js.Str id) else None) with
      | Some n =>
          let hit (p : Product.t) := Product.id p =? n in
          (json (nth 0 (map Product.to_json
                          (map (updated_five change) (filter hit (products (db w)))))
                     Js.Undefined),
           {| db := with_products (db w)
                      (map (fun p => if hit p then updated_five change p else p)
                           (products (db w)));
              sent := sent' |})
      | None =>
          (status_json 500 (Js.Obj [("error", Js.Str "Internal server error");
                                    ("details", Js.Str "invalid parameter value")]),
           {| db := db w; sent := sent' |})
      end.
Proof.
  unfold Part000.put_product. destruct (Js.nullish change); [reflexivity|].
  unfold or_next, bind, ret, pool_query_all.
  rewrite parse_update_five.
  replace (parse_more sql_update_five) with (Some UpdateFiveColumns) by reflexivity.
  cbn [map prepareValue exec_more update_five]. unfold takes_body.
  destruct (if numeric_cell pg (prepareValue (Js.get "price" change))
               && integer_cell pg (prepareValue (Js.get "category_id" change))
            then int_in pg (Js.Str id) else None); reflexivity.
Qed.

(** X27.  The earlier [PUT /api/products/:id] (part_000) keeps the address and
    the affiliate URL of every row; the update of server.js leaves the
    same tables except for the address of the rows it updates, which it
    overwrites. *)
Theorem earlier_update_keeps_address (id : string) (change : JsVal) (w : World) :
  let before := products (db w) in
  let earlier := products (db (snd (Part000.put_product pg id change w))) in
  let current := products (db (snd (put_product pg id change w))) in
  map Product.address earlier = map Product.address before
  /\ map Product.affiliate_url earlier = map Product.affiliate_url before
  /\ map Product.id earlier = map Product.id current
  /\ (forall column,
        In column [Product.name; Product.description; Product.price;
                   Product.category_id; Product.image_url; Product.affiliate_url] ->
        map column earlier = map column current)
  /\ code (fst (Part000.put_product pg id change w))
     = code (fst (put_product pg id change w)).
Proof.
  intros before earlier current. subst before earlier current.
  rewrite put_product_earlier_run, put_product_run.
  destruct (Js.nullish change); [cbn [snd db fst code]; repeat split; reflexivity|].
  cbv zeta.
  destruct (if takes_body pg change then int_in pg (Js.Str id) else None) as [n|];
    [|cbn [snd db fst code]; repeat split; reflexivity].
  cbn [snd db fst code json with_products products]. rewrite !map_map.
  split; [apply map_ext; intros p; now destruct (Product.id p =? n)|].
  split; [apply map_ext; intros p; now destruct (Product.id p =? n)|].
  split; [apply map_ext; intros p; now destruct (Product.id p =? n)|].
  split; [|reflexivity].
  intros column Hc. rewrite !map_map. apply map_ext. intros p.
  cbn [In] in Hc.
  repeat (destruct Hc as [<-|Hc]; [now destruct (Product.id p =? n)|]).
  contradiction.
Qed.

End Order.

(** ** Malformed prices *)






















Section Malformed.

Variable pg : Pg.


End Malformed.


(** ** Worked examples for the remaining routes *)


(** [GET /api/products?page=1&limit=2] and [page=2] of the same, sorted
    by identifier: the two pages are the first two products and the
    third. *)
Lemma listing_pages_example :
  let q := Listing.Build_query (Some "1") (Some "2") None None None None None in
  count_of (Listing.page q) 1 = Some 1
  /\ count_of (Some "2") 1 = Some (1 + 1)
  /\ count_of (Listing.limit q) 10 = Some 2
  /\ (forall a b, In a (products (db Example.catalogue)) ->
                  In b (products (db Example.catalogue)) ->
                  asked_order Example.pg q a b = true ->
                  asked_order Example.pg q b a = true -> a = b)
  /\ exists bs rows,
       bounds_of Example.pg (active_filters q) = Some bs
       /\ Permutation rows
                      (filter (fun p => forallb (fun b => holds Example.pg b p) bs)
                              (products (db Example.catalogue)))
       /\ ordered (asked_order Example.pg q) rows = true
       /\ body (fst (get_products Example.pg q Example.catalogue))
          = Js.Arr (map Product.to_json
                      (firstn (Z.to_nat 2) (skipn (Z.to_nat ((1 - 1) * 2)) rows)))
       /\ body (fst (get_products Example.pg (with_page q (Some "2")) Example.catalogue))
          = Js.Arr (map Product.to_json
                      (firstn (Z.to_nat 2)
                         (skipn (Z.to_nat ((1 - 1) * 2) + Z.to_nat 2) rows))).
Proof.
  intros q.
  assert (Hp : count_of (Listing.page q) 1 = Some 1) by reflexivity.
  assert (Hn : count_of (Some "2") 1 = Some (1 + 1)) by reflexivity.
  assert (Hl : count_of (Listing.limit q) 10 = Some 2) by reflexivity.
  assert (E : forall a b, asked_order Example.pg q a b = (Product.id a <=? Product.id b))
    by reflexivity.
  assert (Htotal : forall a b, asked_order Example.pg q a b = true
                               \/ asked_order Example.pg q b a = true)
    by (intros a b; rewrite !E, !Z.leb_le; lia).
  assert (Htrans : forall a b c, asked_order Example.pg q a b = true ->
                                 asked_order Example.pg q b c = true ->
                                 asked_order Example.pg q a c = true)
    by (intros a b c; rewrite !E, !Z.leb_le; lia).
  assert (Hanti : forall a b, In a (products (db Example.catalogue)) ->
                              In b (products (db Example.catalogue)) ->
                              asked_order Example.pg q a b = true ->
                              asked_order Example.pg q b a = true -> a = b).
  { intros a b Ha Hb. rewrite !E, !Z.leb_le. intros H1 H2.
    cbn in Ha, Hb.
    destruct Ha as [<-|[<-|[<-|[]]]]; destruct Hb as [<-|[<-|[<-|[]]]];
      cbn in H1, H2; try reflexivity; lia. }
  split; [exact Hp|]. split; [exact Hn|]. split; [exact Hl|]. split; [exact Hanti|].
  destruct (listing_pages Example.pg q "2" Example.catalogue 1 2 Hp Hn Hl
              ltac:(lia) ltac:(lia) ltac:(lia) ltac:(lia)
              eq_refl eq_refl eq_refl eq_refl eq_refl Htotal Htrans Hanti)
    as (bs & rows & Hbs & Hperm & Hord & _ & H1 & H2).
  exists bs, rows. repeat (split; [assumption|]). assumption.
Defined.

(** [GET /api/products/category/1] *)
Lemma products_by_category_example :
  int_in Example.pg (Js.Str "1") = Some 1
  /\ fst (get_products_by_category Example.pg "1" Example.catalogue)
     = json (Js.Arr [Product.to_json
                       (Example.product 1 "Maple syrup" "Amber, 500 ml" "12.50" 1);
                     Product.to_json
                       (Example.product 2 "Apple butter" "No sugar added" "7.25" 1)]).
Proof.
  assert (Hn : int_in Example.pg (Js.Str "1") = Some 1) by reflexivity.
  split; [exact Hn|].
  destruct (products_by_category Example.pg "1" 1 Example.catalogue Hn)
    as (ps & Hres & Hps & _).
  rewrite Hres, Hps. vm_compute. reflexivity.
Defined.

(** [GET /api/products?category_id=1] against [GET /api/products/category/1] *)
Lemma listing_within_category_example :
  let q := Example.listing (Some "1") None None None None in
  code (fst (get_products Example.pg q Example.catalogue)) = 200
  /\ exists listed_rows category_rows,
       body (fst (get_products Example.pg q Example.catalogue))
       = Js.Arr (map Product.to_json listed_rows)
       /\ fst (get_products_by_category Example.pg "1" Example.catalogue)
          = json (Js.Arr (map Product.to_json category_rows))
       /\ forall p, In p listed_rows -> In p category_rows.
Proof.
  intros q.
  assert (H : code (fst (get_products Example.pg q Example.catalogue)) = 200)
    by (vm_compute; reflexivity).
  assert (Hne : "1" <> EmptyString) by discriminate.
  split; [exact H|].
  exact (listing_within_category Example.pg q "1" Example.catalogue eq_refl Hne H).
Defined.

(** [PUT /api/products/9] on the sample catalogue. *)
Lemma update_of_missing_product_example :
  let change := Js.Obj [("name", Js.Str "Honey")] in
  int_in Example.pg (Js.Str "9") = Some 9
  /\ Js.nullish change = false
  /\ takes_body Example.pg change = true
  /\ fst (put_product Example.pg "9" change Example.catalogue) = json Js.Undefined
  /\ db (snd (put_product Example.pg "9" change Example.catalogue))
     = db Example.catalogue.
Proof.
  intros change.
  assert (Hn : int_in Example.pg (Js.Str "9") = Some 9) by reflexivity.
  assert (Hnone : forall p, In p (products (db Example.catalogue)) -> Product.id p <> 9)
    by (intros p [<-|[<-|[<-|[]]]]; discriminate).
  assert (Hb : Js.nullish change = false) by reflexivity.
  assert (Ht : takes_body Example.pg change = true) by reflexivity.
  split; [exact Hn|]. split; [exact Hb|]. split; [exact Ht|].
  exact (proj1 (update_of_missing_product Example.pg "9" 9 change Example.catalogue
                  Hn Hnone) Hb Ht).
Defined.

(** [DELETE /api/products/2] on the sample catalogue. *)
Lemma delete_removes_product_example :
  int_in Example.pg (Js.Str "2") = Some 2
  /\ products (db (snd (delete_product Example.pg "2" Example.catalogue)))
     = [Example.product 1 "Maple syrup" "Amber, 500 ml" "12.50" 1;
        Example.product 3 "Wool socks" "Hand-knit" "30" 2].
Proof.
  assert (Hn : int_in Example.pg (Js.Str "2") = Some 2) by reflexivity.
  split; [exact Hn|].
  destruct (delete_removes_product Example.pg "2" 2 Example.catalogue Hn)
    as (_ & Hdb & _).
  rewrite Hdb. reflexivity.
Defined.

(** After [DELETE /api/products/2], [PUT /api/products/2] finds nothing. *)
Lemma deleted_product_is_gone_example :
  let change := Js.Obj [("name", Js.Str "Honey")] in
  let w1 := snd (delete_product Example.pg "2" Example.catalogue) in
  int_in Example.pg (Js.Str "2") = Some 2
  /\ code (fst (put_product Example.pg "2" change w1)) = 200
  /\ fst (put_product Example.pg "2" change w1) = json Js.Undefined
  /\ db (snd (put_product Example.pg "2" change w1)) = db w1.
Proof.
  intros change w1.
  assert (Hn : int_in Example.pg (Js.Str "2") = Some 2) by reflexivity.
  split; [exact Hn|].
  destruct (deleted_product_is_gone Example.pg "2" 2 Example.catalogue Hn)
    as (_ & _ & Hput).
  destruct (Hput change) as (Hdb & Hnone & H200).
  pose proof (H200 eq_refl eq_refl) as Hcode.
  split; [exact Hcode|]. split; [exact (Hnone Hcode) | exact Hdb].
Defined.



(** The request just submitted, as [GET /api/product-requests] shows it. *)
Lemma submitted_request_is_listed_example :
  let res := post_product_requests Example.pg Example.validators Example.submission
                                   Example.review in
  valid_submission Example.validators Example.submission = true
  /\ Js.nullish Example.submission = false
  /\ takes_submission Example.pg Example.submission = true
  /\ exists after,
       fst (get_product_requests Example.pg (snd res)) = json (Js.Arr after)
       /\ Permutation after [body (fst res); ProductRequest.to_json Example.request].
Proof.
  intros res.
  assert (Hgood : valid_submission Example.validators Example.submission = true)
    by reflexivity.
  assert (Hbody : Js.nullish Example.submission = false) by reflexivity.
  assert (Htakes : takes_submission Example.pg Example.submission = true)
    by reflexivity.
  split; [exact Hgood|]. split; [exact Hbody|]. split; [exact Htakes|].
  destruct (submitted_request_is_listed Example.pg Example.validators
              Example.submission Example.review Hgood Hbody Htakes)
    as (before & after & Hbefore & Hafter & Hperm & _).
  exists after. split; [exact Hafter|].
  assert (Hrows : before = [ProductRequest.to_json Example.request])
    by (vm_compute in Hbefore; injection Hbefore as <-; reflexivity).
  rewrite Hrows in Hperm. exact Hperm.
Defined.



(** [DELETE /api/products/abc] *)
Lemma unreadable_identifier_example :
  int_in Example.pg (Js.Str "abc") = None
  /\ code (fst (delete_product Example.pg "abc" Example.catalogue)) = 500
  /\ db (snd (delete_product Example.pg "abc" Example.catalogue)) = db Example.catalogue.
Proof.
  assert (Hid : int_in Example.pg (Js.Str "abc") = None) by reflexivity.
  split; [exact Hid|].
  destruct (unreadable_identifier Example.pg "abc" Example.catalogue Hid)
    as (_ & (Hcode & _ & Hdb) & _).
  split; [exact Hcode | exact Hdb].
Defined.

(** [12] and [12.50] *)
Lemma validatePrice_accepts_decimals_example :
  all_digits "12" = true
  /\ all_digits "50" = true
  /\ validatePrice "12" = true
  /\ validatePrice "12.50" = true.
Proof.
  assert (Ha : all_digits "12" = true) by reflexivity.
  assert (Hb : all_digits "50" = true) by reflexivity.
  assert (Hne : "12" <> EmptyString) by discriminate.
  split; [exact Ha|]. split; [exact Hb|].
  destruct (validatePrice_accepts_decimals "12" "50" Ha Hb) as [Hint Hdec].
  split; [exact (Hint Hne) | exact (Hdec (or_introl Hne))].
Defined.

(** [-5] *)
Lemma validatePrice_rejects_negatives_example :
  all_digits "5" = true
  /\ 0 < decimal_value 0 "5"
  /\ validatePrice "-5" = false.
Proof.
  assert (Hd : all_digits "5" = true) by reflexivity.
  assert (Hv : 0 < decimal_value 0 "5") by reflexivity.
  split; [exact Hd|]. split; [exact Hv|].
  exact (validatePrice_rejects_negatives "5" Hd Hv).
Defined.

(** [GET /api/products?page=0&limit=5] *)
Lemma listing_page_zero_example :
  let q := Listing.Build_query (Some "0") (Some "5") None None None None None in
  count_of (Listing.page q) 1 = Some 0
  /\ count_of (Listing.limit q) 10 = Some 5
  /\ int_in Example.pg (Js.Num (Js.of_Z (- 5))) = Some (- 5)
  /\ code (fst (get_products Example.pg q Example.catalogue)) = 500.
Proof.
  intros q.
  assert (Hp : count_of (Listing.page q) 1 = Some 0) by reflexivity.
  assert (Hl : count_of (Listing.limit q) 10 = Some 5) by reflexivity.
  assert (Hr : 0 < 5 < 2 ^ 53) by (split; reflexivity).
  assert (Hin : int_in Example.pg (Js.Num (Js.of_Z (- 5))) = Some (- 5))
    by (vm_compute; reflexivity).
  split; [exact Hp|]. split; [exact Hl|]. split; [exact Hin|].
  exact (proj1 (proj2 (listing_page_zero Example.pg q 5 Example.catalogue
                         Hp Hl Hr Hin eq_refl eq_refl))).
Defined.

(** [GET /api/products/search?query=S_RUP]: the pattern holds a wild
    card, and a product whose name holds [S_rup] as it stands is found. *)
Lemma search_finds_what_contains_example :
  let p := Example.product 5 "Birch S_rup" "Dark" "18" 1 in
  let w := {| db := {| products := [p]; product_requests := [];
                       products_id_seq := 6; product_requests_id_seq := 1 |};
              sent := [] |} in
  no_escape "S_RUP" = true
  /\ contains_ci "S_RUP" "Birch S_rup"
  /\ exists ps,
       fst (get_products_search Example.pg (Some "S_RUP") w)
       = json (Js.Arr (map Product.to_json ps))
       /\ In p ps.
Proof.
  intros p w.
  assert (Hne : "S_RUP" <> EmptyString) by discriminate.
  assert (Hs : no_escape "S_RUP" = true) by reflexivity.
  assert (Hc : contains_ci "S_RUP" "Birch S_rup")
    by (exists "Birch ", "S_rup", EmptyString; split; reflexivity).
  split; [exact Hs|]. split; [exact Hc|].
  exact (search_finds_what_contains Example.pg "S_RUP" p "Birch S_rup" w
           Hne Hs (or_introl eq_refl) (or_introl eq_refl) Hc).
Defined.

(** [GET /api/products?category_id=fruit] *)
Lemma listing_unreadable_category_example :
  let q := Example.listing (Some "fruit") None None None None in
  int_in Example.pg (Js.Str "fruit") = None
  /\ code (fst (get_products Example.pg q Example.catalogue)) = 500.
Proof.
  intros q.
  assert (Hne : "fruit" <> EmptyString) by discriminate.
  assert (Hin : int_in Example.pg (Js.Str "fruit") = None) by reflexivity.
  split; [exact Hin|].
  exact (proj1 (listing_unreadable_category Example.pg q "fruit" Example.catalogue
                  eq_refl Hne Hin eq_refl eq_refl)).
Defined.


(** [GET /api/products?sort_by=id&order=desc] on the sample catalogue. *)
Lemma listing_sorted_example :
  let q := Example.listing None None None (Some "id") (Some "desc") in
  code (fst (get_products Example.pg q Example.catalogue)) = 200
  /\ (forall a b, asked_order Example.pg q a b = true
                  \/ asked_order Example.pg q b a = true)
  /\ exists bs l o rows,
       bounds_of Example.pg (active_filters q) = Some bs
       /\ body (fst (get_products Example.pg q Example.catalogue))
          = Js.Arr (map Product.to_json rows)
       /\ rows = firstn l (skipn o (listed Example.pg q bs (db Example.catalogue)))
       /\ ordered (asked_order Example.pg q) rows = true
       /\ Permutation (listed Example.pg q bs (db Example.catalogue))
                      (filter (fun p => forallb (fun b => holds Example.pg b p) bs)
                              (products (db Example.catalogue)))
       /\ (o = 0%nat ->
           (List.length (listed Example.pg q bs (db Example.catalogue)) <= l)%nat ->
           Permutation rows
                       (filter (fun p => forallb (fun b => holds Example.pg b p) bs)
                               (products (db Example.catalogue)))).
Proof.
  intros q.
  assert (H : code (fst (get_products Example.pg q Example.catalogue)) = 200)
    by (vm_compute; reflexivity).
  assert (Htotal : forall a b, asked_order Example.pg q a b = true
                               \/ asked_order Example.pg q b a = true).
  { intros a b. unfold asked_order. cbn.
    destruct (Z.leb_spec (Product.id b) (Product.id a)); [now left|].
    right. apply Z.leb_le. lia. }
  split; [exact H|]. split; [exact Htotal|].
  exact (listing_sorted Example.pg q Example.catalogue H Htotal).
Defined.
